(** * The repair loop of the code debugger: model and properties

    A shallow embedding of [src/core/debugger.py] and [src/core/utils.py]:
    the response parser, the change applier and the repair loop of
    [CodeDebugger.debug], followed by the properties of the specification
    that concern them.

    Conventions.
    - A Python [str] is a [string], each character read as a code point
      below 256.
    - Python integers are [Z].
    - The directory under repair is a finite map from files to their
      contents; a path names the file that [realpath] gives, so that two
      paths may name one file.
    - The collaborators (interpreter, file system, language model,
      search, page fetch, directory listing, [difflib], the two prompts)
      are the fields of a record [Env]; every property holds for all of
      them.  A run of the interpreter may write files, and
      [subprocess.run] may raise.
    - [debug] returns nothing; what a session did is read from the events
      it produced (the lines of its log) and from its final state.

    The definitions come first; the properties follow, in this order: the
    matcher and the parser (C7), the change summary (C8), the phases
    of an attempt, the failure signature (C3), the attempt counter (C10),
    the escalation (C5, C2), the ends of a session (C1), files that do not
    exist yet (C4), the writes (C9); then further properties of the code,
    method by method, among them the parser on what it has parsed (C6). *)

From Stdlib Require Import ZArith Ascii String List Bool Lia.
From stdpp Require Import base option list gmap strings.

Local Open Scope Z_scope.

(** ** Python string operations *)

Module Py.

Definition LF : ascii := "010"%char.
Definition CR : ascii := "013"%char.
Definition nl : string := String LF EmptyString.

(** [str.isspace] on one character: the white space of Unicode below
    code point 256. *)
Definition is_space (a : ascii) : bool :=
  match a with
  | "009" | "010" | "011" | "012" | "013"
  | "028" | "029" | "030" | "031" | " "
  | "133" | "160" => true
  | _ => false
  end%char.

Fixpoint lstrip (s : string) : string :=
  match s with
  | EmptyString => EmptyString
  | String a s' => if is_space a then lstrip s' else s
  end.

Definition is_empty (s : string) : bool :=
  match s with EmptyString => true | String _ _ => false end.

Fixpoint rstrip (s : string) : string :=
  match s with
  | EmptyString => EmptyString
  | String a s' =>
      let r := rstrip s' in
      if is_space a && is_empty r then EmptyString else String a r
  end.

(** [s.strip()] *)
Definition strip (s : string) : string := rstrip (lstrip s).

(** [s.startswith(p)] *)
Fixpoint startswith (s p : string) : bool :=
  match p, s with
  | EmptyString, _ => true
  | String b p', String a s' => if Ascii.eqb a b then startswith s' p' else false
  | String _ _, EmptyString => false
  end.

(** [needle in hay] *)
Fixpoint str_in (needle hay : string) : bool :=
  startswith hay needle ||
  match hay with
  | EmptyString => false
  | String _ hay' => str_in needle hay'
  end.

(** [s[n:]] for a natural [n] *)
Fixpoint drop_chars (n : nat) (s : string) : string :=
  match n, s with
  | S n', String _ s' => drop_chars n' s'
  | _, _ => s
  end.

(** [s.endswith(p)] *)
Definition endswith (s p : string) : bool :=
  (String.length p <=? String.length s)%nat &&
  String.eqb (drop_chars (String.length s - String.length p) s) p.

(** The characters at which [str.splitlines] breaks a line. *)
Definition is_linebreak (a : ascii) : bool :=
  match a with
  | "010" | "011" | "012" | "013" | "028" | "029" | "030" | "133" => true
  | _ => false
  end%char.

Fixpoint splitlines_from (cur : string) (s : string) : list string :=
  match s with
  | EmptyString => if is_empty cur then [] else [cur]
  | String a s' =>
      if Ascii.eqb a CR then
        match s' with
        | String b s'' =>
            if Ascii.eqb b LF then cur :: splitlines_from EmptyString s''
            else cur :: splitlines_from EmptyString s'
        | EmptyString => [cur]
        end
      else if is_linebreak a then cur :: splitlines_from EmptyString s'
      else splitlines_from (cur +:+ String a EmptyString) s'
  end.

(** [s.splitlines()] *)
Definition splitlines (s : string) : list string :=
  splitlines_from EmptyString s.

(** ["".join(l)] *)
Definition join (l : list string) : string :=
  fold_right String.append EmptyString l.

(** What a text-mode [read()] returns for stored content: the line ends
    [\r\n] and [\r] come back as [\n]. *)
Fixpoint universal_newlines (s : string) : string :=
  match s with
  | EmptyString => EmptyString
  | String a s' =>
      if Ascii.eqb a CR then
        match s' with
        | String b s'' =>
            if Ascii.eqb b LF then String LF (universal_newlines s'')
            else String LF (universal_newlines s')
        | EmptyString => nl
        end
      else String a (universal_newlines s')
  end.

(** [os.path.join(a, b)] of [posixpath]. *)
Definition path_join (a b : string) : string :=
  if startswith b "/" then b
  else if is_empty a || endswith a "/" then a +:+ b
  else a +:+ "/" +:+ b.

(** [l[:n]] for a Python integer [n]. *)
Definition slice_to {A} (n : Z) (l : list A) : list A :=
  if 0 <=? n then take (Z.to_nat n) l
  else take (length l - Z.to_nat (- n)) l.

End Py.

(** ** The fragment of [re] that the two patterns of the debugger use

    A pattern is a sequence of items: one character of a class, a greedy
    captured [c+], a lazy captured [c*?].  The matcher tries the
    alternatives in the order of a backtracking engine and keeps the first
    that lets the rest of the pattern match. *)

Module Re.

Inductive cls : Type :=
| Chr (c : ascii)     (* a literal character *)
| Space               (* \s *)
| NonSpace            (* \S *)
| AnyChar             (* . under re.DOTALL *)
| NotNewline.         (* . without re.DOTALL *)

Inductive item : Type :=
| One (c : cls)
| CapPlus (c : cls)        (* (c+)  *)
| CapLazyStar (c : cls).   (* (c*?) *)

Definition accepts (c : cls) (a : ascii) : bool :=
  match c with
  | Chr b => Ascii.eqb a b
  | Space => Py.is_space a
  | NonSpace => negb (Py.is_space a)
  | AnyChar => true
  | NotNewline => negb (Ascii.eqb a Py.LF)
  end.

Fixpoint lits (s : string) : list item :=
  match s with
  | EmptyString => []
  | String a s' => One (Chr a) :: lits s'
  end.

Section Quantifiers.
Context {R : Type} (c : cls) (k : string -> option R).

(** [c+] followed by [k]: the longest run first. *)
Fixpoint plus_greedy (s : string) : option (string * R) :=
  match s with
  | EmptyString => None
  | String a s' =>
      if accepts c a then
        match plus_greedy s' with
        | Some (g, r) => Some (String a g, r)
        | None =>
            match k s' with
            | Some r => Some (String a EmptyString, r)
            | None => None
            end
        end
      else None
  end.

(** [c*?] followed by [k]: the shortest run first. *)
Fixpoint star_lazy (s : string) : option (string * R) :=
  match k s with
  | Some r => Some (EmptyString, r)
  | None =>
      match s with
      | EmptyString => None
      | String a s' =>
          if accepts c a then
            match star_lazy s' with
            | Some (g, r) => Some (String a g, r)
            | None => None
            end
          else None
      end
  end.
End Quantifiers.

(** A match of the pattern at the start of [s]: the groups, in order,
    and the text left after the match. *)
Fixpoint match_items (p : list item) (s : string) : option (list string * string) :=
  match p with
  | [] => Some ([], s)
  | One c :: p' =>
      match s with
      | String a s' => if accepts c a then match_items p' s' else None
      | EmptyString => None
      end
  | CapPlus c :: p' =>
      match plus_greedy c (match_items p') s with
      | Some (g, (caps, rest)) => Some (g :: caps, rest)
      | None => None
      end
  | CapLazyStar c :: p' =>
      match star_lazy c (match_items p') s with
      | Some (g, (caps, rest)) => Some (g :: caps, rest)
      | None => None
      end
  end.

(** [re.search]: the groups of the leftmost match. *)
Fixpoint search (p : list item) (s : string) : option (list string) :=
  match match_items p s with
  | Some (caps, _) => Some caps
  | None =>
      match s with
      | EmptyString => None
      | String _ s' => search p s'
      end
  end.

(** [re.findall], scanning left to right: [skip] counts the characters
    still covered by the previous match. *)
Fixpoint scan (p : list item) (skip : nat) (s : string) : list (list string) :=
  match skip with
  | S skip' =>
      match s with
      | EmptyString => []
      | String _ s' => scan p skip' s'
      end
  | O =>
      match match_items p s with
      | Some (caps, rest) =>
          caps ::
          match s with
          | EmptyString => []
          | String _ s' =>
              scan p (String.length s - String.length rest - 1) s'
          end
      | None =>
          match s with
          | EmptyString => []
          | String _ s' => scan p 0 s'
          end
      end
  end.

Definition findall (p : list item) (s : string) : list (list string) :=
  scan p 0 s.

End Re.

(** ** Python dictionaries with string keys

    A [dict] keeps its keys in the order of their first insertion; setting
    a key that is present replaces the value where it stands. *)

Module Dict.

Definition dict (V : Type) : Type := list (string * V).

Fixpoint set {V} (k : string) (v : V) (d : dict V) : dict V :=
  match d with
  | [] => [(k, v)]
  | (k', v') :: d' =>
      if String.eqb k' k then (k', v) :: d' else (k', v') :: set k v d'
  end.

Fixpoint get {V} (k : string) (d : dict V) : option V :=
  match d with
  | [] => None
  | (k', v') :: d' => if String.eqb k' k then Some v' else get k d'
  end.

Definition keys {V} (d : dict V) : list string := map fst d.

Definition mem {V} (k : string) (d : dict V) : bool :=
  match get k d with Some _ => true | None => false end.

End Dict.

(** ** The response parser *)

(** The pattern [r"#\s(\S+)\n```python\n(.*?)\n```"], compiled with
    [re.DOTALL]. *)
Definition fence_open : string := Py.nl +:+ "```python" +:+ Py.nl.
Definition fence_close : string := Py.nl +:+ "```".

Definition code_block_pattern : list Re.item :=
  Re.One (Re.Chr "#") :: Re.One Re.Space :: Re.CapPlus Re.NonSpace ::
  Re.lits fence_open ++ Re.CapLazyStar Re.AnyChar :: Re.lits fence_close.

(** [{filename: code.strip() for filename, code in matches}] *)
Definition add_match (d : Dict.dict string) (m : list string) : Dict.dict string :=
  match m with
  | [filename; code] => Dict.set filename (Py.strip code) d
  | _ => d
  end.

Definition dict_of_matches (matches : list (list string)) : Dict.dict string :=
  fold_left add_match matches [].

Definition _extract_code_from_llm_response (llm_response : string)
  : Dict.dict string :=
  let matches := Re.findall code_block_pattern llm_response in
  dict_of_matches matches.

(** The pattern [r'search_query: "(.*?)"'] of the query generator. *)
Definition dquote : string := String "034"%char EmptyString.

Definition search_query_pattern : list Re.item :=
  Re.lits ("search_query: " +:+ dquote) ++
  Re.CapLazyStar Re.NotNewline :: Re.lits dquote.


(** ** The difference report of [src/core/utils.py] *)

Section GetDiff.
(** [list(difflib.Differ().compare(old_lines, new_lines))] *)
Variable differ_compare : list string -> list string -> list string.

Definition get_diff (old_lines new_lines : list string) : list string :=
  let comparison := differ_compare old_lines new_lines in
  flat_map
    (fun line =>
       if Py.startswith line "  " then []
       else if Py.startswith line "- " then
         ["  - " +:+ Py.strip (Py.drop_chars 2 line) +:+ Py.nl]
       else if Py.startswith line "+ " then
         ["  + " +:+ Py.strip (Py.drop_chars 2 line) +:+ Py.nl]
       else [])
    comparison.
End GetDiff.

(** ** The debugger *)

(** The arguments of [CodeDebugger.__init__] that stay fixed afterwards. *)
Record Config : Type := {
  code_dir : string;
  max_attempts : Z;
  files_to_debug : list string;
  enable_internet_search : bool;
  num_search_urls : Z;
  internet_search_threshold : Z;
}.

(** What [subprocess.run] reports about a finished process. *)
Record Completed : Type := {
  returncode : Z;
  stdout : string;
  stderr : string;
}.

(** The lines of the session log, the console message of
    [internet_search] and the pause between attempts. *)
Inductive Event : Type :=
| LogAttempt (n : Z)
| LogSameError (threshold : Z)
| LogQuery (search_query : string)
| LogFetchError (url : string)
| LogChanges (change_summary : string)
| LogNoChanges
| LogErrorStillExists
| LogAllFixed
| LogMaxAttempts
| PrintSearchError
| Sleep (seconds : Z).

(** The exceptions that leave [debug]. *)
Inductive Exn : Type :=
| FileNotFoundError (path : string)
| AttributeError
| ModelError
| OSError (path : string)
| ReadError (path : string)
| RunError (path : string).

(** The mutable fields of the debugger, the directory it works on, the
    events it produced and the number of calls made to collaborators. *)
Record State : Type := {
  attempt_count : Z;
  constant_error_count : Z;
  last_error_signature : string;
  disk : gmap string string;
  log : list Event;
  clock : nat;
}.

Definition set_attempt_count (n : Z) (st : State) : State :=
  {| attempt_count := n;
     constant_error_count := constant_error_count st;
     last_error_signature := last_error_signature st;
     disk := disk st; log := log st; clock := clock st |}.

Definition set_constant_error_count (n : Z) (st : State) : State :=
  {| attempt_count := attempt_count st;
     constant_error_count := n;
     last_error_signature := last_error_signature st;
     disk := disk st; log := log st; clock := clock st |}.

Definition set_last_error_signature (s : string) (st : State) : State :=
  {| attempt_count := attempt_count st;
     constant_error_count := constant_error_count st;
     last_error_signature := s;
     disk := disk st; log := log st; clock := clock st |}.

Definition set_disk (d : gmap string string) (st : State) : State :=
  {| attempt_count := attempt_count st;
     constant_error_count := constant_error_count st;
     last_error_signature := last_error_signature st;
     disk := d; log := log st; clock := clock st |}.

Definition add_event (e : Event) (st : State) : State :=
  {| attempt_count := attempt_count st;
     constant_error_count := constant_error_count st;
     last_error_signature := last_error_signature st;
     disk := disk st; log := log st ++ [e]; clock := clock st |}.

Definition advance_clock (st : State) : State :=
  {| attempt_count := attempt_count st;
     constant_error_count := constant_error_count st;
     last_error_signature := last_error_signature st;
     disk := disk st; log := log st; clock := S (clock st) |}.

(** The state of a debugger right after [__init__]. *)
Definition initial_state (d : gmap string string) : State :=
  {| attempt_count := 0; constant_error_count := 0;
     last_error_signature := EmptyString;
     disk := d; log := []; clock := O |}.

(** *** Computations that read and write the state and may raise *)

Inductive Outcome (A : Type) : Type :=
| Ok (a : A)
| Raised (e : Exn)
| OutOfFuel.
Arguments Ok {A} a.
Arguments Raised {A} e.
Arguments OutOfFuel {A}.

Definition M (A : Type) : Type := State -> Outcome A * State.

Definition ret {A} (a : A) : M A := fun st => (Ok a, st).

Definition bind {A B} (m : M A) (f : A -> M B) : M B :=
  fun st =>
    match m st with
    | (Ok a, st') => f a st'
    | (Raised e, st') => (Raised e, st')
    | (OutOfFuel, st') => (OutOfFuel, st')
    end.

Definition raise {A} (e : Exn) : M A := fun st => (Raised e, st).
Definition get_state : M State := fun st => (Ok st, st).
Definition modify (f : State -> State) : M unit := fun st => (Ok tt, f st).
Definition emit (e : Event) : M unit := modify (add_event e).

(** The number of this call to a collaborator. *)
Definition tick : M nat := fun st => (Ok (clock st), advance_clock st).

Notation "x <- m ;; k" := (bind m (fun x => k))
  (at level 100, m at next level, right associativity).
Notation "m ;;; k" := (bind m (fun _ => k))
  (at level 100, right associativity).

(** [for x in l: acc = body(acc, x)] *)
Fixpoint for_fold {A B} (l : list A) (acc : B) (body : B -> A -> M B) : M B :=
  match l with
  | [] => ret acc
  | x :: l' => acc' <- body acc x ;; for_fold l' acc' body
  end.

(** *** Collaborators

    Each call to a collaborator carries its number, so that a collaborator
    may answer differently from one call to the next. *)
Record Env : Type := {
  (** [subprocess.run(["python", path], capture_output=True, text=True)]:
      the interpreter reads the directory and reports how the run ended. *)
  python : nat -> gmap string string -> string -> Completed;
  (** The directory after that run: the program may write, create and
      delete files. *)
  python_writes : nat -> gmap string string -> string -> gmap string string;
  (** Whether [subprocess.run] raises an exception that the method does
      not catch: any other than [CalledProcessError], such as the
      interpreter that cannot be started or an output that cannot be
      decoded. *)
  python_raises : nat -> gmap string string -> string -> bool;
  (** The file that a path names: two paths name the same file exactly
      when they have the same [realpath].  The names do not change
      during a session. *)
  realpath : string -> string;
  (** Whether [open(path, "r").read()] succeeds on a file that exists;
      otherwise it raises (no permission, a directory, bytes that cannot
      be decoded). *)
  can_read : nat -> gmap string string -> string -> bool;
  (** [llm.generate_response] on one user message and a system prompt;
      [None] stands for an exception of the client. *)
  generate_response : nat -> string -> string -> option string;
  (** The links of the result page that [internet_search] requests;
      [None] stands for an exception of the fetcher. *)
  search_page_links : nat -> string -> option (list string);
  (** The text of a page, as [Fetcher.get] and [get_all_text] give it;
      [None] stands for an exception. *)
  page_text : nat -> string -> option string;
  (** [_generate_directory_tree]: the rendering of the listing of a
      directory; it reads the directory and nothing else.  [None] stands
      for an exception of [os.listdir] that the method does not catch. *)
  _generate_directory_tree : nat -> gmap string string -> string -> option string;
  (** Whether the system lets [open(path, "w")] succeed. *)
  can_write : nat -> gmap string string -> string -> bool;
  (** [list(difflib.Differ().compare(old_lines, new_lines))] *)
  differ_compare : list string -> list string -> list string;
  (** The two prompts of [src/prompts]. *)
  SYSTEM_PROMPT : string;
  QUERY_SYSTEM_PROMPT : string;
}.

Module CodeDebugger.
Section Methods.

Context (env : Env) (self : Config).

(** *** File access *)

(** [open(path, "r").read()] *)
Definition read_text (path : string) : M string :=
  st <- get_state ;;
  match disk st !! realpath env path with
  | Some content =>
      if can_read env (clock st) (disk st) path
      then ret (Py.universal_newlines content)
      else raise (ReadError path)
  | None => raise (FileNotFoundError path)
  end.

(** [open(path, "w").write(code)] *)
Definition write_text (path code : string) : M unit :=
  t <- tick ;;
  st <- get_state ;;
  if can_write env t (disk st) path
  then modify (set_disk (<[realpath env path := code]> (disk st)))
  else raise (OSError path).

Definition call_model (content system_prompt : string) : M string :=
  t <- tick ;;
  match generate_response env t content system_prompt with
  | Some response => ret response
  | None => raise ModelError
  end.

(** *** Methods of [CodeDebugger] *)

Definition _run_subprocess_and_capture_output (code_filename : string)
  : M string :=
  t <- tick ;;
  st <- get_state ;;
  let path := Py.path_join (code_dir self) code_filename in
  modify (set_disk (python_writes env t (disk st) path)) ;;;
  if python_raises env t (disk st) path then raise (RunError path)
  else
    let result := python env t (disk st) path in
    if returncode result =? 0 then ret (Py.strip (stdout result))
    else ret (Py.strip (stderr result)).

Definition rule17 : string := "_________________".
Definition rule55 : string :=
  "_______________________________________________________".
Definition indent8 : string := "        ".
Definition indent12 : string := "            ".

Definition _construct_prompt_for_llm (internet_content : string) : M string :=
  t <- tick ;;
  st <- get_state ;;
  directory_tree <-
    match _generate_directory_tree env t (disk st) (code_dir self) with
    | Some tree => ret tree
    | None => raise (OSError (code_dir self))
    end ;;
  let file_structure_prompt :=
    Py.nl +:+ indent8 +:+ "The file structure of the project is as follows:"
    +:+ Py.nl +:+ indent8 +:+ directory_tree +:+ Py.nl +:+ indent8 in
  all_code <-
    for_fold (files_to_debug self) EmptyString
      (fun all_code code_filename =>
         code <- read_text (Py.path_join (code_dir self) code_filename) ;;
         ret (all_code +:+ "# " +:+ code_filename +:+ Py.nl
              +:+ code +:+ Py.nl
              +:+ rule17 +:+ Py.nl +:+ Py.nl)) ;;
  all_errors <-
    for_fold (files_to_debug self) EmptyString
      (fun all_errors code_filename =>
         error_message <- _run_subprocess_and_capture_output code_filename ;;
         if Py.str_in "Traceback" error_message then
           ret (all_errors +:+ "# " +:+ code_filename +:+ Py.nl
                +:+ error_message +:+ Py.nl +:+ rule17 +:+ Py.nl +:+ Py.nl)
         else
           ret (all_errors +:+ "# " +:+ code_filename +:+ " has no error."
                +:+ Py.nl +:+ rule17 +:+ Py.nl +:+ Py.nl)) ;;
  if negb (Py.is_empty internet_content) then
    ret (Py.nl +:+ indent12 +:+ "### INTERNET INFO"
         +:+ Py.nl +:+ indent12 +:+ internet_content +:+ Py.nl
         +:+ Py.nl +:+ indent12 +:+ rule55 +:+ Py.nl
         +:+ Py.nl +:+ indent12 +:+ file_structure_prompt
         +:+ Py.nl +:+ indent12 +:+ all_code
         +:+ Py.nl +:+ indent12 +:+ "error:"
         +:+ Py.nl +:+ indent12 +:+ all_errors
         +:+ Py.nl +:+ indent12)
  else
    ret (Py.nl +:+ indent12 +:+ file_structure_prompt
         +:+ Py.nl +:+ indent12 +:+ all_code
         +:+ Py.nl +:+ indent12 +:+ "error:"
         +:+ Py.nl +:+ indent12 +:+ all_errors
         +:+ Py.nl +:+ indent12).

Definition _update_code_files (code_changes : Dict.dict string) : M unit :=
  for_fold code_changes tt
    (fun _ '(filename, code) =>
       write_text (Py.path_join (code_dir self) filename) code).

(** The loop returns at the first file whose output shows a failure. *)
Fixpoint check_files (files : list string) : M bool :=
  match files with
  | [] => ret false
  | code_filename :: files' =>
      error_message <- _run_subprocess_and_capture_output code_filename ;;
      if Py.str_in "Traceback" error_message then ret true
      else check_files files'
  end.

Definition _check_for_errors : M bool := check_files (files_to_debug self).

Definition _generate_search_query_for_google : M string :=
  full_prompt_error <- _construct_prompt_for_llm EmptyString ;;
  llm_response <- call_model full_prompt_error (QUERY_SYSTEM_PROMPT env) ;;
  match Re.search search_query_pattern llm_response with
  | Some (search_query :: _) => ret search_query
  | _ => raise AttributeError
  end.

(** [internet_search] of [src/internet/search.py]: the links that start
    with [https], or [None] after an exception. *)
Definition internet_search (search_query : string) : M (option (list string)) :=
  let search_query := dquote +:+ search_query +:+ dquote in
  let search_url := "https://www.google.com/search?q=" +:+ search_query in
  t <- tick ;;
  match search_page_links env t search_url with
  | Some first_url =>
      ret (Some (List.filter (fun url => Py.startswith url "https") first_url))
  | None => emit PrintSearchError ;;; ret None
  end.

Definition _fetch_internet_content (search_query : string) (num_urls : Z)
  : M string :=
  if negb (enable_internet_search self) then ret EmptyString
  else
    urls <- internet_search search_query ;;
    match urls with
    | None | Some [] => ret EmptyString
    | Some urls =>
        for_fold (Py.slice_to num_urls urls) EmptyString
          (fun combined_content url =>
             t <- tick ;;
             match page_text env t url with
             | Some content =>
                 ret (combined_content +:+ "### CONTENT FROM: " +:+ url
                      +:+ Py.nl +:+ content +:+ Py.nl +:+ Py.nl)
             | None => emit (LogFetchError url) ;;; ret combined_content
             end)
    end.

(** *** [debug]: one pass through the body of the loop *)

Definition guide_prompt : string :=
  "I have code3.py that is giving me an error. Can you fix it?".

(** The signature of the current failures: the outputs that show a
    failure, in the order of the files. *)
Definition current_error_signature : M string :=
  for_fold (files_to_debug self) EmptyString
    (fun signature code_filename =>
       error_message <- _run_subprocess_and_capture_output code_filename ;;
       if Py.str_in "Traceback" error_message then
         ret (signature +:+ error_message)
       else ret signature).

(** The update of the repetition counter. *)
Definition track_signature (current : string) : M unit :=
  st <- get_state ;;
  if String.eqb current (last_error_signature st)
     && negb (Py.is_empty current)
  then modify (set_constant_error_count (constant_error_count st + 1))
  else
    modify (set_constant_error_count 0) ;;;
    modify (set_last_error_signature current).

(** Whether this pass asks the internet. *)
Definition escalates (st : State) : bool :=
  enable_internet_search self
  && (internet_search_threshold self <=? constant_error_count st).

(** The prompt of this pass, with the content found on the internet when
    the same failure has been seen often enough. *)
Definition build_prompt : M string :=
  st <- get_state ;;
  if escalates st then
    emit (LogSameError (internet_search_threshold self)) ;;;
    search_query <- _generate_search_query_for_google ;;
    emit (LogQuery search_query) ;;;
    internet_content <-
      _fetch_internet_content search_query (num_search_urls self) ;;
    full_prompt_with_error <- _construct_prompt_for_llm internet_content ;;
    modify (set_constant_error_count 0) ;;;
    ret full_prompt_with_error
  else _construct_prompt_for_llm EmptyString.

(** The content of every file of the change set before it is written. *)
Definition read_before_change (code_changes : Dict.dict string)
  : M (Dict.dict string) :=
  for_fold (Dict.keys code_changes) []
    (fun code_before_change filename =>
       content <- read_text (Py.path_join (code_dir self) filename) ;;
       ret (Dict.set filename content code_before_change)).

(** What one file adds to the change summary. *)
Definition summary_entry (code_before_change : Dict.dict string)
    (filename new_code : string) : string :=
  match Dict.get filename code_before_change with
  | Some old_code =>
      if negb (String.eqb (Py.strip old_code) (Py.strip new_code)) then
        (Py.nl +:+ "File: " +:+ filename +:+ Py.nl)
        +:+ Py.join (get_diff (differ_compare env)
                       (Py.splitlines old_code) (Py.splitlines new_code))
      else EmptyString
  | None => EmptyString
  end.

Definition make_change_summary (code_changes code_before_change : Dict.dict string)
  : string :=
  fold_left
    (fun change_summary '(filename, new_code) =>
       change_summary +:+ summary_entry code_before_change filename new_code)
    code_changes EmptyString.

(** [self.attempt_count += 1] and the line of the log that follows. *)
Definition begin_attempt : M unit :=
  modify (fun st => set_attempt_count (attempt_count st + 1) st) ;;;
  st <- get_state ;;
  emit (LogAttempt (attempt_count st)).

(** From the reply of the model to the line of the log about the
    changes: parse, read the files as they are, write them, report. *)
Definition apply_response (llm_response : string) : M unit :=
  let code_changes := _extract_code_from_llm_response llm_response in
  code_before_change <- read_before_change code_changes ;;
  _update_code_files code_changes ;;;
  let change_summary := make_change_summary code_changes code_before_change in
  if negb (Py.is_empty change_summary)
  then emit (LogChanges change_summary)
  else emit LogNoChanges.

(** The check after the changes, its line of the log and the pause. *)
Definition recheck : M bool :=
  error_exists <- _check_for_errors ;;
  (if error_exists
   then emit LogErrorStillExists ;;; emit (Sleep 2)
   else emit LogAllFixed) ;;;
  ret error_exists.

(** The body of the loop; it returns [error_exists]. *)
Definition attempt : M bool :=
  begin_attempt ;;;
  signature <- current_error_signature ;;
  track_signature signature ;;;
  full_prompt_with_error <- build_prompt ;;
  llm_response <-
    call_model (full_prompt_with_error +:+ guide_prompt) (SYSTEM_PROMPT env) ;;
  apply_response llm_response ;;;
  recheck.

(** [while error_exists and self.attempt_count < self.max_attempts] *)
Fixpoint while_loop (fuel : nat) (error_exists : bool) : M unit :=
  fun st =>
    if error_exists && (attempt_count st <? max_attempts self) then
      match fuel with
      | O => (OutOfFuel, st)
      | S fuel' => (error_exists' <- attempt ;; while_loop fuel' error_exists') st
      end
    else (Ok tt, st).

Definition debug : M unit :=
  st <- get_state ;;
  while_loop (Z.to_nat (max_attempts self - attempt_count st)) true ;;;
  st <- get_state ;;
  if max_attempts self <=? attempt_count st then emit LogMaxAttempts
  else ret tt.

End Methods.
End CodeDebugger.

(** [CodeDebugger.__init__]: without files to debug, every [.py] entry of
    the listing of [code_dir] is taken. *)
Definition _get_all_python_files (listing : list string) : list string :=
  List.filter (fun f => Py.endswith f ".py") listing.

Definition CodeDebugger_init (code_dir : string) (max_attempts : Z)
    (files_to_debug : option (list string)) (enable_internet_search : bool)
    (num_search_urls internet_search_threshold : Z)
    (listing : list string) : Config :=
  {| code_dir := code_dir;
     max_attempts := max_attempts;
     files_to_debug :=
       match files_to_debug with
       | None | Some [] => _get_all_python_files listing
       | Some files => files
       end;
     enable_internet_search := enable_internet_search;
     num_search_urls := num_search_urls;
     internet_search_threshold := internet_search_threshold |}.

(** ** Notions in which the properties are stated *)

(** *** The grammar of a block of the reply

    A line [# name], then a fenced [python] block. *)
Definition string_forall (P : ascii -> bool) (s : string) : bool :=
  forallb P (list_ascii_of_string s).

Definition block_text (ws : ascii) (name code : string) : string :=
  "#" +:+ String ws EmptyString +:+ name +:+ fence_open +:+ code +:+ fence_close.

Definition is_block (b : string) : Prop :=
  exists ws name code,
    b = block_text ws name code /\
    Py.is_space ws = true /\
    name <> EmptyString /\
    string_forall (fun a => negb (Py.is_space a)) name = true.

Definition contains_block (s : string) : Prop :=
  exists pre b post, is_block b /\ s = pre +:+ b +:+ post.

(** *** What the interpreter reports, call by call *)

Section Readings.
Context (env : Env) (self : Config).

(** The text that [_run_subprocess_and_capture_output] returns at call
    [t] on directory [d]. *)
Definition run_output (t : nat) (d : gmap string string) (code_filename : string)
  : string :=
  let result := python env t d (Py.path_join (code_dir self) code_filename) in
  if returncode result =? 0 then Py.strip (stdout result)
  else Py.strip (stderr result).

(** The directory that this call leaves. *)
Definition run_disk (t : nat) (d : gmap string string) (code_filename : string)
  : gmap string string :=
  python_writes env t d (Py.path_join (code_dir self) code_filename).

(** Whether [subprocess.run] raises at this call. *)
Definition run_raises (t : nat) (d : gmap string string) (code_filename : string)
  : bool :=
  python_raises env t d (Py.path_join (code_dir self) code_filename).

(** The texts of a run over the files, one call after the other, each on
    the directory that the call before it has left. *)
Fixpoint outputs_from (t : nat) (d : gmap string string) (files : list string)
  : list string :=
  match files with
  | [] => []
  | f :: files' => run_output t d f :: outputs_from (S t) (run_disk t d f) files'
  end.

(** The exception that ends a run over the files, if a call raises. *)
Fixpoint run_error (t : nat) (d : gmap string string) (files : list string)
  : option Exn :=
  match files with
  | [] => None
  | f :: files' =>
      if run_raises t d f
      then Some (RunError (Py.path_join (code_dir self) f))
      else run_error (S t) (run_disk t d f) files'
  end.

(** Whether every call of a run over the files returns. *)
Definition runs_return (t : nat) (d : gmap string string) (files : list string)
  : bool :=
  match run_error t d files with
  | None => true
  | Some _ => false
  end.

Definition shows_failure (error_message : string) : bool :=
  Py.str_in "Traceback" error_message.

(** The failure texts of a run, in the order of the files. *)
Definition failure_texts (t : nat) (d : gmap string string) : list string :=
  List.filter shows_failure (outputs_from t d (files_to_debug self)).

(** Whether a run over the files finds a failure. *)
Definition failures_remain (t : nat) (d : gmap string string) : bool :=
  existsb shows_failure (outputs_from t d (files_to_debug self)).

(** How the check of the files ends: it stops at the first file whose
    output shows a failure, or at a call that raises. *)
Fixpoint check_outcome (t : nat) (d : gmap string string) (files : list string)
  : Outcome bool :=
  match files with
  | [] => Ok false
  | f :: files' =>
      if run_raises t d f
      then Raised (RunError (Py.path_join (code_dir self) f))
      else if shows_failure (run_output t d f) then Ok true
      else check_outcome (S t) (run_disk t d f) files'
  end.

(** The state after one run of a file. *)
Definition after_run (code_filename : string) (st : State) : State :=
  set_disk (run_disk (clock st) (disk st) code_filename) (advance_clock st).

(** The state after the check of the files. *)
Fixpoint after_check (files : list string) (st : State) : State :=
  match files with
  | [] => st
  | f :: files' =>
      if run_raises (clock st) (disk st) f then after_run f st
      else if shows_failure (run_output (clock st) (disk st) f)
      then after_run f st
      else after_check files' (after_run f st)
  end.

(** The state after a run over the files. *)
Fixpoint after_runs (files : list string) (st : State) : State :=
  match files with
  | [] => st
  | f :: files' =>
      if run_raises (clock st) (disk st) f then after_run f st
      else after_runs files' (after_run f st)
  end.
End Readings.

(** *** Reading the log *)

(** The lines of the log that tell how the loop went. *)
Definition is_marker (e : Event) : bool :=
  match e with
  | LogAttempt _ | LogSameError _ | LogErrorStillExists
  | LogAllFixed | LogMaxAttempts => true
  | _ => false
  end.

Definition markers (l : list Event) : list Event := List.filter is_marker l.

(** The numbers of the attempts during which the internet was asked. *)
Fixpoint escalation_attempts_from (current : Z) (l : list Event) : list Z :=
  match l with
  | [] => []
  | LogAttempt n :: l' => escalation_attempts_from n l'
  | LogSameError _ :: l' => current :: escalation_attempts_from current l'
  | _ :: l' => escalation_attempts_from current l'
  end.

Definition escalation_attempts (l : list Event) : list Z :=
  escalation_attempts_from 0 l.

(** The numbers that the log gives to the attempts, in order. *)
Fixpoint attempts_logged (l : list Event) : list Z :=
  match l with
  | [] => []
  | LogAttempt n :: l' => n :: attempts_logged l'
  | _ :: l' => attempts_logged l'
  end.

(** No two attempts in a row are in the list. *)
Definition never_twice_in_a_row (l : list Z) : Prop :=
  forall n, In n l -> ~ In (n + 1) l.

(** The two ends of a session, as the log reports them. *)
Definition reports_succeeded (l : list Event) : Prop := In LogAllFixed l.
Definition reports_exhausted (l : list Event) : Prop := In LogMaxAttempts l.

(** The part of the log of [st'] written after [st]. *)
Definition log_since (st st' : State) : list Event :=
  drop (length (log st)) (log st').

Definition is_same_error (e : Event) : bool :=
  match e with LogSameError _ => true | _ => false end.

(** Whether the internet was asked between [st] and [st']. *)
Definition escalated (st st' : State) : bool :=
  existsb is_same_error (log_since st st').

(** *** Relations between the states before and after a computation *)

(** Nothing but the clock and the lines of the log that are not markers
    has changed. *)
Record steady (st st' : State) : Prop := {
  steady_attempt : attempt_count st' = attempt_count st;
  steady_count : constant_error_count st' = constant_error_count st;
  steady_last : last_error_signature st' = last_error_signature st;
  steady_disk : disk st' = disk st;
  steady_markers : markers (log st') = markers (log st);
  steady_log : exists l, log st' = log st ++ l;
}.

(** [m] relates the state it starts from to the state it ends in by [R],
    however it ends, and it does not run out of fuel. *)
Definition keeps {A} (R : State -> State -> Prop) (m : M A) : Prop :=
  forall st, R st (snd (m st)) /\ fst (m st) <> OutOfFuel.

(** The update of the counter and of the last signature, as functions. *)
Definition tracked_count (st : State) (signature : string) : Z :=
  if String.eqb signature (last_error_signature st)
     && negb (Py.is_empty signature)
  then constant_error_count st + 1 else 0.

Definition tracked_last (st : State) (signature : string) : string :=
  if String.eqb signature (last_error_signature st)
     && negb (Py.is_empty signature)
  then last_error_signature st else signature.

(** The states at the head of the loop of a session on directory [d],
    with the value of [error_exists]. *)
Inductive loop_head (env : Env) (self : Config) (d : gmap string string)
  : State -> bool -> Prop :=
| head_start : loop_head env self d (initial_state d) true
| head_next st error_exists st' :
    loop_head env self d st true ->
    attempt_count st < max_attempts self ->
    CodeDebugger.attempt env self st = (Ok error_exists, st') ->
    loop_head env self d st' error_exists.

(** The log of [st'] is the log of [st] with more lines, whose markers
    are [ms]. *)
Definition logged (ms : list Event) (st st' : State) : Prop :=
  exists l, log st' = log st ++ l /\ markers l = ms.

(** The counters are what they were, and the markers [ms] were added to
    the log. *)
Record follows (ms : list Event) (st st' : State) : Prop := {
  follows_attempt : attempt_count st' = attempt_count st;
  follows_count : constant_error_count st' = constant_error_count st;
  follows_last : last_error_signature st' = last_error_signature st;
  follows_log : logged ms st st';
}.

(** The counters are what they were, but for the repetition counter,
    which may have been reset; no marker was added to the log. *)
Record drifts (st st' : State) : Prop := {
  drifts_attempt : attempt_count st' = attempt_count st;
  drifts_count :
    constant_error_count st' = constant_error_count st \/
    constant_error_count st' = 0;
  drifts_last : last_error_signature st' = last_error_signature st;
  drifts_log : logged [] st st';
}.

(** The marker that closes an attempt. *)
Definition end_marker (error_exists : bool) : Event :=
  if error_exists then LogErrorStillExists else LogAllFixed.

(** The marker of an attempt, when it asks the internet. *)
Definition escalation_markers (self : Config) (asks : bool) : list Event :=
  if asks then [LogSameError (internet_search_threshold self)] else [].

(** The decision to ask the internet, from the counter after its update. *)
Definition escalating (self : Config) (count : Z) : bool :=
  enable_internet_search self && (internet_search_threshold self <=? count).

(** *** The body of the loop after the update of the counter

    The prompt, the call of the model, the changes and the check. *)
Definition after_update (env : Env) (self : Config) : M bool :=
  full_prompt_with_error <- CodeDebugger.build_prompt env self ;;
  llm_response <-
    CodeDebugger.call_model env
      (full_prompt_with_error +:+ CodeDebugger.guide_prompt) (SYSTEM_PROMPT env) ;;
  CodeDebugger.apply_response env self llm_response ;;;
  CodeDebugger.recheck env self.

(** ** Concrete sessions *)

Module Scenario.

(** The file that a path names in the scenarios: the path without its
    [/./] parts. *)
Fixpoint plain_path (path : string) : string :=
  match path with
  | EmptyString => EmptyString
  | String "/" (String "." (String "/" _ as rest)) => plain_path rest
  | String a path' => String a (plain_path path')
  end.

Definition failing : Completed :=
  {| returncode := 1; stdout := EmptyString;
     stderr := "Traceback (most recent call last): boom" |}.

Definition passing : Completed :=
  {| returncode := 0; stdout := "ok"; stderr := EmptyString |}.

Definition query_reply : string :=
  "search_query: " +:+ dquote +:+ "python boom" +:+ dquote.

(** A reply that replaces [name] by [code]. *)
Definition reply_for (name code : string) : string :=
  block_text " " name code.

(** The model answers the query prompt with a query and every other
    prompt with [reply]. *)
Definition model (reply : string) (t : nat) (content system_prompt : string)
  : option string :=
  if String.eqb system_prompt "query" then Some query_reply else Some reply.

(** A comparison that reports every old line as removed and every new
    line as added. *)
Definition compare_all (old_lines new_lines : list string) : list string :=
  map (String.append "- ") old_lines ++ map (String.append "+ ") new_lines.

(** [a.py] fails in the same way on every run, whatever it contains. *)
Definition env_stuck : Env :=
  {| python := fun _ _ _ => failing;
     python_writes := fun _ d _ => d;
     python_raises := fun _ _ _ => false;
     realpath := plain_path;
     can_read := fun _ _ _ => true;
     generate_response := model "no idea";
     search_page_links := fun _ _ => Some [];
     page_text := fun _ _ => None;
     _generate_directory_tree := fun _ _ _ => Some "a.py";
     can_write := fun _ _ _ => true;
     differ_compare := compare_all;
     SYSTEM_PROMPT := "fix";
     QUERY_SYSTEM_PROMPT := "query" |}.

(** A file fails as long as it contains [boom()]. *)
Definition run_file (d : gmap string string) (path : string) : Completed :=
  match d !! path with
  | Some content => if String.eqb content "boom()" then failing else passing
  | None => passing
  end.

(** The model repairs [a.py] at once. *)
Definition env_fix : Env :=
  {| python := fun _ => run_file;
     python_writes := fun _ d _ => d;
     python_raises := fun _ _ _ => false;
     realpath := plain_path;
     can_read := fun _ _ _ => true;
     generate_response := model (reply_for "a.py" "print(1)");
     search_page_links := fun _ _ => Some [];
     page_text := fun _ _ => None;
     _generate_directory_tree := fun _ _ _ => Some "a.py";
     can_write := fun _ _ _ => true;
     differ_compare := compare_all;
     SYSTEM_PROMPT := "fix";
     QUERY_SYSTEM_PROMPT := "query" |}.

(** The model proposes a file that the directory does not have. *)
Definition env_new_file : Env :=
  {| python := fun _ => run_file;
     python_writes := fun _ d _ => d;
     python_raises := fun _ _ _ => false;
     realpath := plain_path;
     can_read := fun _ _ _ => true;
     generate_response := model (reply_for "b.py" "print(1)");
     search_page_links := fun _ _ => Some [];
     page_text := fun _ _ => None;
     _generate_directory_tree := fun _ _ _ => Some "a.py";
     can_write := fun _ _ _ => true;
     differ_compare := compare_all;
     SYSTEM_PROMPT := "fix";
     QUERY_SYSTEM_PROMPT := "query" |}.

Definition config (max_attempts internet_search_threshold : Z) : Config :=
  {| code_dir := "proj";
     max_attempts := max_attempts;
     files_to_debug := ["a.py"];
     enable_internet_search := true;
     num_search_urls := 5;
     internet_search_threshold := internet_search_threshold |}.

Definition directory : gmap string string := {[ "proj/a.py" := "boom()" ]}.

(** Scenario A of the specification: three attempts, threshold two. *)
Definition session_A : Outcome unit * State :=
  CodeDebugger.debug env_stuck (config 3 2) (initial_state directory).

(** The same failure with threshold one and four attempts. *)
Definition session_threshold_one : Outcome unit * State :=
  CodeDebugger.debug env_stuck (config 4 1) (initial_state directory).

(** One attempt allowed, and it repairs the file. *)
Definition session_last_attempt_fixes : Outcome unit * State :=
  CodeDebugger.debug env_fix (config 1 5) (initial_state directory).

(** The reply names [b.py], which does not exist. *)
Definition session_new_file : Outcome unit * State :=
  CodeDebugger.debug env_new_file (config 3 5) (initial_state directory).

(** A reply with two blocks for the same file. *)
Definition reply_twice : string :=
  "Here:" +:+ Py.nl +:+ reply_for "a.py" ("x = 1" +:+ Py.nl +:+ "  ")
  +:+ Py.nl +:+ reply_for "a.py" "x = 2".

(** A reply whose fence does not say [python]. *)
Definition reply_wrong_fence : string :=
  "# a.py" +:+ Py.nl +:+ "```" +:+ Py.nl +:+ "x = 1" +:+ Py.nl +:+ "```".

(** The state after [n] attempts from [st]. *)
Definition after_attempts (env : Env) (self : Config) (n : nat) (st : State)
  : State :=
  Nat.iter n (fun s => snd (CodeDebugger.attempt env self s)) st.

(** A change set that gives a file the content it has, white space apart. *)
Definition changes_noop : Dict.dict string := [("a.py", "boom()")].
Definition before_noop : Dict.dict string :=
  [("a.py", "  boom()" +:+ Py.nl)].

(** A directory with a second file, and a change set for the first. *)
Definition directory_two : gmap string string :=
  <["proj/c.py" := "print(2)"]> directory.
Definition changes_a : Dict.dict string := [("a.py", "print(1)")].

(** A change set whose only key names [a.py] by another path. *)
Definition changes_alias : Dict.dict string := [("./a.py", "print(1)")].

End Scenario.

(** ** Further notions *)

(** *** Text without white space at either end *)

Definition starts_with_space (s : string) : bool :=
  match s with
  | EmptyString => false
  | String a _ => Py.is_space a
  end.

Fixpoint ends_with_space (s : string) : bool :=
  match s with
  | EmptyString => false
  | String a EmptyString => Py.is_space a
  | String _ s' => ends_with_space s'
  end.

Definition trimmed (s : string) : Prop :=
  starts_with_space s = false /\ ends_with_space s = false.

(** A name that the block pattern can capture: not empty, no white space. *)
Definition is_name (name : string) : Prop :=
  name <> EmptyString /\
  string_forall (fun a => negb (Py.is_space a)) name = true.

(** *** The reply to the query prompt

    The text [search_query: "q"] with [q] on one line. *)
Definition query_text (q : string) : string :=
  "search_query: " +:+ dquote +:+ q +:+ dquote.

Definition has_query (reply : string) : Prop :=
  exists pre q post,
    reply = pre +:+ query_text q +:+ post /\
    string_forall (Re.accepts Re.NotNewline) q = true.

(** Neither a line feed nor a double quote. *)
Definition query_char (a : ascii) : bool :=
  negb (Ascii.eqb a Py.LF) && negb (Ascii.eqb a "034").

(** *** The exceptions of a computation *)



(** [subprocess.run] raised. *)
Definition is_run_error (e : Exn) : Prop :=
  match e with
  | RunError _ => True
  | _ => False
  end.


(** *** Files of the prompt *)

(** Whether [open(path, "r").read()] succeeds at call [t] on directory
    [d]: the file is there and can be read. *)
Definition readable (env : Env) (t : nat) (d : gmap string string)
    (path : string) : bool :=
  match d !! realpath env path with
  | Some _ => can_read env t d path
  | None => false
  end.

(** The exception of [open(path, "r").read()] when it does not succeed. *)
Definition read_error (env : Env) (d : gmap string string) (path : string)
  : Exn :=
  match d !! realpath env path with
  | Some _ => ReadError path
  | None => FileNotFoundError path
  end.




(** *** The distance between the attempts that ask the internet *)

(** Every number of the list is at least [gap] after the one before it,
    and the first one at least [gap] after [prev]. *)
Fixpoint apart (gap prev : Z) (l : list Z) : Prop :=
  match l with
  | [] => True
  | n :: l' => prev + gap <= n /\ apart gap n l'
  end.

(** *** Other collaborators for the search *)

(** [env] with another result page, other pages and another prompt for
    the query. *)
Definition with_search (env : Env)
    (links : nat -> string -> option (list string))
    (pages : nat -> string -> option string) (query_prompt : string) : Env :=
  {| python := python env;
     python_writes := python_writes env;
     python_raises := python_raises env;
     realpath := realpath env;
     can_read := can_read env;
     generate_response := generate_response env;
     search_page_links := links;
     page_text := pages;
     _generate_directory_tree := _generate_directory_tree env;
     can_write := can_write env;
     differ_compare := differ_compare env;
     SYSTEM_PROMPT := SYSTEM_PROMPT env;
     QUERY_SYSTEM_PROMPT := query_prompt |}.

(** The configuration of [Scenario.config] with the search switched off. *)
Definition config_offline (max_attempts internet_search_threshold : Z)
  : Config :=
  {| code_dir := "proj";
     max_attempts := max_attempts;
     files_to_debug := ["a.py"];
     enable_internet_search := false;
     num_search_urls := 5;
     internet_search_threshold := internet_search_threshold |}.

(** *** Files that a computation leaves alone *)

(** The files at the paths in [P] are what they were. *)
Definition untouched (P : string -> Prop) (st st' : State) : Prop :=
  forall path, P path -> disk st' !! path = disk st !! path.


(** *** A model that gives no reply *)


(** *** The files of a change set *)


(** The file that a name of the change set names. *)
Definition file_of (env : Env) (self : Config) (filename : string) : string :=
  realpath env (Py.path_join (code_dir self) filename).

(** The directory after the files of the change set are written, one
    after the other. *)
Definition written (env : Env) (self : Config)
    (code_changes : Dict.dict string) (d : gmap string string)
  : gmap string string :=
  fold_left
    (fun d '(filename, code) => <[file_of env self filename := code]> d)
    code_changes d.

(** The line of the log about the changes of an attempt. *)
Definition is_change_report (e : Event) : Prop :=
  e = LogNoChanges \/ exists change_summary, e = LogChanges change_summary.

(** *** The lines of a comparison *)

(** A line that the comparison marks as removed or as added. *)
Definition is_marked (line : string) : bool :=
  Py.startswith line "- " || Py.startswith line "+ ".

(** What [get_diff] shows of a marked line. *)
Definition diff_entry (line : string) : string :=
  (if Py.startswith line "- " then "  - " else "  + ")
  +:+ Py.strip (Py.drop_chars 2 line) +:+ Py.nl.

(** *** A project without a failure *)


(** *** The attempts that ask the internet about a failure that stays *)

(** Attempt [n] is one more than a multiple of the threshold, and not the
    first. *)
Definition search_is_due (threshold n : Z) : bool :=
  (1 <? n) && ((n - 1) mod threshold =? 0).

(** *** A file that cannot be written *)

(** The model answers with new code for [a.py], [b.py] and [c.py], and
    the system refuses to open [proj/b.py] for writing. *)
Definition changes_three : Dict.dict string :=
  [("a.py", "print(1)"); ("b.py", "print(2)"); ("c.py", "print(3)")].

Definition env_refuses_b : Env :=
  {| python := fun _ _ _ => Scenario.failing;
     python_writes := fun _ d _ => d;
     python_raises := fun _ _ _ => false;
     realpath := Scenario.plain_path;
     can_read := fun _ _ _ => true;
     generate_response := Scenario.model "no idea";
     search_page_links := fun _ _ => Some [];
     page_text := fun _ _ => None;
     _generate_directory_tree := fun _ _ _ => Some "a.py";
     can_write := fun _ _ path => negb (String.eqb path "proj/b.py");
     differ_compare := Scenario.compare_all;
     SYSTEM_PROMPT := "fix";
     QUERY_SYSTEM_PROMPT := "query" |}.

(** *** A call of the interpreter that raises *)

(** The program fails at every run, and from call [k] on every call of
    [subprocess.run] raises, as it does when the output of the program
    is not text. *)
Definition env_run_raises_from (k : nat) : Env :=
  {| python := fun _ _ _ => Scenario.failing;
     python_writes := fun _ d _ => d;
     python_raises := fun t _ _ => (k <=? t)%nat;
     realpath := Scenario.plain_path;
     can_read := fun _ _ _ => true;
     generate_response := Scenario.model "no idea";
     search_page_links := fun _ _ => Some [];
     page_text := fun _ _ => None;
     _generate_directory_tree := fun _ _ _ => Some "a.py";
     can_write := fun _ _ _ => true;
     differ_compare := Scenario.compare_all;
     SYSTEM_PROMPT := "fix";
     QUERY_SYSTEM_PROMPT := "query" |}.

(** *** A program that writes a file *)

(** The program under repair fails and leaves a file of its own each
    time it is run. *)
Definition env_program_writes : Env :=
  {| python := fun _ _ _ => Scenario.failing;
     python_writes := fun _ d _ => <["proj/out.txt" := "done"]> d;
     python_raises := fun _ _ _ => false;
     realpath := Scenario.plain_path;
     can_read := fun _ _ _ => true;
     generate_response := Scenario.model "no idea";
     search_page_links := fun _ _ => Some [];
     page_text := fun _ _ => None;
     _generate_directory_tree := fun _ _ _ => Some "a.py";
     can_write := fun _ _ _ => true;
     differ_compare := Scenario.compare_all;
     SYSTEM_PROMPT := "fix";
     QUERY_SYSTEM_PROMPT := "query" |}.

(** *** A mapping said back as a reply *)

(** One block for each entry of the mapping, in the order of the
    mapping. *)
Definition blocks_of (d : Dict.dict string) : string :=
  fold_right
    (fun entry reply => block_text " " (fst entry) (snd entry) +:+ reply)
    EmptyString d.

(** * Properties *)

(** ** Strings *)

Lemma append_cons (a : ascii) (s t : string) :
  String a s +:+ t = String a (s +:+ t).
Proof. reflexivity. Qed.

Lemma append_empty_l (s : string) : EmptyString +:+ s = s.
Proof. reflexivity. Qed.

Lemma append_empty_r (s : string) : s +:+ EmptyString = s.
Proof. induction s as [|a s IH]; [reflexivity|]. rewrite append_cons. by rewrite IH. Qed.

Lemma append_assoc (s t u : string) : (s +:+ t) +:+ u = s +:+ (t +:+ u).
Proof.
  induction s as [|a s IH]; [reflexivity|].
  rewrite !append_cons. by rewrite IH.
Qed.

Lemma is_empty_true (s : string) : Py.is_empty s = true <-> s = EmptyString.
Proof. destruct s; simpl; split; congruence. Qed.

Lemma append_is_empty (s t : string) :
  Py.is_empty (s +:+ t) = Py.is_empty s && Py.is_empty t.
Proof. destruct s; reflexivity. Qed.

Lemma string_forall_cons (P : ascii -> bool) (a : ascii) (s : string) :
  string_forall P (String a s) = P a && string_forall P s.
Proof. reflexivity. Qed.

(** ** The matcher *)

Section MatcherSound.
Context {R : Type} (c : Re.cls) (k : string -> option R).

Lemma plus_greedy_sound (s g : string) (r : R) :
  Re.plus_greedy c k s = Some (g, r) ->
  exists s', s = g +:+ s' /\ k s' = Some r /\ g <> EmptyString /\
             string_forall (Re.accepts c) g = true.
Proof.
  revert g r. induction s as [|a s IH]; intros g r; simpl; [discriminate|].
  destruct (Re.accepts c a) eqn:Ha; [|discriminate].
  destruct (Re.plus_greedy c k s) as [[g' r']|] eqn:Hrec.
  - intros [= <- <-].
    destruct (IH g' r' eq_refl) as (s' & -> & Hk & _ & Hall).
    exists s'. rewrite append_cons, string_forall_cons, Ha, Hall. done.
  - destruct (k s) as [r'|] eqn:Hk; [|discriminate].
    intros [= <- <-]. exists s.
    rewrite append_cons, append_empty_l, string_forall_cons, Ha. done.
Qed.

Lemma star_lazy_sound (s g : string) (r : R) :
  Re.star_lazy c k s = Some (g, r) ->
  exists s', s = g +:+ s' /\ k s' = Some r /\
             string_forall (Re.accepts c) g = true.
Proof.
  revert g r. induction s as [|a s IH]; intros g r; simpl.
  - destruct (k EmptyString) as [r'|] eqn:Hk; [|discriminate].
    intros [= <- <-]. by exists EmptyString.
  - destruct (k (String a s)) as [r'|] eqn:Hk.
    + intros [= <- <-]. by exists (String a s).
    + destruct (Re.accepts c a) eqn:Ha; [|discriminate].
      destruct (Re.star_lazy c k s) as [[g' r']|] eqn:Hrec; [|discriminate].
      intros [= <- <-].
      destruct (IH g' r' eq_refl) as (s' & -> & Hk' & Hall).
      exists s'. rewrite append_cons, string_forall_cons, Ha, Hall. done.
Qed.
End MatcherSound.

Lemma match_one_inv (c : Re.cls) (p : list Re.item) (s : string) r :
  Re.match_items (Re.One c :: p) s = Some r ->
  exists a s', s = String a s' /\ Re.accepts c a = true /\
               Re.match_items p s' = Some r.
Proof.
  simpl. destruct s as [|a s]; [discriminate|].
  destruct (Re.accepts c a) eqn:Ha; [|discriminate]. eauto.
Qed.

Lemma match_lits_inv (l : string) (p : list Re.item) (s : string) r :
  Re.match_items (Re.lits l ++ p) s = Some r ->
  exists s', s = l +:+ s' /\ Re.match_items p s' = Some r.
Proof.
  revert s. induction l as [|b l IH]; intros s H.
  - by exists s.
  - change (Re.lits (String b l) ++ p) with (Re.One (Re.Chr b) :: (Re.lits l ++ p)) in H.
    apply match_one_inv in H as (a & s' & -> & Ha & H).
    simpl in Ha. apply Ascii.eqb_eq in Ha as ->.
    destruct (IH _ H) as (s'' & -> & H'). by exists s''.
Qed.

Lemma match_plus_inv (c : Re.cls) (p : list Re.item) (s : string) caps rest :
  Re.match_items (Re.CapPlus c :: p) s = Some (caps, rest) ->
  exists g caps' s',
    caps = g :: caps' /\ s = g +:+ s' /\ g <> EmptyString /\
    string_forall (Re.accepts c) g = true /\
    Re.match_items p s' = Some (caps', rest).
Proof.
  simpl.
  destruct (Re.plus_greedy c (Re.match_items p) s) as [[g [caps' rest']]|] eqn:H;
    [|discriminate].
  intros [= <- <-].
  apply plus_greedy_sound in H as (s' & -> & Hk & Hne & Hall).
  by exists g, caps', s'.
Qed.

Lemma match_lazy_inv (c : Re.cls) (p : list Re.item) (s : string) caps rest :
  Re.match_items (Re.CapLazyStar c :: p) s = Some (caps, rest) ->
  exists g caps' s',
    caps = g :: caps' /\ s = g +:+ s' /\
    string_forall (Re.accepts c) g = true /\
    Re.match_items p s' = Some (caps', rest).
Proof.
  simpl.
  destruct (Re.star_lazy c (Re.match_items p) s) as [[g [caps' rest']]|] eqn:H;
    [|discriminate].
  intros [= <- <-].
  apply star_lazy_sound in H as (s' & -> & Hk & Hall).
  by exists g, caps', s'.
Qed.

(** A match of the block pattern is a block of the grammar, and its two
    groups are the name and the code. *)
Lemma match_block_sound (s : string) caps rest :
  Re.match_items code_block_pattern s = Some (caps, rest) ->
  exists ws name code,
    caps = [name; code] /\ s = block_text ws name code +:+ rest /\
    is_block (block_text ws name code).
Proof.
  unfold code_block_pattern. intros H.
  apply match_one_inv in H as (a & s1 & -> & Ha & H).
  simpl in Ha. apply Ascii.eqb_eq in Ha as ->.
  apply match_one_inv in H as (ws & s2 & -> & Hws & H).
  apply match_plus_inv in H as (name & caps1 & s3 & -> & -> & Hne & Hname & H).
  apply match_lits_inv in H as (s4 & -> & H).
  apply match_lazy_inv in H as (code & caps2 & s5 & -> & -> & _ & H).
  rewrite <- (app_nil_r (Re.lits _)) in H.
  apply match_lits_inv in H as (s6 & -> & H).
  simpl in H. injection H as <- <-.
  exists ws, name, code. split; [done|]. split.
  - unfold block_text. rewrite !append_assoc. reflexivity.
  - exists ws, name, code. done.
Qed.

Lemma scan_sound (p : list Re.item) (skip : nat) (s : string) caps :
  In caps (Re.scan p skip s) ->
  exists pre s' rest, s = pre +:+ s' /\ Re.match_items p s' = Some (caps, rest).
Proof.
  revert skip. induction s as [|a s IH]; intros skip.
  - destruct skip as [|skip]; simpl; [|done].
    destruct (Re.match_items p EmptyString) as [[caps' rest]|] eqn:Hm; [|done].
    intros [<-|[]]. by exists EmptyString, EmptyString, rest.
  - assert (Hrec : forall n, In caps (Re.scan p n s) ->
        exists pre s' rest, String a s = pre +:+ s' /\
                            Re.match_items p s' = Some (caps, rest)).
    { intros n Hin. destruct (IH _ Hin) as (pre & s' & rest & -> & Hm).
      by exists (String a pre), s', rest. }
    destruct skip as [|skip]; simpl; [|apply Hrec].
    destruct (Re.match_items p (String a s)) as [[caps' rest]|] eqn:Hm.
    + intros [<-|Hin]; [|by eapply Hrec].
      by exists EmptyString, (String a s), rest.
    + apply Hrec.
Qed.

Lemma findall_block_sound (s : string) caps :
  In caps (Re.findall code_block_pattern s) ->
  (exists name code, caps = [name; code]) /\ contains_block s.
Proof.
  intros Hin. apply scan_sound in Hin as (pre & s' & rest & -> & Hm).
  apply match_block_sound in Hm as (ws & name & code & -> & -> & Hb).
  split; [by exists name, code|].
  exists pre, (block_text ws name code), rest. done.
Qed.

Section MatcherComplete.
Context {R : Type} (c : Re.cls) (k : string -> option R).

(** A run of accepted characters that stops before a character that is
    not accepted is taken whole. *)
Lemma plus_greedy_complete (g : string) (b : ascii) (s : string) (r : R) :
  g <> EmptyString ->
  string_forall (Re.accepts c) g = true ->
  Re.accepts c b = false ->
  k (String b s) = Some r ->
  Re.plus_greedy c k (g +:+ String b s) = Some (g, r).
Proof.
  intros Hne Hall Hb Hk. induction g as [|a g IH]; [done|].
  rewrite string_forall_cons in Hall. apply andb_true_iff in Hall as [Ha Hall].
  rewrite append_cons. simpl. rewrite Ha.
  destruct g as [|a' g].
  - rewrite append_empty_l. simpl. by rewrite Hb, Hk.
  - by rewrite IH.
Qed.

Lemma star_lazy_complete (g s : string) (r : R) :
  string_forall (Re.accepts c) g = true ->
  k s = Some r ->
  is_Some (Re.star_lazy c k (g +:+ s)).
Proof.
  intros Hall Hk. induction g as [|a g IH].
  - rewrite append_empty_l. destruct s; simpl; by rewrite Hk.
  - rewrite string_forall_cons in Hall. apply andb_true_iff in Hall as [Ha Hall].
    rewrite append_cons. simpl.
    destruct (k (String a (g +:+ s))); [done|].
    rewrite Ha. destruct (IH Hall) as [[g' r'] ->]. done.
Qed.
End MatcherComplete.

Lemma match_lits_append (l : string) (p : list Re.item) (s : string) :
  Re.match_items (Re.lits l ++ p) (l +:+ s) = Re.match_items p s.
Proof.
  induction l as [|b l IH]; [done|].
  rewrite append_cons. simpl. by rewrite Ascii.eqb_refl.
Qed.

Lemma string_forall_any (s : string) : string_forall (Re.accepts Re.AnyChar) s = true.
Proof. induction s as [|a s IH]; [done|]. by rewrite string_forall_cons, IH. Qed.

Lemma block_text_append (ws : ascii) (name code post : string) :
  block_text ws name code +:+ post
  = String "#" (String ws (name +:+ fence_open +:+ code +:+ fence_close +:+ post)).
Proof. unfold block_text. rewrite !append_assoc. reflexivity. Qed.

(** The pattern matches where a block of the grammar starts. *)
Lemma match_block_complete (b post : string) :
  is_block b -> is_Some (Re.match_items code_block_pattern (b +:+ post)).
Proof.
  intros (ws & name & code & -> & Hws & Hne & Hname).
  rewrite block_text_append. unfold code_block_pattern.
  set (p2 := Re.CapLazyStar Re.AnyChar :: Re.lits fence_close).
  set (p1 := Re.lits fence_open ++ p2).
  set (body := code +:+ fence_close +:+ post).
  assert (Hk : is_Some (Re.match_items p1 (fence_open +:+ body))).
  { unfold p1. rewrite match_lits_append. unfold p2, body. cbn [Re.match_items].
    destruct (star_lazy_complete Re.AnyChar
                (Re.match_items (Re.lits fence_close))
                code (fence_close +:+ post) ([], post)) as [[g [caps rest]] ->].
    - apply string_forall_any.
    - rewrite <- (app_nil_r (Re.lits _)). by rewrite match_lits_append.
    - done. }
  destruct Hk as [[caps rest] Hk].
  cbn [Re.match_items Re.accepts]. rewrite Ascii.eqb_refl, Hws.
  change (fence_open +:+ body)
    with (String Py.LF (("```python" +:+ Py.nl) +:+ body)) in Hk |- *.
  by rewrite (plus_greedy_complete Re.NonSpace _ name Py.LF _ (caps, rest)).
Qed.

Lemma scan_complete (p : list Re.item) (pre s : string) :
  is_Some (Re.match_items p s) -> Re.scan p 0 (pre +:+ s) <> [].
Proof.
  intros [[caps rest] Hm]. induction pre as [|a pre IH].
  - rewrite append_empty_l. destruct s; simpl; by rewrite Hm.
  - rewrite append_cons. simpl.
    destruct (Re.match_items p (String a (pre +:+ s))) as [[caps' rest']|]; done.
Qed.

(** The reply has a block of the grammar exactly when the pattern is found
    in it. *)
Lemma findall_block_iff (s : string) :
  contains_block s <-> Re.findall code_block_pattern s <> [].
Proof.
  split.
  - intros (pre & b & post & Hb & ->). apply scan_complete.
    by apply match_block_complete.
  - intros Hne. destruct (Re.findall code_block_pattern s) as [|caps l] eqn:Hf; [done|].
    eapply (findall_block_sound s caps). rewrite Hf. by left.
Qed.

(** ** Dictionaries *)

Section DictFacts.
Context {V : Type}.
Implicit Types (d : Dict.dict V) (k : string) (v : V).

Lemma dict_get_set_eq d k v : Dict.get k (Dict.set k v d) = Some v.
Proof.
  induction d as [|[k' v'] d IH]; simpl.
  - by rewrite String.eqb_refl.
  - destruct (String.eqb k' k) eqn:E; simpl; by rewrite E.
Qed.

Lemma dict_get_set_ne d k k' v :
  k <> k' -> Dict.get k' (Dict.set k v d) = Dict.get k' d.
Proof.
  intros Hne. induction d as [|[k0 v0] d IH]; simpl.
  - destruct (String.eqb k k') eqn:E; [|done].
    by apply String.eqb_eq in E.
  - destruct (String.eqb k0 k) eqn:E; simpl; [|by rewrite IH].
    apply String.eqb_eq in E as ->.
    by apply String.eqb_neq in Hne as ->.
Qed.

Lemma dict_keys_set d k v :
  Dict.keys (Dict.set k v d)
  = if Dict.mem k d then Dict.keys d else Dict.keys d ++ [k].
Proof.
  unfold Dict.keys, Dict.mem. induction d as [|[k0 v0] d IH]; simpl; [done|].
  destruct (String.eqb k0 k) eqn:E; simpl; [done|].
  rewrite IH. by destruct (Dict.get k d).
Qed.

Lemma dict_get_None_keys d k : Dict.get k d = None -> ~ In k (Dict.keys d).
Proof.
  unfold Dict.keys. induction d as [|[k0 v0] d IH]; simpl; [tauto|].
  destruct (String.eqb k0 k) eqn:E; [done|].
  apply String.eqb_neq in E. intros H [?|?]; [done|by apply IH].
Qed.

Lemma dict_set_NoDup d k v :
  NoDup (Dict.keys d) -> NoDup (Dict.keys (Dict.set k v d)).
Proof.
  intros Hd. rewrite dict_keys_set. unfold Dict.mem.
  destruct (Dict.get k d) eqn:E; [done|].
  apply NoDup_app. split; [done|]. split; [|apply NoDup_singleton].
  intros x Hx ->%list_elem_of_singleton.
  by apply (dict_get_None_keys d k); [|apply list_elem_of_In].
Qed.

Lemma dict_get_In d k v :
  NoDup (Dict.keys d) -> In (k, v) d -> Dict.get k d = Some v.
Proof.
  unfold Dict.keys. induction d as [|[k0 v0] d IH]; simpl; [tauto|].
  intros Hd [[= -> ->]|Hin].
  - by rewrite String.eqb_refl.
  - apply NoDup_cons in Hd as [Hk0 Hd].
    destruct (String.eqb k0 k) eqn:E; [|by apply IH].
    apply String.eqb_eq in E as ->. exfalso. apply Hk0.
    apply list_elem_of_In. apply (in_map fst) in Hin. done.
Qed.

Lemma dict_get_Some_In d k v : Dict.get k d = Some v -> In (k, v) d.
Proof.
  induction d as [|[k0 v0] d IH]; simpl; [done|].
  destruct (String.eqb k0 k) eqn:E; [|by right; apply IH].
  apply String.eqb_eq in E as ->. intros [= ->]. by left.
Qed.
End DictFacts.

(** ** The response parser *)

Lemma dict_of_matches_fold (matches : list (list string)) :
  dict_of_matches matches = fold_left add_match matches [].
Proof. reflexivity. Qed.

Lemma fold_matches_other (f : string) (ms : list (list string)) (d : Dict.dict string) :
  (forall c, ~ In [f; c] ms) ->
  Dict.get f (fold_left add_match ms d) = Dict.get f d.
Proof.
  revert d. induction ms as [|m ms IH]; intros d Hf; [done|].
  simpl. rewrite IH by (intros c Hc; apply (Hf c); by right).
  destruct m as [|f' [|c' [|? ?]]]; simpl; try done.
  apply dict_get_set_ne. intros ->. apply (Hf c'). by left.
Qed.

Lemma fold_matches_NoDup (ms : list (list string)) (d : Dict.dict string) :
  NoDup (Dict.keys d) -> NoDup (Dict.keys (fold_left add_match ms d)).
Proof.
  revert d. induction ms as [|m ms IH]; intros d Hd; [done|].
  simpl. apply IH. destruct m as [|f' [|c' [|? ?]]]; simpl; try done.
  by apply dict_set_NoDup.
Qed.

(** The parser never names a file twice. *)
Lemma extract_keys_NoDup (llm_response : string) :
  NoDup (Dict.keys (_extract_code_from_llm_response llm_response)).
Proof. apply fold_matches_NoDup, NoDup_nil_2. Qed.

(** C7. When the reply has several blocks for one file, the mapping gives
    that file the (stripped) content of the last of them. *)
Theorem last_block_wins (llm_response filename code : string)
    (earlier later : list (list string)) :
  Re.findall code_block_pattern llm_response
  = earlier ++ [filename; code] :: later ->
  (forall c, ~ In [filename; c] later) ->
  Dict.get filename (_extract_code_from_llm_response llm_response)
  = Some (Py.strip code).
Proof.
  intros Hf Hlast. unfold _extract_code_from_llm_response.
  rewrite Hf, dict_of_matches_fold, fold_left_app. simpl.
  rewrite fold_matches_other by done. apply dict_get_set_eq.
Qed.

Lemma last_block_wins_witness :
  Dict.get "a.py" (_extract_code_from_llm_response Scenario.reply_twice)
  = Some "x = 2".
Proof.
  apply (last_block_wins Scenario.reply_twice "a.py" "x = 2"
           [["a.py"; "x = 1" +:+ Py.nl +:+ "  "]] []).
  - vm_compute. reflexivity.
  - intros c [].
Defined.

(** ** The change applier *)

Section ChangeSummary.
Context (env : Env) (code_before_change : Dict.dict string).

Lemma summary_fold_from (l : Dict.dict string) (acc : string) :
  fold_left
    (fun (change_summary : string) '(filename, new_code) =>
       change_summary
       +:+ CodeDebugger.summary_entry env code_before_change filename new_code)
    l acc
  = acc +:+ CodeDebugger.make_change_summary env l code_before_change.
Proof.
  unfold CodeDebugger.make_change_summary.
  revert acc. induction l as [|[k c] l IH]; intros acc; simpl.
  - by rewrite append_empty_r.
  - rewrite IH, (IH (_ +:+ _)), append_empty_l. by rewrite append_assoc.
Qed.

Lemma summary_cons (k c : string) (l : Dict.dict string) :
  CodeDebugger.make_change_summary env ((k, c) :: l) code_before_change
  = CodeDebugger.summary_entry env code_before_change k c
    +:+ CodeDebugger.make_change_summary env l code_before_change.
Proof.
  unfold CodeDebugger.make_change_summary at 1. simpl.
  by rewrite summary_fold_from, append_empty_l.
Qed.

Lemma summary_without (filename : string) (l : Dict.dict string) :
  (forall c, In (filename, c) l ->
     CodeDebugger.summary_entry env code_before_change filename c = EmptyString) ->
  CodeDebugger.make_change_summary env l code_before_change
  = CodeDebugger.make_change_summary env
      (List.filter (fun kv => negb (String.eqb (fst kv) filename)) l)
      code_before_change.
Proof.
  induction l as [|[k c] l IH]; intros Hnone; [done|].
  rewrite summary_cons. simpl.
  rewrite IH by (intros c' Hc'; apply Hnone; by right).
  destruct (String.eqb k filename) eqn:E; simpl.
  - apply String.eqb_eq in E as ->. rewrite Hnone by (by left). done.
  - by rewrite summary_cons.
Qed.

Lemma summary_all_noop (l : Dict.dict string) :
  (forall k c, In (k, c) l ->
     CodeDebugger.summary_entry env code_before_change k c = EmptyString) ->
  CodeDebugger.make_change_summary env l code_before_change = EmptyString.
Proof.
  induction l as [|[k c] l IH]; intros Hnone; [done|].
  rewrite summary_cons, IH by (intros k' c' Hc'; apply Hnone; by right).
  rewrite (Hnone k c) by (by left). done.
Qed.

Lemma summary_entry_noop (filename new_code old_code : string) :
  Dict.get filename code_before_change = Some old_code ->
  Py.strip old_code = Py.strip new_code ->
  CodeDebugger.summary_entry env code_before_change filename new_code
  = EmptyString.
Proof.
  intros Hold Heq. unfold CodeDebugger.summary_entry.
  by rewrite Hold, Heq, String.eqb_refl.
Qed.
End ChangeSummary.

(** C8. A file of the change set whose content before the change equals
    the proposed content once both are stripped adds nothing to the change
    summary: its entry is empty, and the summary is the one of the change
    set without that file. *)
Theorem noop_edit_not_reported (env : Env)
    (code_changes code_before_change : Dict.dict string)
    (filename new_code old_code : string) :
  NoDup (Dict.keys code_changes) ->
  Dict.get filename code_changes = Some new_code ->
  Dict.get filename code_before_change = Some old_code ->
  Py.strip old_code = Py.strip new_code ->
  CodeDebugger.summary_entry env code_before_change filename new_code
  = EmptyString /\
  CodeDebugger.make_change_summary env code_changes code_before_change
  = CodeDebugger.make_change_summary env
      (List.filter (fun kv => negb (String.eqb (fst kv) filename)) code_changes)
      code_before_change.
Proof.
  intros Hnd Hnew Hold Heq.
  split; [by eapply summary_entry_noop|].
  apply summary_without. intros c Hc.
  apply (dict_get_In _ _ _ Hnd) in Hc. rewrite Hnew in Hc. injection Hc as <-.
  by eapply summary_entry_noop.
Qed.

Lemma noop_edit_not_reported_witness :
  CodeDebugger.summary_entry Scenario.env_fix Scenario.before_noop "a.py" "boom()"
  = EmptyString /\
  CodeDebugger.make_change_summary Scenario.env_fix
    Scenario.changes_noop Scenario.before_noop
  = CodeDebugger.make_change_summary Scenario.env_fix
      (List.filter (fun kv => negb (String.eqb (fst kv) "a.py")) Scenario.changes_noop)
      Scenario.before_noop.
Proof.
  apply (noop_edit_not_reported Scenario.env_fix Scenario.changes_noop
           Scenario.before_noop "a.py" "boom()" ("  boom()" +:+ Py.nl)).
  - apply NoDup_singleton.
  - reflexivity.
  - reflexivity.
  - vm_compute. reflexivity.
Defined.

(** ** Computations *)

Lemma bind_run {A B} (m : M A) (f : A -> M B) (st : State) :
  bind m f st
  = match m st with
    | (Ok a, st') => f a st'
    | (Raised e, st') => (Raised e, st')
    | (OutOfFuel, st') => (OutOfFuel, st')
    end.
Proof. reflexivity. Qed.

Lemma bind_ok {A B} (m : M A) (f : A -> M B) (st st' : State) (a : A) :
  m st = (Ok a, st') -> bind m f st = f a st'.
Proof. intros H. by rewrite bind_run, H. Qed.

(** How a sequence ends: the first part ends well and the second part
    decides, or the first part ends badly. *)
Lemma bind_inv {A B} (m : M A) (f : A -> M B) (st st' : State) (o : Outcome B) :
  bind m f st = (o, st') ->
  (exists a st1, m st = (Ok a, st1) /\ f a st1 = (o, st')) \/
  (exists e, m st = (Raised e, st') /\ o = Raised e) \/
  (m st = (OutOfFuel, st') /\ o = OutOfFuel).
Proof.
  rewrite bind_run. destruct (m st) as [[a|e|] st1]; intros H.
  - left. by exists a, st1.
  - right. left. injection H as <- <-. by exists e.
  - right. right. by injection H as <- <-.
Qed.

Lemma bind_inv_ok {A B} (m : M A) (f : A -> M B) (st st' : State) (b : B) :
  bind m f st = (Ok b, st') ->
  exists a st1, m st = (Ok a, st1) /\ f a st1 = (Ok b, st').
Proof.
  intros H. apply bind_inv in H as [H|[(e & _ & H)|[_ H]]]; done.
Qed.

Section Keeps.
Context (R : State -> State -> Prop) `{!PreOrder R}.

Lemma keeps_ret {A} (a : A) : keeps R (ret a).
Proof. intros st. simpl. split; [reflexivity|done]. Qed.

Lemma keeps_raise {A} (e : Exn) : keeps R (@raise A e).
Proof. intros st. simpl. split; [reflexivity|done]. Qed.

Lemma keeps_get : keeps R get_state.
Proof. intros st. simpl. split; [reflexivity|done]. Qed.

Lemma keeps_bind {A B} (m : M A) (f : A -> M B) :
  keeps R m -> (forall a, keeps R (f a)) -> keeps R (bind m f).
Proof.
  intros Hm Hf st. rewrite bind_run. destruct (Hm st) as [HR Hfuel].
  destruct (m st) as [[a|e|] st1]; simpl in *; [|done|done].
  destruct (Hf a st1) as [HR' Hfuel']. split; [|done].
  etrans; [exact HR|exact HR'].
Qed.

Lemma keeps_for_fold {A B} (l : list A) (acc : B) (body : B -> A -> M B) :
  (forall acc x, keeps R (body acc x)) -> keeps R (for_fold l acc body).
Proof.
  intros Hbody. revert acc. induction l as [|x l IH]; intros acc; simpl.
  - apply keeps_ret.
  - apply keeps_bind; [apply Hbody|]. intros acc'. apply IH.
Qed.

Lemma keeps_modify (f : State -> State) :
  (forall st, R st (f st)) -> keeps R (modify f).
Proof. intros Hf st. split; [apply Hf|done]. Qed.
End Keeps.

Lemma keeps_weaken {A} (R R' : State -> State -> Prop) (m : M A) :
  (forall st st', R st st' -> R' st st') -> keeps R m -> keeps R' m.
Proof. intros HR Hm st. destruct (Hm st). split; [by apply HR|done]. Qed.

(** From [keeps] to a fact about a given run. *)
Lemma keeps_run {A} (R : State -> State -> Prop) (m : M A) (st st' : State) o :
  keeps R m -> m st = (o, st') -> R st st' /\ o <> OutOfFuel.
Proof. intros Hm Hrun. specialize (Hm st). by rewrite Hrun in Hm. Qed.

#[local] Instance steady_preorder : PreOrder steady.
Proof.
  split.
  - intros st. split; try done. exists []. by rewrite app_nil_r.
  - intros st1 st2 st3 [? ? ? ? ? [l1 Hl1]] [? ? ? ? ? [l2 Hl2]].
    split; try congruence. exists (l1 ++ l2). rewrite Hl2, Hl1. by rewrite app_assoc.
Qed.

Lemma markers_app (l l' : list Event) : markers (l ++ l') = markers l ++ markers l'.
Proof. apply List.filter_app. Qed.

Lemma steady_tick : keeps steady tick.
Proof.
  intros st. split; [|done]. split; try done. exists []. simpl. by rewrite app_nil_r.
Qed.

Lemma steady_emit (e : Event) : is_marker e = false -> keeps steady (emit e).
Proof.
  intros He st. split; [|done]. split; try done; simpl.
  - by rewrite markers_app; simpl; rewrite He, app_nil_r.
  - by exists [e].
Qed.

(** One step of a proof that a computation only reads. *)
Ltac steady_step :=
  first
    [ apply keeps_ret; apply _
    | apply keeps_raise; apply _
    | apply keeps_get; apply _
    | apply steady_tick
    | apply steady_emit; reflexivity
    | apply keeps_bind; [apply _ | | intros ?]
    | apply keeps_for_fold; [apply _ | intros ? ?]
    | match goal with
      | |- keeps _ (match ?x with _ => _ end) => destruct x
      end ].

Section ReadOnly.
Context (env : Env) (self : Config).

Lemma steady_read_text (path : string) :
  keeps steady (CodeDebugger.read_text env path).
Proof. unfold CodeDebugger.read_text. repeat steady_step. Qed.

Lemma steady_call_model (content system_prompt : string) :
  keeps steady (CodeDebugger.call_model env content system_prompt).
Proof. unfold CodeDebugger.call_model. repeat steady_step. Qed.

Lemma steady_internet_search (search_query : string) :
  keeps steady (CodeDebugger.internet_search env search_query).
Proof. unfold CodeDebugger.internet_search. repeat steady_step. Qed.

Lemma steady_fetch_internet_content (search_query : string) (num_urls : Z) :
  keeps steady (CodeDebugger._fetch_internet_content env self search_query num_urls).
Proof.
  unfold CodeDebugger._fetch_internet_content.
  repeat first [apply steady_internet_search | steady_step].
Qed.

Lemma steady_read_before_change (code_changes : Dict.dict string) :
  keeps steady (CodeDebugger.read_before_change env self code_changes).
Proof.
  unfold CodeDebugger.read_before_change.
  repeat first [apply steady_read_text | steady_step].
Qed.

End ReadOnly.

(** ** The phases of an attempt *)

Lemma steady_follows (st st' : State) : steady st st' -> follows [] st st'.
Proof.
  intros [Ha Hc Hl Hd Hm [l Hlog]]. split; try done. exists l. split; [done|].
  rewrite Hlog, markers_app in Hm.
  rewrite <- (app_nil_r (markers (log st))) in Hm at 2.
  by apply app_inv_head in Hm.
Qed.

Lemma follows_trans (ms1 ms2 : list Event) (st1 st2 st3 : State) :
  follows ms1 st1 st2 -> follows ms2 st2 st3 -> follows (ms1 ++ ms2) st1 st3.
Proof.
  intros [? ? ? (l1 & Hl1 & Hm1)] [? ? ? (l2 & Hl2 & Hm2)].
  split; try congruence. exists (l1 ++ l2).
  rewrite Hl2, Hl1, markers_app, Hm1, Hm2. by rewrite app_assoc.
Qed.

Lemma follows_refl (st : State) : follows [] st st.
Proof. split; try done. exists []. by rewrite app_nil_r. Qed.

#[local] Instance follows_nil_preorder : PreOrder (follows []).
Proof.
  split; [exact follows_refl|].
  intros st1 st2 st3 H1 H2. exact (follows_trans [] [] _ _ _ H1 H2).
Qed.

Lemma follows_emit (e : Event) (st : State) :
  follows (markers [e]) st (add_event e st).
Proof. split; try done. by exists [e]. Qed.

(** *** The computations that run the files

    A run may change the directory; the counters and the markers of the
    log are what they were. *)

Lemma quiet_steady {A} (m : M A) : keeps steady m -> keeps (follows []) m.
Proof. apply keeps_weaken, steady_follows. Qed.

Lemma quiet_set_disk (d : gmap string string) :
  keeps (follows []) (modify (set_disk d)).
Proof.
  apply keeps_modify. intros st. split; try done.
  exists []. simpl. by rewrite app_nil_r.
Qed.

(** One step of a proof that a computation leaves the counters and the
    markers alone. *)
Ltac quiet_step :=
  first
    [ apply keeps_ret; apply _
    | apply keeps_raise; apply _
    | apply keeps_get; apply _
    | apply quiet_steady, steady_tick
    | apply quiet_steady, steady_emit; reflexivity
    | apply quiet_set_disk
    | apply keeps_bind; [apply _ | | intros ?]
    | apply keeps_for_fold; [apply _ | intros ? ?]
    | match goal with
      | |- keeps _ (match ?x with _ => _ end) => destruct x
      end ].

Section Quiet.
Context (env : Env) (self : Config).

Lemma quiet_run_subprocess (code_filename : string) :
  keeps (follows [])
    (CodeDebugger._run_subprocess_and_capture_output env self code_filename).
Proof.
  unfold CodeDebugger._run_subprocess_and_capture_output. cbv zeta.
  repeat quiet_step.
Qed.

Lemma quiet_construct_prompt (internet_content : string) :
  keeps (follows [])
    (CodeDebugger._construct_prompt_for_llm env self internet_content).
Proof.
  unfold CodeDebugger._construct_prompt_for_llm.
  repeat first
    [ apply quiet_steady, steady_read_text
    | apply quiet_run_subprocess
    | quiet_step ].
Qed.

Lemma quiet_check_files (files : list string) :
  keeps (follows []) (CodeDebugger.check_files env self files).
Proof.
  induction files as [|f files IH]; simpl.
  - repeat quiet_step.
  - repeat first [apply quiet_run_subprocess | apply IH | quiet_step].
Qed.

Lemma quiet_current_error_signature :
  keeps (follows []) (CodeDebugger.current_error_signature env self).
Proof.
  unfold CodeDebugger.current_error_signature.
  repeat first [apply quiet_run_subprocess | quiet_step].
Qed.

Lemma quiet_generate_search_query :
  keeps (follows []) (CodeDebugger._generate_search_query_for_google env self).
Proof.
  unfold CodeDebugger._generate_search_query_for_google.
  repeat first
    [ apply quiet_construct_prompt
    | apply quiet_steady, steady_call_model
    | quiet_step ].
Qed.

End Quiet.

Section Phases.
Context (env : Env) (self : Config).

Lemma run_subprocess_run (code_filename : string) (st : State) :
  CodeDebugger._run_subprocess_and_capture_output env self code_filename st
  = (if run_raises env self (clock st) (disk st) code_filename
     then Raised (RunError (Py.path_join (code_dir self) code_filename))
     else Ok (run_output env self (clock st) (disk st) code_filename),
     after_run env self code_filename st).
Proof.
  unfold CodeDebugger._run_subprocess_and_capture_output, run_output, run_raises,
    after_run, run_disk.
  unfold bind, tick, get_state, modify. simpl.
  destruct (python_raises env _ _ _); [done|].
  by destruct (returncode _ =? 0).
Qed.

(** The signature is the concatenation of the failure texts of the run,
    in the order of the files, unless a call raises. *)
Lemma signature_fold_run (files : list string) (acc : string) (st : State) :
  for_fold files acc
    (fun signature code_filename =>
       error_message <-
         CodeDebugger._run_subprocess_and_capture_output env self code_filename ;;
       if Py.str_in "Traceback" error_message
       then ret (signature +:+ error_message) else ret signature) st
  = (match run_error env self (clock st) (disk st) files with
     | None =>
         Ok (acc +:+ Py.join (List.filter shows_failure
                                (outputs_from env self (clock st) (disk st) files)))
     | Some e => Raised e
     end,
     after_runs env self files st).
Proof.
  revert acc st. induction files as [|f files IH]; intros acc st; simpl.
  - by rewrite append_empty_r.
  - rewrite bind_run, bind_run, run_subprocess_run.
    destruct (run_raises env self (clock st) (disk st) f); [done|].
    fold (shows_failure (run_output env self (clock st) (disk st) f)).
    destruct (shows_failure _) eqn:E; simpl.
    + rewrite (IH (acc +:+ run_output env self (clock st) (disk st) f)
                 (after_run env self f st)).
      simpl. destruct (run_error _ _ _ _ _); [done|]. by rewrite append_assoc.
    + by rewrite (IH acc (after_run env self f st)).
Qed.

Lemma current_error_signature_run (st : State) :
  CodeDebugger.current_error_signature env self st
  = (match run_error env self (clock st) (disk st) (files_to_debug self) with
     | None => Ok (Py.join (failure_texts env self (clock st) (disk st)))
     | Some e => Raised e
     end,
     after_runs env self (files_to_debug self) st)
  /\ follows [] st (after_runs env self (files_to_debug self) st).
Proof.
  pose proof (signature_fold_run (files_to_debug self) EmptyString st) as H.
  split; [exact H|].
  eapply keeps_run; [apply quiet_current_error_signature|exact H].
Qed.

Lemma check_files_run (files : list string) (st : State) :
  CodeDebugger.check_files env self files st
  = (check_outcome env self (clock st) (disk st) files,
     after_check env self files st).
Proof.
  revert st. induction files as [|f files IH]; intros st; simpl; [done|].
  rewrite bind_run, run_subprocess_run.
  destruct (run_raises env self (clock st) (disk st) f); [done|].
  fold (shows_failure (run_output env self (clock st) (disk st) f)).
  destruct (shows_failure _); simpl; [done|].
  apply (IH (after_run env self f st)).
Qed.

(** What the check returns is whether some output shows a failure. *)
Lemma check_outcome_ok (t : nat) (d : gmap string string) (files : list string)
    (error_exists : bool) :
  check_outcome env self t d files = Ok error_exists ->
  error_exists = existsb shows_failure (outputs_from env self t d files).
Proof.
  revert t d. induction files as [|f files IH]; intros t d; simpl.
  - by intros [= <-].
  - destruct (run_raises env self t d f); [done|].
    destruct (shows_failure _); [by intros [= <-]|]. apply IH.
Qed.

Lemma check_outcome_fuel (t : nat) (d : gmap string string) (files : list string) :
  check_outcome env self t d files <> OutOfFuel.
Proof.
  revert t d. induction files as [|f files IH]; intros t d; simpl; [done|].
  destruct (run_raises env self t d f); [done|].
  destruct (shows_failure _); [done|]. apply IH.
Qed.

Lemma check_for_errors_run (st : State) :
  CodeDebugger._check_for_errors env self st
  = (check_outcome env self (clock st) (disk st) (files_to_debug self),
     after_check env self (files_to_debug self) st)
  /\ follows [] st (after_check env self (files_to_debug self) st).
Proof.
  pose proof (check_files_run (files_to_debug self) st) as H.
  split; [exact H|].
  eapply keeps_run; [apply quiet_check_files|exact H].
Qed.

Lemma track_signature_run (signature : string) (st : State) :
  exists st',
    CodeDebugger.track_signature signature st = (Ok tt, st') /\
    attempt_count st' = attempt_count st /\
    constant_error_count st' = tracked_count st signature /\
    last_error_signature st' = tracked_last st signature /\
    disk st' = disk st /\ log st' = log st /\ clock st' = clock st.
Proof.
  unfold CodeDebugger.track_signature, tracked_count, tracked_last.
  rewrite bind_run. simpl.
  destruct (String.eqb signature (last_error_signature st)
            && negb (Py.is_empty signature)); by eexists.
Qed.

(** The check after the changes: when it returns, its result is whether
    some output shows a failure, and the marker of the result is
    logged. *)
Lemma recheck_run (st st' : State) (o : Outcome bool) :
  CodeDebugger.recheck env self st = (o, st') ->
  o <> OutOfFuel /\
  follows (match o with Ok error_exists => [end_marker error_exists]
                      | _ => [] end) st st' /\
  (forall error_exists, o = Ok error_exists ->
     error_exists = failures_remain env self (clock st) (disk st)).
Proof.
  destruct (check_for_errors_run st) as (Hrun & Hst).
  unfold CodeDebugger.recheck. rewrite bind_run, Hrun.
  pose proof (check_outcome_ok (clock st) (disk st) (files_to_debug self)) as Hok.
  pose proof (check_outcome_fuel (clock st) (disk st) (files_to_debug self))
    as Hfuel.
  destruct (check_outcome env self (clock st) (disk st) (files_to_debug self))
    as [ee|e|]; [| |done].
  - set (st1 := after_check env self (files_to_debug self) st) in *.
    specialize (Hok ee eq_refl). destruct ee; simpl.
    + intros [= <- <-]. split; [done|]. split; [|by intros ? [= <-]].
      apply (follows_trans [] [LogErrorStillExists] _ _ _ Hst).
      apply (follows_trans [LogErrorStillExists] []
               _ (add_event LogErrorStillExists st1)).
      * exact (follows_emit LogErrorStillExists st1).
      * exact (follows_emit (Sleep 2) _).
    + intros [= <- <-]. split; [done|]. split; [|by intros ? [= <-]].
      apply (follows_trans [] [LogAllFixed] _ _ _ Hst).
      exact (follows_emit LogAllFixed st1).
  - intros [= <- <-]. split; [done|]. split; [exact Hst|done].
Qed.

End Phases.

#[local] Instance drifts_preorder : PreOrder drifts.
Proof.
  split.
  - intros st. split; try done; [by left|]. exists []. by rewrite app_nil_r.
  - intros st1 st2 st3 [Ha1 Hc1 Hl1 (l1 & Hg1 & Hm1)] [Ha2 Hc2 Hl2 (l2 & Hg2 & Hm2)].
    split; try congruence.
    + destruct Hc2 as [-> | ->]; [done|by right].
    + exists (l1 ++ l2). rewrite Hg2, Hg1, markers_app, Hm1, Hm2.
      by rewrite app_assoc.
Qed.

Lemma follows_drifts (st st' : State) : follows [] st st' -> drifts st st'.
Proof. intros [? ? ? ?]. split; try done. by left. Qed.

Lemma keeps_steady_follows {A} (m : M A) : keeps steady m -> keeps (follows []) m.
Proof. apply keeps_weaken, steady_follows. Qed.

Lemma keeps_steady_drifts {A} (m : M A) : keeps steady m -> keeps drifts m.
Proof.
  apply keeps_weaken. intros st st' H. by apply follows_drifts, steady_follows.
Qed.

Lemma follows_emit_quiet (e : Event) :
  is_marker e = false -> keeps (follows []) (emit e).
Proof. intros He. by apply keeps_steady_follows, steady_emit. Qed.


Lemma logged_refl (st : State) : logged [] st st.
Proof. exists []. by rewrite app_nil_r. Qed.

Lemma logged_trans (ms1 ms2 : list Event) (st1 st2 st3 : State) :
  logged ms1 st1 st2 -> logged ms2 st2 st3 -> logged (ms1 ++ ms2) st1 st3.
Proof.
  intros (l1 & Hl1 & Hm1) (l2 & Hl2 & Hm2). exists (l1 ++ l2).
  rewrite Hl2, Hl1, markers_app, Hm1, Hm2. by rewrite app_assoc.
Qed.

Lemma logged_emit (e : Event) (st : State) :
  logged (markers [e]) st (add_event e st).
Proof. by exists [e]. Qed.

Section Attempt.
Context (env : Env) (self : Config).

Lemma follows_write_text (path code : string) :
  keeps (follows []) (CodeDebugger.write_text env path code).
Proof.
  unfold CodeDebugger.write_text.
  apply keeps_bind; [apply _| |intros t].
  { apply keeps_steady_follows, steady_tick. }
  apply keeps_bind; [apply _| |intros st0].
  { apply keeps_get, _. }
  destruct (can_write env t (disk st0) path).
  - apply keeps_modify. intros st. split; try done. exists []. simpl.
    by rewrite app_nil_r.
  - apply keeps_raise, _.
Qed.

Lemma follows_update_code_files (code_changes : Dict.dict string) :
  keeps (follows []) (CodeDebugger._update_code_files env self code_changes).
Proof.
  unfold CodeDebugger._update_code_files.
  apply keeps_for_fold; [apply _|]. intros ? [filename code].
  apply follows_write_text.
Qed.

Lemma follows_apply_response (llm_response : string) :
  keeps (follows []) (CodeDebugger.apply_response env self llm_response).
Proof.
  unfold CodeDebugger.apply_response.
  apply keeps_bind; [apply _| |intros code_before_change].
  { apply keeps_steady_follows, steady_read_before_change. }
  apply keeps_bind; [apply _| |intros _].
  { apply follows_update_code_files. }
  destruct (negb _); by apply follows_emit_quiet.
Qed.

(** The prompt: when the internet is asked, its marker is logged first,
    and the counter is reset once the prompt is complete. *)
Lemma build_prompt_run (st st' : State) (o : Outcome string) :
  CodeDebugger.build_prompt env self st = (o, st') ->
  o <> OutOfFuel /\
  attempt_count st' = attempt_count st /\
  last_error_signature st' = last_error_signature st /\
  logged (escalation_markers self (CodeDebugger.escalates self st)) st st' /\
  (forall prompt, o = Ok prompt ->
     constant_error_count st'
     = if CodeDebugger.escalates self st then 0 else constant_error_count st).
Proof.
  unfold CodeDebugger.build_prompt. rewrite bind_run. simpl.
  destruct (CodeDebugger.escalates self st) eqn:Hesc.
  - set (rest :=
      search_query <- CodeDebugger._generate_search_query_for_google env self ;;
      emit (LogQuery search_query) ;;;
      internet_content <-
        CodeDebugger._fetch_internet_content env self search_query
          (num_search_urls self) ;;
      full_prompt_with_error <-
        CodeDebugger._construct_prompt_for_llm env self internet_content ;;
      modify (set_constant_error_count 0) ;;;
      ret full_prompt_with_error).
    rewrite bind_run. simpl. fold rest.
    set (st1 := add_event (LogSameError (internet_search_threshold self)) st).
    intros Hrun.
    assert (Hkeeps : keeps drifts rest).
    { unfold rest.
      apply keeps_bind; [apply _| |intros q].
      { apply (keeps_weaken (follows [])); [apply follows_drifts|].
        apply quiet_generate_search_query. }
      apply keeps_bind; [apply _| |intros _].
      { by apply keeps_steady_drifts, steady_emit. }
      apply keeps_bind; [apply _| |intros content].
      { apply keeps_steady_drifts, steady_fetch_internet_content. }
      apply keeps_bind; [apply _| |intros full].
      { apply (keeps_weaken (follows [])); [apply follows_drifts|].
        apply quiet_construct_prompt. }
      apply keeps_bind; [apply _| |intros _].
      { apply keeps_modify. intros s. split; try done; [by right|].
        exists []. simpl. by rewrite app_nil_r. }
      apply keeps_ret, _. }
    destruct (keeps_run _ _ _ _ _ Hkeeps Hrun) as [[Ha Hc Hl Hlog] Hfuel].
    split; [done|]. split; [done|]. split; [done|]. split.
    + exact (logged_trans [_] [] st st1 st' (logged_emit _ st) Hlog).
    + intros prompt ->. unfold rest in Hrun.
      apply bind_inv_ok in Hrun as (q & s1 & _ & Hrun).
      apply bind_inv_ok in Hrun as (? & s2 & _ & Hrun).
      apply bind_inv_ok in Hrun as (content & s3 & _ & Hrun).
      apply bind_inv_ok in Hrun as (full & s4 & _ & Hrun).
      apply bind_inv_ok in Hrun as (? & s5 & Hmod & Hrun).
      injection Hmod as _ <-. injection Hrun as _ <-. done.
  - intros Hrun.
    destruct (keeps_run _ _ _ _ _ (quiet_construct_prompt env self EmptyString) Hrun)
      as [[Ha Hc Hl Hlog] Hfuel]. done.
Qed.

(** One attempt, phase by phase: the attempt counter grows by one and the
    marker of the attempt is logged.  When a call of the first run over
    the files raises, the attempt ends there.  Otherwise the log receives
    the marker of the escalation when the updated counter reaches the
    threshold, and, when the attempt ends well, the marker of its
    result. *)
Lemma attempt_run (st st' : State) (o : Outcome bool) :
  CodeDebugger.attempt env self st = (o, st') ->
  let signature := Py.join (failure_texts env self (clock st) (disk st)) in
  let esc := escalating self (tracked_count st signature) in
  o <> OutOfFuel /\
  attempt_count st' = attempt_count st + 1 /\
  match run_error env self (clock st) (disk st) (files_to_debug self) with
  | Some e =>
      o = Raised e /\
      logged [LogAttempt (attempt_count st + 1)] st st' /\
      constant_error_count st' = constant_error_count st /\
      last_error_signature st' = last_error_signature st
  | None =>
      logged (LogAttempt (attempt_count st + 1)
              :: escalation_markers self esc
              ++ match o with Ok error_exists => [end_marker error_exists]
                             | _ => [] end) st st' /\
      (forall error_exists, o = Ok error_exists ->
         last_error_signature st' = tracked_last st signature /\
         constant_error_count st' = (if esc then 0 else tracked_count st signature) /\
         exists t d, error_exists = failures_remain env self t d)
  end.
Proof.
  intros Hrun signature esc. unfold CodeDebugger.attempt in Hrun.
  (* the counter and its line of the log *)
  set (stA := add_event (LogAttempt (attempt_count st + 1))
                (set_attempt_count (attempt_count st + 1) st)).
  rewrite (bind_ok _ _ st stA tt) in Hrun by reflexivity.
  (* the signature *)
  destruct (current_error_signature_run env self stA) as (HB & HstB).
  set (stB := after_runs env self (files_to_debug self) stA) in *.
  rewrite bind_run, HB in Hrun. change (clock stA) with (clock st) in Hrun.
  change (disk stA) with (disk st) in Hrun. fold signature in Hrun.
  destruct HstB as [HBa HBc HBl HBlog].
  assert (HlogB : logged [LogAttempt (attempt_count st + 1)] st stB).
  { destruct HBlog as (l & Hl & Hm). exists (LogAttempt (attempt_count st + 1) :: l).
    rewrite Hl. simpl. rewrite <- app_assoc. split; [done|]. by rewrite Hm. }
  destruct (run_error env self (clock st) (disk st) (files_to_debug self))
    as [e|].
  { injection Hrun as <- <-. split; [done|]. split; [exact HBa|]. done. }
  (* the counter of repetitions *)
  destruct (track_signature_run signature stB)
    as (stC & HC & HCa & HCc & HCl & HCd & HClog & HCk).
  rewrite (bind_ok _ _ _ _ _ HC) in Hrun.
  assert (HcountC : constant_error_count stC = tracked_count st signature).
  { rewrite HCc. unfold tracked_count. by rewrite HBc, HBl. }
  assert (HlastC : last_error_signature stC = tracked_last st signature).
  { rewrite HCl. unfold tracked_last. by rewrite HBl. }
  assert (Hesc : CodeDebugger.escalates self stC = esc).
  { unfold CodeDebugger.escalates, esc, escalating. by rewrite HcountC. }
  assert (HlogC : logged [LogAttempt (attempt_count st + 1)] st stC).
  { destruct HlogB as (l & Hl & Hm). exists l. by rewrite HClog. }
  assert (HattC : attempt_count stC = attempt_count st + 1) by (by rewrite HCa, HBa).
  clear HB HC HBa HBc HBl HBlog HlogB HCa HCc HCl HCd HClog HCk.
  (* the prompt *)
  apply bind_inv in Hrun
    as [(prompt & stD & HD & Hrun)|[(e & HD & ->)|[HD ->]]];
    apply build_prompt_run in HD as (HDfuel & HDa & HDl & HDlog & HDc);
    rewrite Hesc in HDlog, HDc; [| |done].
  2:{ split; [done|]. split; [congruence|]. split; [|done].
      rewrite app_nil_r. exact (logged_trans [_] _ _ _ _ HlogC HDlog). }
  specialize (HDc _ eq_refl).
  pose proof (logged_trans [_] _ _ _ _ HlogC HDlog) as HlogD. simpl in HlogD.
  (* the model *)
  apply bind_inv in Hrun
    as [(llm_response & stE & HE & Hrun)|[(e & HE & ->)|[HE ->]]];
    apply (keeps_run _ _ _ _ _ (steady_call_model env _ _)) in HE as [HstE HEfuel];
    apply steady_follows in HstE as [HEa HEc HEl HElog]; [| |done].
  2:{ split; [done|]. split; [congruence|]. split; [|done].
      pose proof (logged_trans _ _ _ _ _ HlogD HElog) as H.
      by rewrite !app_nil_r in *. }
  pose proof (logged_trans _ _ _ _ _ HlogD HElog) as HlogE.
  rewrite app_nil_r in HlogE.
  (* the changes *)
  apply bind_inv in Hrun
    as [([] & stF & HF & Hrun)|[(e & HF & ->)|[HF ->]]];
    apply (keeps_run _ _ _ _ _ (follows_apply_response _)) in HF
      as [[HFa HFc HFl HFlog] HFfuel]; [| |done].
  2:{ split; [done|]. split; [congruence|]. split; [|done].
      pose proof (logged_trans _ _ _ _ _ HlogE HFlog) as H.
      by rewrite !app_nil_r in *. }
  pose proof (logged_trans _ _ _ _ _ HlogE HFlog) as HlogF.
  rewrite app_nil_r in HlogF.
  (* the check *)
  destruct (recheck_run env self stF st' o Hrun)
    as (HGfuel & [HGa HGc HGl HGlog] & Hee).
  split; [done|]. split; [congruence|]. split.
  - exact (logged_trans _ _ _ _ _ HlogF HGlog).
  - intros ee ->. split; [congruence|]. split; [|eauto].
    by rewrite HGc, HFc, HEc, HDc, HcountC.
Qed.

(** An attempt that ends well has run every file for its signature. *)
Lemma attempt_ok_returned (st st' : State) (error_exists : bool) :
  CodeDebugger.attempt env self st = (Ok error_exists, st') ->
  run_error env self (clock st) (disk st) (files_to_debug self) = None.
Proof.
  intros Hrun. apply attempt_run in Hrun as (_ & _ & H).
  destruct (run_error _ _ _ _ _); [by destruct H|done].
Qed.

(** What an attempt that ends well leaves. *)
Lemma attempt_ok_run (st st' : State) (error_exists : bool) :
  CodeDebugger.attempt env self st = (Ok error_exists, st') ->
  let signature := Py.join (failure_texts env self (clock st) (disk st)) in
  let esc := escalating self (tracked_count st signature) in
  attempt_count st' = attempt_count st + 1 /\
  logged (LogAttempt (attempt_count st + 1)
          :: escalation_markers self esc ++ [end_marker error_exists]) st st' /\
  last_error_signature st' = tracked_last st signature /\
  constant_error_count st' = (if esc then 0 else tracked_count st signature) /\
  exists t d, error_exists = failures_remain env self t d.
Proof.
  intros Hrun. pose proof (attempt_ok_returned _ _ _ Hrun) as Hret.
  apply attempt_run in Hrun as (_ & Ha & H). rewrite Hret in H.
  destruct H as [Hlog Hok]. destruct (Hok _ eq_refl) as (Hl & Hc & Hee). done.
Qed.

(** The markers that an attempt adds to the log, however it ends: its own,
    then the marker of the escalation if the internet is asked, then the
    marker of its result if it ends well. *)
Lemma attempt_markers (st st' : State) (o : Outcome bool) :
  CodeDebugger.attempt env self st = (o, st') ->
  exists asks,
    logged (LogAttempt (attempt_count st + 1)
            :: escalation_markers self asks
            ++ match o with Ok error_exists => [end_marker error_exists]
                           | _ => [] end) st st' /\
    asks
    = runs_return env self (clock st) (disk st) (files_to_debug self)
      && escalating self
           (tracked_count st
              (Py.join (failure_texts env self (clock st) (disk st)))).
Proof.
  intros Hrun. apply attempt_run in Hrun as (_ & _ & H). unfold runs_return.
  destruct (run_error env self (clock st) (disk st) (files_to_debug self)) as [e|].
  - destruct H as (-> & Hlog & _). exists false. done.
  - destruct H as [Hlog _]. eexists. split; [exact Hlog|done].
Qed.

End Attempt.

(** ** Reading the markers *)

Lemma attempts_logged_markers (l : list Event) :
  attempts_logged (markers l) = attempts_logged l.
Proof. induction l as [|e l IH]; [done|]. destruct e; simpl; by rewrite ?IH. Qed.

Lemma attempts_logged_app (l l' : list Event) :
  attempts_logged (l ++ l') = attempts_logged l ++ attempts_logged l'.
Proof. induction l as [|e l IH]; [done|]. destruct e; simpl; by rewrite ?IH. Qed.

Lemma escalation_attempts_markers (current : Z) (l : list Event) :
  escalation_attempts_from current (markers l) = escalation_attempts_from current l.
Proof.
  revert current. induction l as [|e l IH]; intros current; [done|].
  destruct e; simpl; by rewrite ?IH.
Qed.

Lemma in_markers (e : Event) (l : list Event) :
  is_marker e = true -> In e l <-> In e (markers l).
Proof. intros He. unfold markers. rewrite List.filter_In. tauto. Qed.

Lemma existsb_same_error_markers (l : list Event) :
  existsb is_same_error (markers l) = existsb is_same_error l.
Proof. induction l as [|e l IH]; [done|]. destruct e; simpl; by rewrite ?IH. Qed.

Lemma logged_markers (ms : list Event) (st st' : State) :
  logged ms st st' -> markers (log st') = markers (log st) ++ ms.
Proof. intros (l & -> & <-). apply markers_app. Qed.

Lemma logged_since (ms : list Event) (st st' : State) :
  logged ms st st' -> markers (log_since st st') = ms.
Proof.
  intros (l & Hl & <-). unfold log_since. by rewrite Hl, drop_app_length.
Qed.

Lemma attempts_logged_escalation (self : Config) (b : bool) :
  attempts_logged (escalation_markers self b) = [].
Proof. by destruct b. Qed.

(** ** The loop *)

Section Loop.
Context (env : Env) (self : Config).

Lemma while_loop_exit (fuel : nat) (error_exists : bool) (st : State) :
  error_exists && (attempt_count st <? max_attempts self) = false ->
  CodeDebugger.while_loop env self fuel error_exists st = (Ok tt, st).
Proof. intros H. destruct fuel; simpl; by rewrite H. Qed.

Lemma while_loop_step (fuel : nat) (error_exists : bool) (st : State) :
  error_exists && (attempt_count st <? max_attempts self) = true ->
  CodeDebugger.while_loop env self (S fuel) error_exists st
  = bind (CodeDebugger.attempt env self)
         (CodeDebugger.while_loop env self fuel) st.
Proof. intros H. simpl. by rewrite H. Qed.

(** A property of the state that every attempt started below the budget
    keeps, however the attempt ends, holds when the loop is left. *)
Lemma while_loop_invariant (I : State -> Prop) :
  (forall st o st',
     I st -> attempt_count st < max_attempts self ->
     CodeDebugger.attempt env self st = (o, st') -> I st') ->
  forall fuel error_exists st,
    I st -> I (snd (CodeDebugger.while_loop env self fuel error_exists st)).
Proof.
  intros Hstep fuel. induction fuel as [|fuel IH]; intros error_exists st HI; simpl.
  - by destruct (error_exists && _).
  - destruct (error_exists && _) eqn:Hguard; [|done].
    apply andb_true_iff in Hguard as [_ Hlt%Z.ltb_lt].
    rewrite bind_run.
    destruct (CodeDebugger.attempt env self st) as [[ee|e|] st1] eqn:Hrun;
      simpl; eauto.
Qed.

(** The budget of attempts is fuel enough. *)
Lemma while_loop_fuel (fuel : nat) (error_exists : bool) (st : State) :
  max_attempts self - attempt_count st <= Z.of_nat fuel ->
  fst (CodeDebugger.while_loop env self fuel error_exists st) <> OutOfFuel.
Proof.
  revert error_exists st. induction fuel as [|fuel IH]; intros error_exists st Hfuel;
    simpl.
  - destruct (error_exists && _) eqn:Hguard; [|done].
    apply andb_true_iff in Hguard as [_ Hlt%Z.ltb_lt]. lia.
  - destruct (error_exists && _) eqn:Hguard; [|done].
    rewrite bind_run.
    destruct (CodeDebugger.attempt env self st) as [[ee|e|] st1] eqn:Hrun; simpl.
    + apply attempt_run in Hrun as (_ & Hcount & _). apply IH. lia.
    + done.
    + by apply attempt_run in Hrun as (? & _).
Qed.

Lemma debug_run (st : State) :
  CodeDebugger.debug env self st
  = match CodeDebugger.while_loop env self
            (Z.to_nat (max_attempts self - attempt_count st)) true st with
    | (Ok _, st1) =>
        if max_attempts self <=? attempt_count st1
        then (Ok tt, add_event LogMaxAttempts st1) else (Ok tt, st1)
    | (Raised e, st1) => (Raised e, st1)
    | (OutOfFuel, st1) => (OutOfFuel, st1)
    end.
Proof.
  unfold CodeDebugger.debug. rewrite bind_run. simpl. rewrite bind_run.
  destruct (CodeDebugger.while_loop _ _ _ _ _) as [[[]|e|] st1]; try done.
  rewrite bind_run. simpl. by destruct (_ <=? _).
Qed.

(** [debug] always comes to an end. *)
Lemma debug_terminates (st : State) :
  fst (CodeDebugger.debug env self st) <> OutOfFuel.
Proof.
  rewrite debug_run.
  pose proof (while_loop_fuel
                (Z.to_nat (max_attempts self - attempt_count st)) true st) as H.
  destruct (CodeDebugger.while_loop _ _ _ _ _) as [[[]|e|] st1]; simpl in *.
  - by destruct (_ <=? _).
  - done.
  - apply H. lia.
Qed.

End Loop.

(** ** The signature of the failures (C3) *)

Section SignatureUpdate.
Context (env : Env) (self : Config).

(** The body of the loop is the update of the counter followed by the
    rest of the body, unless a call of the run for the signature
    raises. *)
Lemma attempt_updates (st : State) :
  let current := Py.join (failure_texts env self (clock st) (disk st)) in
  match run_error env self (clock st) (disk st) (files_to_debug self) with
  | Some e =>
      exists st', CodeDebugger.attempt env self st = (Raised e, st')
  | None =>
      exists updated,
        CodeDebugger.attempt env self st = after_update env self updated /\
        attempt_count updated = attempt_count st + 1 /\
        constant_error_count updated = tracked_count st current /\
        last_error_signature updated = tracked_last st current
  end.
Proof.
  cbv zeta. unfold CodeDebugger.attempt.
  set (stA := add_event (LogAttempt (attempt_count st + 1))
                (set_attempt_count (attempt_count st + 1) st)).
  rewrite (bind_ok _ _ st stA tt) by reflexivity.
  destruct (current_error_signature_run env self stA) as (HB & [HBa HBc HBl _]).
  rewrite bind_run, HB. change (clock stA) with (clock st).
  change (disk stA) with (disk st).
  destruct (run_error env self (clock st) (disk st) (files_to_debug self))
    as [e|]; [by eexists|].
  destruct (track_signature_run
              (Py.join (failure_texts env self (clock st) (disk st)))
              (after_runs env self (files_to_debug self) stA))
    as (stC & HC & HCa & HCc & HCl & _).
  rewrite (bind_ok _ _ _ _ _ HC). exists stC. split; [reflexivity|].
  split; [by rewrite HCa, HBa|]. split.
  - rewrite HCc. unfold tracked_count. by rewrite HBc, HBl.
  - rewrite HCl. unfold tracked_last. by rewrite HBl.
Qed.

End SignatureUpdate.

(** C3. Every pass through the body of the loop, whatever the state
    before, is the update of the counter followed by the rest of the
    body, unless a call of the run for the signature raises, which ends
    the pass with the counter and the last signature as they were.  The
    signature is the concatenation of the failure texts of the files, in
    their order; when it equals the last signature and is not empty the
    counter grows by one and the last signature stays; otherwise the
    counter becomes 0 and the last signature becomes the current one.
    In particular, when no file fails the signature is empty and the
    counter is 0 after the update.  At the end of a pass that ends well
    the last signature is the updated one, and the counter is the updated
    one unless the search has reset it. *)
Theorem signature_update (env : Env) (self : Config) (st : State) :
  let current := Py.join (failure_texts env self (clock st) (disk st)) in
  let result := CodeDebugger.attempt env self st in
  match run_error env self (clock st) (disk st) (files_to_debug self) with
  | Some e =>
      fst result = Raised e /\
      constant_error_count (snd result) = constant_error_count st /\
      last_error_signature (snd result) = last_error_signature st
  | None =>
      exists updated,
        result = after_update env self updated /\
        attempt_count updated = attempt_count st + 1 /\
        (current = last_error_signature st /\ current <> EmptyString ->
           constant_error_count updated = constant_error_count st + 1 /\
           last_error_signature updated = last_error_signature st) /\
        (~ (current = last_error_signature st /\ current <> EmptyString) ->
           constant_error_count updated = 0 /\
           last_error_signature updated = current) /\
        (failure_texts env self (clock st) (disk st) = [] ->
           current = EmptyString /\ constant_error_count updated = 0) /\
        (forall error_exists,
           fst result = Ok error_exists ->
           last_error_signature (snd result) = last_error_signature updated /\
           (constant_error_count (snd result) = constant_error_count updated \/
            constant_error_count (snd result) = 0))
  end.
Proof.
  cbv zeta.
  pose proof (attempt_updates env self st) as Hup. cbv zeta in Hup.
  destruct (CodeDebugger.attempt env self st) as [o st'] eqn:Hrun.
  pose proof (attempt_run env self st st' o Hrun) as (_ & _ & Hatt).
  cbv zeta in Hatt.
  set (current := Py.join (failure_texts env self (clock st) (disk st))) in *.
  destruct (run_error env self (clock st) (disk st) (files_to_debug self))
    as [e|].
  { destruct Hatt as (-> & _ & Hc & Hl). done. }
  destruct Hup as (updated & Hrest & Ha & Hc & Hl).
  destruct Hatt as [_ Hok].
  exists updated. split; [exact Hrest|]. split; [exact Ha|].
  rewrite Hc, Hl. unfold tracked_count, tracked_last.
  assert (Hcase :
    String.eqb current (last_error_signature st) && negb (Py.is_empty current) = true
    <-> current = last_error_signature st /\ current <> EmptyString).
  { rewrite andb_true_iff, String.eqb_eq, negb_true_iff.
    rewrite <- is_empty_true. by destruct (Py.is_empty current); intuition. }
  assert (Hend : forall error_exists, o = Ok error_exists ->
    last_error_signature st' = tracked_last st current /\
    (constant_error_count st' = tracked_count st current \/
     constant_error_count st' = 0)).
  { intros ee Hee. destruct (Hok ee Hee) as (Hl' & Hc' & _).
    split; [exact Hl'|]. rewrite Hc'. destruct (escalating _ _); tauto. }
  unfold tracked_count, tracked_last in Hend. simpl.
  destruct (String.eqb current (last_error_signature st)
            && negb (Py.is_empty current)) eqn:E.
  - destruct Hcase as [HE _]. specialize (HE eq_refl).
    split; [done|]. split; [tauto|]. split; [|exact Hend].
    intros Hnone. subst current. rewrite Hnone in HE. by destruct HE.
  - assert (HE : ~ (current = last_error_signature st /\ current <> EmptyString)).
    { intros H. by apply Hcase in H. }
    split; [tauto|]. split; [done|]. split; [|exact Hend].
    intros Hnone. subst current. by rewrite Hnone.
Qed.

(** ** The attempt counter (C10) *)

Section AttemptCounter.
Context (env : Env) (self : Config).

Lemma attempt_adds_one (st st' : State) (o : Outcome bool) :
  CodeDebugger.attempt env self st = (o, st') ->
  attempt_count st' = attempt_count st + 1.
Proof. intros H. by apply attempt_run in H as (_ & ? & _). Qed.

Lemma attempt_logs_its_number (st st' : State) (o : Outcome bool) :
  CodeDebugger.attempt env self st = (o, st') ->
  attempts_logged (log st') = attempts_logged (log st) ++ [attempt_count st + 1].
Proof.
  intros H. apply attempt_markers in H as (asks & (l & -> & Hm) & _).
  rewrite attempts_logged_app. f_equal.
  rewrite <- attempts_logged_markers, Hm. simpl. f_equal.
  rewrite attempts_logged_app, attempts_logged_escalation. simpl.
  destruct o as [[]| |]; done.
Qed.

(** The invariant of the loop. *)
Lemma counter_invariant_step (st st' : State) (o : Outcome bool) :
  (0 <= attempt_count st <= max_attempts self /\
   attempts_logged (log st) = seqZ 1 (attempt_count st)) ->
  attempt_count st < max_attempts self ->
  CodeDebugger.attempt env self st = (o, st') ->
  0 <= attempt_count st' <= max_attempts self /\
  attempts_logged (log st') = seqZ 1 (attempt_count st').
Proof.
  intros [Hb Hl] Hlt Hrun.
  rewrite (attempt_logs_its_number _ _ _ Hrun), (attempt_adds_one _ _ _ Hrun).
  split; [lia|]. rewrite Hl, seqZ_app by lia. f_equal.
  unfold seqZ. simpl. f_equal. lia.
Qed.

Lemma loop_head_bounds (d : gmap string string) (st : State) (error_exists : bool) :
  0 <= max_attempts self ->
  loop_head env self d st error_exists ->
  0 <= attempt_count st <= max_attempts self /\
  attempts_logged (log st) = seqZ 1 (attempt_count st).
Proof.
  intros Hmax. induction 1 as [|st ee st' _ IH Hlt Hrun].
  - simpl. split; [lia|done].
  - by eapply counter_invariant_step.
Qed.

End AttemptCounter.

(** C10. In a session with a budget that is not negative, the attempt
    counter stays between 0 and [max_attempts]: it starts at 0; every pass
    through the body of the loop adds exactly one, however the pass ends;
    the loop does not enter its body once the counter has reached the
    budget; so the bounds hold at every head of the loop, after every pass
    and when [debug] ends, which it always does, having numbered its
    attempts 1, 2, ... up to the final value of the counter. *)
Theorem attempt_count_within_budget (env : Env) (self : Config)
    (d : gmap string string) :
  0 <= max_attempts self ->
  attempt_count (initial_state d) = 0 /\
  (forall st o st',
     CodeDebugger.attempt env self st = (o, st') ->
     attempt_count st' = attempt_count st + 1) /\
  (forall fuel error_exists st,
     max_attempts self <= attempt_count st ->
     CodeDebugger.while_loop env self fuel error_exists st = (Ok tt, st)) /\
  (forall st error_exists,
     loop_head env self d st error_exists ->
     0 <= attempt_count st <= max_attempts self /\
     forall o st',
       attempt_count st < max_attempts self ->
       CodeDebugger.attempt env self st = (o, st') ->
       0 <= attempt_count st' <= max_attempts self) /\
  (let final := CodeDebugger.debug env self (initial_state d) in
   fst final <> OutOfFuel /\
   0 <= attempt_count (snd final) <= max_attempts self /\
   attempts_logged (log (snd final)) = seqZ 1 (attempt_count (snd final))).
Proof.
  intros Hmax. split; [done|].
  split; [intros st o st'; apply attempt_adds_one|].
  split; [|split].
  - intros fuel ee st Hge. apply while_loop_exit.
    apply andb_false_iff. right. by apply Z.ltb_ge.
  - intros st ee Hhead.
    pose proof (loop_head_bounds env self d st ee Hmax Hhead) as Hinv.
    split; [apply Hinv|]. intros o st' Hlt Hrun.
    by apply (counter_invariant_step env self st st' o Hinv Hlt Hrun).
  - cbv zeta. split; [apply debug_terminates|].
    rewrite debug_run.
    pose proof (while_loop_invariant env self
      (fun st => 0 <= attempt_count st <= max_attempts self /\
                 attempts_logged (log st) = seqZ 1 (attempt_count st))
      (fun st o st' => counter_invariant_step env self st st' o)
      (Z.to_nat (max_attempts self - attempt_count (initial_state d))) true
      (initial_state d)) as Hinv.
    destruct (CodeDebugger.while_loop _ _ _ _ _) as [[[]|e|] st1]; simpl in *.
    + destruct (_ <=? _); simpl.
      * rewrite attempts_logged_app. simpl. rewrite app_nil_r.
        apply Hinv. split; [lia|done].
      * apply Hinv. split; [lia|done].
    + apply Hinv. split; [lia|done].
    + apply Hinv. split; [lia|done].
Qed.

Lemma attempt_count_within_budget_witness :
  0 <= max_attempts (Scenario.config 3 2) /\
  fst Scenario.session_A <> OutOfFuel /\
  0 <= attempt_count (snd Scenario.session_A) <= 3 /\
  attempts_logged (log (snd Scenario.session_A))
  = seqZ 1 (attempt_count (snd Scenario.session_A)).
Proof.
  assert (Hmax : 0 <= max_attempts (Scenario.config 3 2)) by (simpl; lia).
  split; [exact Hmax|].
  exact (proj2 (proj2 (proj2 (proj2
    (attempt_count_within_budget Scenario.env_stuck (Scenario.config 3 2)
       Scenario.directory Hmax))))).
Defined.

(** ** Asking the internet (C5) *)

Section Escalation.
Context (env : Env) (self : Config).

Lemma escalated_logged (ms : list Event) (st st' : State) :
  logged ms st st' -> escalated st st' = existsb is_same_error ms.
Proof.
  intros H. unfold escalated.
  by rewrite <- existsb_same_error_markers, (logged_since _ _ _ H).
Qed.

Lemma existsb_escalation_markers (b : bool) (tail : list Event) :
  existsb is_same_error tail = false ->
  existsb is_same_error (escalation_markers self b ++ tail) = b.
Proof. intros H. destruct b; simpl; [done|exact H]. Qed.

(** An attempt asks the internet exactly when the run for the signature
    returns, the counter, once updated, reaches the threshold and the
    search is enabled. *)
Lemma attempt_escalated (st st' : State) (o : Outcome bool) :
  CodeDebugger.attempt env self st = (o, st') ->
  escalated st st'
  = runs_return env self (clock st) (disk st) (files_to_debug self)
    && escalating self
         (tracked_count st (Py.join (failure_texts env self (clock st) (disk st)))).
Proof.
  intros H. apply attempt_markers in H as (asks & Hlog & <-).
  rewrite (escalated_logged _ _ _ Hlog). simpl.
  apply existsb_escalation_markers. by destruct o as [[]| |].
Qed.

Lemma attempt_escalated_true (st st' : State) (o : Outcome bool) :
  CodeDebugger.attempt env self st = (o, st') ->
  escalated st st' = true ->
  escalating self
    (tracked_count st (Py.join (failure_texts env self (clock st) (disk st))))
  = true.
Proof.
  intros H. rewrite (attempt_escalated _ _ _ H).
  by intros [_ ?]%andb_true_iff.
Qed.

Lemma attempt_ok_escalated (st st' : State) (error_exists : bool) :
  CodeDebugger.attempt env self st = (Ok error_exists, st') ->
  escalated st st'
  = escalating self
      (tracked_count st (Py.join (failure_texts env self (clock st) (disk st)))).
Proof.
  intros H. rewrite (attempt_escalated _ _ _ H). unfold runs_return.
  by rewrite (attempt_ok_returned env self _ _ _ H).
Qed.

Lemma tracked_count_after_reset (st : State) (signature : string) :
  constant_error_count st = 0 -> tracked_count st signature <= 1.
Proof. intros H. unfold tracked_count. rewrite H. destruct (_ && _); lia. Qed.

Lemma escalation_attempts_from_attempt (current n : Z) (l1 l2 : list Event) :
  escalation_attempts_from current (l1 ++ LogAttempt n :: l2)
  = escalation_attempts_from current l1 ++ escalation_attempts_from n l2.
Proof.
  revert current. induction l1 as [|e l1 IH]; intros current; [done|].
  destruct e; simpl; by rewrite ?IH.
Qed.

Lemma escalation_attempts_from_max (current : Z) (l : list Event) :
  escalation_attempts_from current (l ++ [LogMaxAttempts])
  = escalation_attempts_from current l.
Proof.
  revert current. induction l as [|e l IH]; intros current; [done|].
  destruct e; simpl; by rewrite ?IH.
Qed.

(** The attempts that asked the internet, after one more attempt. *)
Lemma attempt_escalation_attempts (st st' : State) (o : Outcome bool) :
  CodeDebugger.attempt env self st = (o, st') ->
  escalation_attempts (log st')
  = escalation_attempts (log st)
    ++ (if escalated st st' then [attempt_count st + 1] else []).
Proof.
  intros Hrun. rewrite (attempt_escalated _ _ _ Hrun).
  apply attempt_markers in Hrun as (asks & Hlog & <-).
  unfold escalation_attempts.
  rewrite <- (escalation_attempts_markers 0 (log st')), (logged_markers _ _ _ Hlog).
  rewrite escalation_attempts_from_attempt, escalation_attempts_markers.
  f_equal. unfold escalation_markers.
  destruct asks; destruct o as [[]| |]; reflexivity.
Qed.

(** With a threshold of at least two: the attempts that asked the internet
    are among those made, no two of them follow one another, and the
    counter is 0 when the last attempt made asked the internet and ended
    well.  An attempt keeps this; when it does not end well, it keeps all
    but the last part. *)
Lemma escalation_invariant_step (st st' : State) (o : Outcome bool) :
  2 <= internet_search_threshold self ->
  0 <= attempt_count st ->
  (forall n, In n (escalation_attempts (log st)) -> 1 <= n <= attempt_count st) ->
  never_twice_in_a_row (escalation_attempts (log st)) ->
  (In (attempt_count st) (escalation_attempts (log st)) ->
   constant_error_count st = 0) ->
  CodeDebugger.attempt env self st = (o, st') ->
  0 <= attempt_count st' /\
  (forall n, In n (escalation_attempts (log st')) -> 1 <= n <= attempt_count st') /\
  never_twice_in_a_row (escalation_attempts (log st')) /\
  (forall error_exists, o = Ok error_exists ->
   In (attempt_count st') (escalation_attempts (log st')) ->
   constant_error_count st' = 0).
Proof.
  intros Hth Hpos Hrange Hnever Hreset Hrun.
  pose proof (attempt_escalation_attempts _ _ _ Hrun) as Hlist.
  pose proof (attempt_run env self _ _ _ Hrun) as (_ & Hcount & _).
  rewrite Hlist, Hcount. clear Hlist.
  destruct (escalated st st') eqn:Hasked.
  - (* this attempt asked: the one before did not *)
    pose proof (attempt_escalated_true _ _ _ Hrun Hasked) as Hesc.
    assert (Hprev : ~ In (attempt_count st) (escalation_attempts (log st))).
    { intros Hin. apply Hreset in Hin.
      pose proof (tracked_count_after_reset st
        (Py.join (failure_texts env self (clock st) (disk st))) Hin) as Hle.
      unfold escalating in Hesc.
      apply andb_true_iff in Hesc as [_ Hge%Z.leb_le]. lia. }
    split; [lia|]. split; [|split].
    + intros n [Hin|[<-|[]]]%in_app_iff; [|lia].
      apply Hrange in Hin. lia.
    + intros n [Hin|[<-|[]]]%in_app_iff [Hin'|[Heq|[]]]%in_app_iff.
      * by apply (Hnever n).
      * assert (n = attempt_count st) as -> by lia. done.
      * apply Hrange in Hin'. lia.
      * lia.
    + intros ee -> _.
      destruct (attempt_ok_run env self _ _ _ Hrun) as (_ & _ & _ & Hc & _).
      by rewrite Hesc in Hc.
  - rewrite app_nil_r. split; [lia|]. split; [|split].
    + intros n Hin. apply Hrange in Hin. lia.
    + done.
    + intros ee _ Hin. apply Hrange in Hin. lia.
Qed.

(** In a session with a threshold of at least two, no two attempts in a
    row ask the internet, however the session ends. *)
Lemma session_never_escalates_twice_in_a_row (d : gmap string string) :
  2 <= internet_search_threshold self ->
  never_twice_in_a_row
    (escalation_attempts
       (log (snd (CodeDebugger.debug env self (initial_state d))))).
Proof.
  intros Hth.
  assert (Hloop : forall fuel error_exists st,
    0 <= attempt_count st ->
    (forall n, In n (escalation_attempts (log st)) -> 1 <= n <= attempt_count st) ->
    never_twice_in_a_row (escalation_attempts (log st)) ->
    (In (attempt_count st) (escalation_attempts (log st)) ->
     constant_error_count st = 0) ->
    never_twice_in_a_row
      (escalation_attempts
         (log (snd (CodeDebugger.while_loop env self fuel error_exists st))))).
  { induction fuel as [|fuel IH]; intros ee st Hpos Hrange Hnever Hreset; simpl.
    - by destruct (ee && _).
    - destruct (ee && _); [|done]. rewrite bind_run.
      destruct (CodeDebugger.attempt env self st) as [o st1] eqn:Hrun.
      destruct (escalation_invariant_step st st1 o Hth Hpos Hrange Hnever Hreset Hrun)
        as (Hpos1 & Hrange1 & Hnever1 & Hreset1).
      destruct o as [ee1|e|]; simpl; [|done|done].
      apply IH; eauto. }
  rewrite debug_run.
  specialize (Hloop (Z.to_nat (max_attempts self - attempt_count (initial_state d)))
                true (initial_state d)).
  destruct (CodeDebugger.while_loop _ _ _ _ _) as [[[]|e|] st1]; simpl in *.
  - assert (H1 : never_twice_in_a_row (escalation_attempts (log st1))).
    { apply Hloop; [lia|intros n []|intros n []|intros []]. }
    destruct (_ <=? _); simpl; [|done].
    unfold escalation_attempts. by rewrite escalation_attempts_from_max.
  - apply Hloop; [lia|intros n []|intros n []|intros []].
  - apply Hloop; [lia|intros n []|intros n []|intros []].
Qed.

End Escalation.

(** C5, as the code has it.  When the branch that asks the internet ends
    well the counter is 0, whatever the search and the fetches returned
    (they are arbitrary here); so is it at the end of an attempt that asked
    the internet.  When the threshold is at least 2, the attempt that
    follows does not ask the internet, however it ends; and in a whole
    session no two attempts in a row ask the internet. *)
Theorem escalation_resets_counter (env : Env) (self : Config) :
  (forall st prompt st',
     CodeDebugger.escalates self st = true ->
     CodeDebugger.build_prompt env self st = (Ok prompt, st') ->
     constant_error_count st' = 0) /\
  (forall st error_exists st1,
     CodeDebugger.attempt env self st = (Ok error_exists, st1) ->
     escalated st st1 = true ->
     constant_error_count st1 = 0 /\
     (2 <= internet_search_threshold self ->
      forall o st2,
        CodeDebugger.attempt env self st1 = (o, st2) ->
        escalated st1 st2 = false)) /\
  (2 <= internet_search_threshold self ->
   forall d,
     never_twice_in_a_row
       (escalation_attempts
          (log (snd (CodeDebugger.debug env self (initial_state d)))))).
Proof.
  split; [|split; [|intros Hth d; by apply session_never_escalates_twice_in_a_row]].
  - intros st prompt st' Hesc Hrun.
    apply build_prompt_run in Hrun as (_ & _ & _ & _ & Hc).
    rewrite (Hc prompt eq_refl). by rewrite Hesc.
  - intros st ee st1 Hrun Hesc.
    rewrite (attempt_ok_escalated env self _ _ _ Hrun) in Hesc.
    apply attempt_ok_run in Hrun as (_ & _ & _ & Hc & _). rewrite Hesc in Hc.
    split; [exact Hc|]. intros Hth o st2 Hnext.
    rewrite (attempt_escalated env self _ _ _ Hnext).
    apply andb_false_iff. right.
    unfold escalating. apply andb_false_iff. right. apply Z.leb_gt.
    pose proof (tracked_count_after_reset st1
      (Py.join (failure_texts env self (clock st1) (disk st1))) Hc). lia.
Qed.

(** With threshold two, the third attempt on a file that keeps failing
    asks the internet, and the fourth does not. *)
Lemma escalation_resets_counter_witness :
  let env := Scenario.env_stuck in
  let self := Scenario.config 5 2 in
  let st2 := Scenario.after_attempts env self 2 (initial_state Scenario.directory) in
  let st3 := Scenario.after_attempts env self 3 (initial_state Scenario.directory) in
  let st4 := Scenario.after_attempts env self 4 (initial_state Scenario.directory) in
  escalated st2 st3 = true /\
  constant_error_count st3 = 0 /\
  escalated st3 st4 = false.
Proof.
  cbv zeta.
  destruct (proj1 (proj2 (escalation_resets_counter Scenario.env_stuck
                             (Scenario.config 5 2)))
              (Scenario.after_attempts Scenario.env_stuck (Scenario.config 5 2) 2
                 (initial_state Scenario.directory))
              true
              (Scenario.after_attempts Scenario.env_stuck (Scenario.config 5 2) 3
                 (initial_state Scenario.directory)))
    as [Hc Hnext].
  - vm_compute. reflexivity.
  - vm_compute. reflexivity.
  - split; [vm_compute; reflexivity|]. split; [exact Hc|].
    apply (Hnext ltac:(simpl; lia) (Ok true)). vm_compute. reflexivity.
Defined.

(** With threshold one, a file that keeps failing makes the second, the
    third and the fourth attempt ask the internet, one after the other:
    the second attempt ends well with the counter at 0, and the third
    asks again. *)
Lemma consecutive_escalations_threshold_one :
  let env := Scenario.env_stuck in
  let self := Scenario.config 4 1 in
  let st1 := Scenario.after_attempts env self 1 (initial_state Scenario.directory) in
  let st2 := Scenario.after_attempts env self 2 (initial_state Scenario.directory) in
  let st3 := Scenario.after_attempts env self 3 (initial_state Scenario.directory) in
  CodeDebugger.attempt env self st1 = (Ok true, st2) /\
  escalated st1 st2 = true /\
  constant_error_count st2 = 0 /\
  CodeDebugger.attempt env self st2 = (Ok true, st3) /\
  escalated st2 st3 = true /\
  fst Scenario.session_threshold_one = Ok tt /\
  escalation_attempts (log (snd Scenario.session_threshold_one)) = [2; 3; 4] /\
  ~ never_twice_in_a_row
      (escalation_attempts (log (snd Scenario.session_threshold_one))).
Proof.
  cbv zeta. repeat (split; [vm_compute; reflexivity|]).
  assert (H : escalation_attempts (log (snd Scenario.session_threshold_one))
              = [2; 3; 4]) by (vm_compute; reflexivity).
  rewrite H. intros Hnever.
  apply (Hnever 2); simpl; tauto.
Qed.

(** ** One file that fails in the same way on every run (C2) *)

Section StuckFile.
Context (env : Env) (self : Config) (a : string) (failure : Completed).
Hypothesis Hfiles : files_to_debug self = [a].
Hypothesis Hrun_a :
  forall t d, python env t d (Py.path_join (code_dir self) a) = failure.
Hypothesis Hcode : returncode failure <> 0.
Hypothesis Htext : shows_failure (Py.strip (stderr failure)) = true.

Lemma stuck_output (t : nat) (d : gmap string string) :
  run_output env self t d a = (Py.strip (stderr failure)).
Proof.
  unfold run_output. rewrite Hrun_a.
  by apply Z.eqb_neq in Hcode as ->.
Qed.

Lemma stuck_texts (t : nat) (d : gmap string string) :
  Py.join (failure_texts env self t d) = (Py.strip (stderr failure)).
Proof.
  unfold failure_texts. rewrite Hfiles. simpl. rewrite stuck_output, Htext.
  simpl. apply append_empty_r.
Qed.

Lemma stuck_remain (t : nat) (d : gmap string string) :
  failures_remain env self t d = true.
Proof.
  unfold failures_remain. rewrite Hfiles. simpl. by rewrite stuck_output, Htext.
Qed.

Lemma stuck_text_not_empty : Py.is_empty (Py.strip (stderr failure)) = false.
Proof. destruct (Py.strip (stderr failure)); [discriminate Htext|done]. Qed.

Lemma stuck_text_eqb_empty : String.eqb (Py.strip (stderr failure)) EmptyString = false.
Proof. destruct (Py.strip (stderr failure)); [discriminate Htext|done]. Qed.

(** The first attempt: nothing was seen before. *)
Lemma stuck_first_attempt (st st' : State) (error_exists : bool) :
  CodeDebugger.attempt env self st = (Ok error_exists, st') ->
  last_error_signature st = EmptyString ->
  error_exists = true /\
  attempt_count st' = attempt_count st + 1 /\
  last_error_signature st' = (Py.strip (stderr failure)) /\
  constant_error_count st' = 0 /\
  logged (LogAttempt (attempt_count st + 1)
          :: escalation_markers self (escalating self 0)
          ++ [LogErrorStillExists]) st st'.
Proof.
  intros Hrun Hlast.
  apply attempt_ok_run in Hrun as (Ha & Hlog & Hl & Hc & t & d & Hee).
  rewrite stuck_remain in Hee. subst error_exists.
  rewrite stuck_texts in *.
  unfold tracked_count, tracked_last in *.
  rewrite Hlast, stuck_text_eqb_empty in *. simpl in *.
  split; [done|]. split; [done|]. split; [done|]. split; [|done].
  rewrite Hc. by destruct (escalating self 0).
Qed.

(** A later attempt: the same text was seen before. *)
Lemma stuck_next_attempt (st st' : State) (error_exists : bool) :
  CodeDebugger.attempt env self st = (Ok error_exists, st') ->
  last_error_signature st = (Py.strip (stderr failure)) ->
  let count := constant_error_count st + 1 in
  error_exists = true /\
  attempt_count st' = attempt_count st + 1 /\
  last_error_signature st' = (Py.strip (stderr failure)) /\
  constant_error_count st' = (if escalating self count then 0 else count) /\
  logged (LogAttempt (attempt_count st + 1)
          :: escalation_markers self (escalating self count)
          ++ [LogErrorStillExists]) st st'.
Proof.
  intros Hrun Hlast count.
  apply attempt_ok_run in Hrun as (Ha & Hlog & Hl & Hc & t & d & Hee).
  rewrite stuck_remain in Hee. subst error_exists.
  rewrite stuck_texts in *.
  unfold tracked_count, tracked_last in *.
  rewrite Hlast, String.eqb_refl, stuck_text_not_empty in *. simpl in *.
  done.
Qed.

End StuckFile.

(** C2, as the code has it.  One file that fails in the same way on every
    run, a budget of three attempts, threshold two, search enabled: in a
    session that runs to its end the counter is 0 at the first attempt, 1
    at the second and 2 at the third, so the internet is asked during the
    third attempt and during no other; the session ends after the third
    attempt and reports that the budget is exhausted. *)
Theorem stuck_file_escalates_on_third_attempt (env : Env) (self : Config)
    (a : string) (failure : Completed) (d : gmap string string) (st' : State) :
  files_to_debug self = [a] ->
  max_attempts self = 3 ->
  internet_search_threshold self = 2 ->
  enable_internet_search self = true ->
  (forall t d', python env t d' (Py.path_join (code_dir self) a) = failure) ->
  returncode failure <> 0 ->
  shows_failure (Py.strip (stderr failure)) = true ->
  CodeDebugger.debug env self (initial_state d) = (Ok tt, st') ->
  escalation_attempts (log st') = [3] /\
  attempts_logged (log st') = [1; 2; 3] /\
  attempt_count st' = 3 /\
  reports_exhausted (log st') /\
  ~ reports_succeeded (log st').
Proof.
  intros Hfiles Hmax Hth Hen Hpy Hcode Htext Hdebug.
  assert (Hesc : forall c, escalating self c = (2 <=? c)).
  { intros c. unfold escalating. by rewrite Hen, Hth. }
  rewrite debug_run, Hmax in Hdebug.
  change (Z.to_nat (3 - attempt_count (initial_state d))) with 3%nat in Hdebug.
  destruct (CodeDebugger.while_loop env self 3 true (initial_state d))
    as [[[]|e|] s3] eqn:Hloop; [|done|done].
  (* the first attempt *)
  rewrite while_loop_step in Hloop by (simpl; by rewrite Hmax).
  apply bind_inv_ok in Hloop as (ee1 & s1 & H1 & Hloop).
  apply (stuck_first_attempt env self a failure Hfiles Hpy Hcode Htext) in H1
    as (-> & Ha1 & Hl1 & Hc1 & Hlog1); [|done].
  rewrite Hesc in Hlog1. simpl in Ha1, Hlog1.
  (* the second attempt *)
  rewrite while_loop_step in Hloop by (by rewrite Ha1, Hmax).
  apply bind_inv_ok in Hloop as (ee2 & s2 & H2 & Hloop).
  apply (stuck_next_attempt env self a failure Hfiles Hpy Hcode Htext) in H2
    as (-> & Ha2 & Hl2 & Hc2 & Hlog2); [|done].
  rewrite Hesc, Hc1 in Hc2. rewrite Hesc, Hc1, Ha1 in Hlog2. rewrite Ha1 in Ha2.
  simpl in Ha2, Hc2, Hlog2.
  (* the third attempt *)
  rewrite while_loop_step in Hloop by (by rewrite Ha2, Hmax).
  apply bind_inv_ok in Hloop as (ee3 & s3' & H3 & Hloop).
  apply (stuck_next_attempt env self a failure Hfiles Hpy Hcode Htext) in H3
    as (-> & Ha3 & Hl3 & Hc3 & Hlog3); [|done].
  rewrite Hesc, Hc2 in Hc3. rewrite Hesc, Hc2, Ha2 in Hlog3. rewrite Ha2 in Ha3.
  simpl in Ha3, Hc3, Hlog3.
  (* the budget is spent *)
  rewrite while_loop_exit in Hloop by (by rewrite Ha3, Hmax).
  injection Hloop as <-. rewrite Ha3 in Hdebug. simpl in Hdebug.
  injection Hdebug as <-.
  pose proof (logged_trans _ _ _ _ _ (logged_trans _ _ _ _ _ Hlog1 Hlog2) Hlog3)
    as Hlog.
  apply logged_markers in Hlog. simpl in Hlog.
  assert (Hm : markers (log (add_event LogMaxAttempts s3'))
               = [LogAttempt 1; LogErrorStillExists;
                  LogAttempt 2; LogErrorStillExists;
                  LogAttempt 3; LogSameError (internet_search_threshold self);
                  LogErrorStillExists; LogMaxAttempts]).
  { simpl. by rewrite markers_app, Hlog. }
  split; [|split; [|split; [|split]]].
  - unfold escalation_attempts. by rewrite <- escalation_attempts_markers, Hm.
  - by rewrite <- attempts_logged_markers, Hm.
  - exact Ha3.
  - unfold reports_exhausted. apply (in_markers LogMaxAttempts); [done|].
    rewrite Hm. simpl. tauto.
  - unfold reports_succeeded. rewrite (in_markers LogAllFixed) by done.
    rewrite Hm. simpl. intros H. repeat destruct H as [H|H]; done.
Qed.

Lemma stuck_file_escalates_on_third_attempt_witness :
  escalation_attempts (log (snd Scenario.session_A)) = [3] /\
  attempts_logged (log (snd Scenario.session_A)) = [1; 2; 3] /\
  attempt_count (snd Scenario.session_A) = 3 /\
  reports_exhausted (log (snd Scenario.session_A)) /\
  ~ reports_succeeded (log (snd Scenario.session_A)).
Proof.
  apply (stuck_file_escalates_on_third_attempt Scenario.env_stuck
           (Scenario.config 3 2) "a.py" Scenario.failing Scenario.directory).
  - reflexivity.
  - reflexivity.
  - reflexivity.
  - reflexivity.
  - reflexivity.
  - simpl. lia.
  - vm_compute. reflexivity.
  - vm_compute. reflexivity.
Defined.

(** In scenario A the second attempt does not ask the internet: the
    counter is then 1, below the threshold. *)
Lemma scenario_A_no_escalation_on_second_attempt :
  fst Scenario.session_A = Ok tt /\
  ~ In 2 (escalation_attempts (log (snd Scenario.session_A))).
Proof.
  split; [vm_compute; reflexivity|].
  assert (H : escalation_attempts (log (snd Scenario.session_A)) = [3])
    by (vm_compute; reflexivity).
  rewrite H. simpl. intros [?|[]]. done.
Qed.

(** ** The two ends of a session (C1) *)

Section SessionEnds.
Context (env : Env) (self : Config) (d : gmap string string).

(** At the head of the loop the log has not reported the budget as used
    up, and it has reported success exactly when [error_exists] is false. *)
Lemma loop_head_reports (st : State) (error_exists : bool) :
  loop_head env self d st error_exists ->
  ~ reports_exhausted (log st) /\
  (reports_succeeded (log st) <-> error_exists = false).
Proof.
  unfold reports_exhausted, reports_succeeded.
  induction 1 as [|st ee st' _ [IHmax IHfixed] Hlt Hrun].
  - simpl. split; [tauto|]. split; [tauto|discriminate].
  - apply attempt_ok_run in Hrun as (_ & Hlog & _).
    apply logged_markers in Hlog.
    rewrite (in_markers LogMaxAttempts), (in_markers LogAllFixed), Hlog by done.
    rewrite (in_markers LogMaxAttempts) in IHmax by done.
    rewrite (in_markers LogAllFixed) in IHfixed by done.
    rewrite !in_app_iff. simpl. rewrite !in_app_iff. simpl.
    assert (Hnot : ~ In LogAllFixed (markers (log st))).
    { intros H. by apply IHfixed in H. }
    split.
    + intros [H|[H|[H|[H|[]]]]]; [tauto|done| |by destruct ee].
      unfold escalation_markers in H. destruct (escalating _ _); simpl in H.
      * by destruct H.
      * done.
    + split.
      * intros [H|[H|[H|[H|[]]]]]; [tauto|done| |by destruct ee].
        unfold escalation_markers in H. destruct (escalating _ _); simpl in H.
        -- by destruct H.
        -- done.
      * intros ->. right. right. right. by left.
Qed.

(** Where the loop is left without an exception. *)
Lemma while_loop_reaches (fuel : nat) (error_exists : bool) (st st' : State) :
  loop_head env self d st error_exists ->
  CodeDebugger.while_loop env self fuel error_exists st = (Ok tt, st') ->
  exists error_exists',
    loop_head env self d st' error_exists' /\
    error_exists' && (attempt_count st' <? max_attempts self) = false.
Proof.
  revert error_exists st. induction fuel as [|fuel IH]; intros ee st Hhead Hloop.
  - simpl in Hloop. destruct (ee && _) eqn:Hguard; [done|].
    injection Hloop as <-. by exists ee.
  - destruct (ee && (attempt_count st <? max_attempts self)) eqn:Hguard.
    + rewrite while_loop_step in Hloop by done.
      apply bind_inv_ok in Hloop as (ee1 & s1 & Hrun & Hloop).
      apply andb_true_iff in Hguard as [-> Hlt%Z.ltb_lt].
      apply (IH ee1 s1); [|done]. by eapply head_next.
    + rewrite while_loop_exit in Hloop by done.
      injection Hloop as <-. by exists ee.
Qed.

(** What a session that ends without an exception reports: success exactly
    when the last check found no failure, and exhaustion exactly when the
    counter has reached the budget, whatever the last check found. *)
Lemma session_reports (st' : State) :
  0 <= max_attempts self ->
  CodeDebugger.debug env self (initial_state d) = (Ok tt, st') ->
  exists error_exists,
    (reports_succeeded (log st') <-> error_exists = false) /\
    (reports_exhausted (log st') <-> attempt_count st' = max_attempts self) /\
    (error_exists = true -> attempt_count st' = max_attempts self).
Proof.
  intros Hmax Hdebug. rewrite debug_run in Hdebug.
  destruct (CodeDebugger.while_loop _ _ _ _ _) as [[[]|e|] st1] eqn:Hloop;
    [|done|done].
  apply (while_loop_reaches _ _ _ _ (head_start env self d)) in Hloop
    as (ee & Hhead & Hguard).
  destruct (loop_head_reports st1 ee Hhead) as [Hnomax Hfixed].
  destruct (loop_head_bounds env self d st1 ee Hmax Hhead) as [Hbounds _].
  exists ee. unfold reports_succeeded, reports_exhausted in *.
  destruct (max_attempts self <=? attempt_count st1) eqn:Hle;
    injection Hdebug as <-; simpl.
  - apply Z.leb_le in Hle. rewrite !in_app_iff. simpl.
    split; [|split].
    + rewrite <- Hfixed. split; [|tauto]. intros [H|[H|[]]]; done.
    + split; [lia|]. intros _. right. by left.
    + lia.
  - apply Z.leb_gt in Hle. split; [done|]. split.
    + split; [tauto|lia].
    + intros ->. simpl in Hguard. apply Z.ltb_ge in Hguard. lia.
Qed.

End SessionEnds.

(** C1 at a session whose only attempt repairs the file: the check after
    the changes finds no failure and the log says so; the counter equals
    the budget, and the log also says that the budget was used up without
    fixing all errors.  Both ends are reported. *)
Theorem last_attempt_fix_reports_both_ends :
  let final := Scenario.session_last_attempt_fixes in
  fst final = Ok tt /\
  attempt_count (snd final) = max_attempts (Scenario.config 1 5) /\
  failures_remain Scenario.env_fix (Scenario.config 1 5)
    (clock (snd final)) (disk (snd final)) = false /\
  markers (log (snd final)) = [LogAttempt 1; LogAllFixed; LogMaxAttempts] /\
  reports_succeeded (log (snd final)) /\
  reports_exhausted (log (snd final)).
Proof.
  cbv zeta. split; [vm_compute; reflexivity|]. split; [vm_compute; reflexivity|].
  split; [vm_compute; reflexivity|].
  assert (Hm : markers (log (snd Scenario.session_last_attempt_fixes))
               = [LogAttempt 1; LogAllFixed; LogMaxAttempts])
    by (vm_compute; reflexivity).
  split; [exact Hm|]. split.
  - apply (in_markers LogAllFixed); [done|]. rewrite Hm. simpl. tauto.
  - apply (in_markers LogMaxAttempts); [done|]. rewrite Hm. simpl. tauto.
Qed.

(** ** A file that the directory does not have (C4) *)

Lemma read_text_run (env : Env) (path : string) (st : State) :
  CodeDebugger.read_text env path st
  = match disk st !! realpath env path with
    | Some content =>
        if can_read env (clock st) (disk st) path
        then (Ok (Py.universal_newlines content), st)
        else (Raised (ReadError path), st)
    | None => (Raised (FileNotFoundError path), st)
    end.
Proof.
  unfold CodeDebugger.read_text. rewrite bind_run. simpl.
  destruct (disk st !! realpath env path); [|done].
  by destruct (can_read env (clock st) (disk st) path).
Qed.

(** Reading the files of a change set before they are written fails when
    a file is missing, and the state is what it was. *)
Lemma read_before_change_missing (env : Env) (self : Config)
    (code_changes : Dict.dict string) (st : State) (filename : string) :
  In filename (Dict.keys code_changes) ->
  disk st !! realpath env (Py.path_join (code_dir self) filename) = None ->
  exists e,
    CodeDebugger.read_before_change env self code_changes st = (Raised e, st).
Proof.
  unfold CodeDebugger.read_before_change. generalize (@nil (string * string)).
  induction (Dict.keys code_changes) as [|k ks IH]; intros acc Hin Hnone; [done|].
  simpl. rewrite bind_run, bind_run, read_text_run.
  destruct (disk st !! realpath env (Py.path_join (code_dir self) k))
    as [content|] eqn:Hk; simpl.
  - destruct (can_read env (clock st) (disk st) _); [|by eexists].
    destruct Hin as [->|Hin]; [congruence|]. by apply IH.
  - by eexists.
Qed.

(** So does applying a reply that names a file the directory does not
    have: nothing is written. *)
Lemma apply_response_missing_file (env : Env) (self : Config)
    (llm_response : string) (st : State) (filename : string) :
  In filename (Dict.keys (_extract_code_from_llm_response llm_response)) ->
  disk st !! realpath env (Py.path_join (code_dir self) filename) = None ->
  exists e,
    CodeDebugger.apply_response env self llm_response st = (Raised e, st).
Proof.
  intros Hin Hnone.
  destruct (read_before_change_missing env self _ st filename Hin Hnone) as [e H].
  exists e. unfold CodeDebugger.apply_response. by rewrite bind_run, H.
Qed.

(** C4 at a reply that names [b.py], which the directory does not have:
    the parser puts [b.py] in the change set, reading it before the change
    raises [FileNotFoundError], the session ends there, and nothing was
    written. *)
Theorem new_file_raises_before_write :
  let final := Scenario.session_new_file in
  Dict.get "b.py"
    (_extract_code_from_llm_response (Scenario.reply_for "b.py" "print(1)"))
  = Some "print(1)" /\
  fst final = Raised (FileNotFoundError "proj/b.py") /\
  disk (snd final) !! "proj/b.py" = None /\
  disk (snd final) = Scenario.directory /\
  log (snd final) = [LogAttempt 1].
Proof. cbv zeta. repeat split; vm_compute; reflexivity. Qed.

(** ** Writing the change set (C9) *)

Section UpdateCodeFiles.
Context (env : Env) (self : Config).

Lemma write_text_run (path code : string) (st : State) :
  CodeDebugger.write_text env path code st
  = if can_write env (clock st) (disk st) path
    then (Ok tt,
          set_disk (<[realpath env path := code]> (disk st)) (advance_clock st))
    else (Raised (OSError path), advance_clock st).
Proof.
  unfold CodeDebugger.write_text. unfold bind, tick, get_state. simpl.
  by destruct (can_write env (clock st) (disk st) path).
Qed.

Lemma update_code_files_cons (k c : string) (l : Dict.dict string) (st : State) :
  CodeDebugger._update_code_files env self ((k, c) :: l) st
  = if can_write env (clock st) (disk st) (Py.path_join (code_dir self) k)
    then CodeDebugger._update_code_files env self l
           (set_disk (<[file_of env self k := c]> (disk st)) (advance_clock st))
    else (Raised (OSError (Py.path_join (code_dir self) k)), advance_clock st).
Proof.
  unfold CodeDebugger._update_code_files. simpl.
  rewrite bind_run, write_text_run. by destruct (can_write _ _ _ _).
Qed.

(** A file that no key names keeps its content, however the step ends. *)
Lemma update_code_files_frame (code_changes : Dict.dict string) (st : State)
    (file : string) :
  (forall filename, In filename (Dict.keys code_changes) ->
     file_of env self filename <> file) ->
  disk (snd (CodeDebugger._update_code_files env self code_changes st)) !! file
  = disk st !! file.
Proof.
  revert st. induction code_changes as [|[k c] l IH]; intros st Hfile; [done|].
  rewrite update_code_files_cons. destruct (can_write _ _ _ _); [|done].
  rewrite IH by (intros f Hf; apply Hfile; by right).
  simpl. apply lookup_insert_ne. apply Hfile. by left.
Qed.

Lemma written_cons (k c : string) (l : Dict.dict string) (d : gmap string string) :
  written env self ((k, c) :: l) d
  = written env self l (<[file_of env self k := c]> d).
Proof. reflexivity. Qed.

Lemma written_app (l1 l2 : Dict.dict string) (d : gmap string string) :
  written env self (l1 ++ l2) d = written env self l2 (written env self l1 d).
Proof. unfold written. apply fold_left_app. Qed.

Lemma written_frame (l : Dict.dict string) (d : gmap string string)
    (file : string) :
  (forall filename, In filename (Dict.keys l) -> file_of env self filename <> file) ->
  written env self l d !! file = d !! file.
Proof.
  revert d. induction l as [|[k c] l IH]; intros d Hfile; [done|].
  rewrite written_cons, IH by (intros f Hf; apply Hfile; by right).
  apply lookup_insert_ne. apply Hfile. by left.
Qed.

(** A file holds the code of the last key that names it. *)
Lemma written_last (before_it after_it : Dict.dict string) (k c : string)
    (d : gmap string string) :
  (forall filename, In filename (Dict.keys after_it) ->
     file_of env self filename <> file_of env self k) ->
  written env self (before_it ++ (k, c) :: after_it) d !! file_of env self k
  = Some c.
Proof.
  intros Hlast. rewrite written_app, written_cons, written_frame by done.
  apply lookup_insert_eq.
Qed.

(** When the step ends well the files of the change set are written, one
    after the other. *)
Lemma update_code_files_disk (code_changes : Dict.dict string) (st : State) :
  fst (CodeDebugger._update_code_files env self code_changes st) = Ok tt ->
  disk (snd (CodeDebugger._update_code_files env self code_changes st))
  = written env self code_changes (disk st).
Proof.
  revert st. induction code_changes as [|[k c] l IH]; intros st; [done|].
  rewrite update_code_files_cons, written_cons.
  destruct (can_write _ _ _ _); [|done].
  intros Hok. by rewrite IH.
Qed.

(** The step ends well when the system accepts every write. *)
Lemma update_code_files_ok (code_changes : Dict.dict string) (st : State) :
  (forall t d path, can_write env t d path = true) ->
  fst (CodeDebugger._update_code_files env self code_changes st) = Ok tt.
Proof.
  intros Hw. revert st. induction code_changes as [|[k c] l IH]; intros st; [done|].
  by rewrite update_code_files_cons, Hw.
Qed.

End UpdateCodeFiles.

(** C9, as the code has it.  Writing a change set changes the files that
    its keys name and no other.  A file that the path of no key names is
    what it was, however the step ends.  When the step ends well, the
    directory is the old one with the files of the change set written in
    their order, so that a file holds the code of the last key that names
    it.  Two paths may name one file: a file is changed when a key names
    it, whether or not its own name is a key. *)
Theorem update_writes_only_named_files (env : Env) (self : Config)
    (code_changes : Dict.dict string) (st : State) :
  let result := CodeDebugger._update_code_files env self code_changes st in
  (forall file,
     (forall filename, In filename (Dict.keys code_changes) ->
        file_of env self filename <> file) ->
     disk (snd result) !! file = disk st !! file) /\
  (fst result = Ok tt ->
   disk (snd result) = written env self code_changes (disk st) /\
   forall before_it filename code after_it,
     code_changes = before_it ++ (filename, code) :: after_it ->
     (forall later, In later (Dict.keys after_it) ->
        file_of env self later <> file_of env self filename) ->
     disk (snd result) !! file_of env self filename = Some code).
Proof.
  cbv zeta. split.
  - intros file Hfile. by apply update_code_files_frame.
  - intros Hok. pose proof (update_code_files_disk env self _ _ Hok) as Hdisk.
    split; [exact Hdisk|].
    intros before_it filename code after_it Hsplit Hlast.
    rewrite Hdisk, Hsplit. by apply written_last.
Qed.

(** Two files and a change set for the first: the second is left alone,
    and the first holds the new code. *)
Lemma update_writes_only_named_files_witness :
  let result :=
    CodeDebugger._update_code_files Scenario.env_fix (Scenario.config 3 2)
      Scenario.changes_a (initial_state Scenario.directory_two) in
  fst result = Ok tt /\
  disk (snd result) !! "proj/c.py" = Some "print(2)" /\
  disk (snd result) !! "proj/a.py" = Some "print(1)".
Proof.
  cbv zeta.
  destruct (update_writes_only_named_files Scenario.env_fix (Scenario.config 3 2)
              Scenario.changes_a (initial_state Scenario.directory_two))
    as (Hframe & Hkeys).
  split; [vm_compute; reflexivity|]. split.
  - rewrite (Hframe "proj/c.py").
    + vm_compute. reflexivity.
    + intros filename [<-|[]]. vm_compute. discriminate.
  - destruct Hkeys as [_ Hlast]; [vm_compute; reflexivity|].
    apply (Hlast [] "a.py" "print(1)" []); [reflexivity|]. intros later [].
Defined.

(** The change set has the one key [./a.py].  The name [a.py] is not a
    key, yet the file [a.py] of the directory is overwritten: the key
    names it. *)
Lemma file_with_other_name_is_overwritten :
  let result :=
    CodeDebugger._update_code_files Scenario.env_fix (Scenario.config 3 2)
      Scenario.changes_alias (initial_state Scenario.directory) in
  ~ In "a.py" (Dict.keys Scenario.changes_alias) /\
  fst result = Ok tt /\
  disk (initial_state Scenario.directory)
    !! file_of Scenario.env_fix (Scenario.config 3 2) "a.py" = Some "boom()" /\
  disk (snd result)
    !! file_of Scenario.env_fix (Scenario.config 3 2) "a.py" = Some "print(1)".
Proof.
  cbv zeta. split.
  - intros [H|[]]. discriminate H.
  - repeat split; vm_compute; reflexivity.
Qed.

(** * Further properties of the code *)

(** ** [strip] *)

Lemma lstrip_no_leading_space (s : string) :
  starts_with_space (Py.lstrip s) = false.
Proof.
  induction s as [|a s IH]; [done|]. simpl.
  destruct (Py.is_space a) eqn:Ha; [done|]. simpl. exact Ha.
Qed.

Lemma rstrip_no_trailing_space (s : string) :
  ends_with_space (Py.rstrip s) = false.
Proof.
  induction s as [|a s IH]; [done|]. simpl.
  destruct (Py.is_space a && Py.is_empty (Py.rstrip s)) eqn:Hc; [done|].
  destruct (Py.rstrip s) as [|b r] eqn:Hr; simpl in *; [|exact IH].
  by rewrite andb_true_r in Hc.
Qed.

Lemma rstrip_keeps_head (s : string) :
  starts_with_space s = false -> starts_with_space (Py.rstrip s) = false.
Proof.
  destruct s as [|a s]; [done|]. simpl. intros Ha. by rewrite Ha.
Qed.

Lemma strip_trimmed (s : string) : trimmed (Py.strip s).
Proof.
  split.
  - apply rstrip_keeps_head, lstrip_no_leading_space.
  - apply rstrip_no_trailing_space.
Qed.

Lemma lstrip_fixed (s : string) : starts_with_space s = false -> Py.lstrip s = s.
Proof. destruct s as [|a s]; [done|]. simpl. by intros ->. Qed.

Lemma rstrip_fixed (s : string) : ends_with_space s = false -> Py.rstrip s = s.
Proof.
  induction s as [|a s IH]; [done|]. destruct s as [|b r].
  - simpl. intros ->. done.
  - intros H. change (ends_with_space (String b r) = false) in H.
    change (Py.rstrip (String a (String b r)))
      with (if Py.is_space a && Py.is_empty (Py.rstrip (String b r))
            then EmptyString else String a (Py.rstrip (String b r))).
    rewrite (IH H). simpl. by rewrite andb_false_r.
Qed.

Lemma strip_fixed (s : string) : trimmed s -> Py.strip s = s.
Proof.
  intros [Hs He]. unfold Py.strip. rewrite (lstrip_fixed s Hs). by apply rstrip_fixed.
Qed.

Lemma strip_idempotent (s : string) : Py.strip (Py.strip s) = Py.strip s.
Proof. apply strip_fixed, strip_trimmed. Qed.

(** ** More on strings and on the matcher *)

Lemma length_append (s t : string) :
  String.length (s +:+ t) = (String.length s + String.length t)%nat.
Proof. induction s as [|a s IH]; [done|]. rewrite append_cons. simpl. by rewrite IH. Qed.

Lemma string_forall_append (P : ascii -> bool) (s t : string) :
  string_forall P (s +:+ t) = string_forall P s && string_forall P t.
Proof.
  induction s as [|a s IH]; [done|].
  rewrite append_cons, !string_forall_cons, IH. by rewrite andb_assoc.
Qed.

Lemma startswith_append (p s : string) : Py.startswith (p +:+ s) p = true.
Proof.
  induction p as [|b p IH]; [by destruct s|].
  rewrite append_cons. simpl. by rewrite Ascii.eqb_refl.
Qed.

Lemma startswith_inv (s p : string) :
  Py.startswith s p = true -> exists s', s = p +:+ s'.
Proof.
  revert s. induction p as [|b p IH]; intros s H.
  - by exists s.
  - destruct s as [|a s]; [done|]. simpl in H.
    destruct (Ascii.eqb a b) eqn:E; [|done]. apply Ascii.eqb_eq in E as ->.
    destruct (IH s H) as [s' ->]. by exists s'.
Qed.

Lemma str_in_unfold (needle hay : string) :
  Py.str_in needle hay
  = Py.startswith hay needle
    || match hay with
       | EmptyString => false
       | String _ hay' => Py.str_in needle hay'
       end.
Proof. by destruct hay. Qed.

Lemma str_in_intro (needle pre post : string) :
  Py.str_in needle (pre +:+ needle +:+ post) = true.
Proof.
  induction pre as [|a pre IH].
  - rewrite append_empty_l, str_in_unfold, startswith_append. done.
  - rewrite append_cons, str_in_unfold, IH. apply orb_true_r.
Qed.

Lemma str_in_inv (needle hay : string) :
  Py.str_in needle hay = true -> exists pre post, hay = pre +:+ needle +:+ post.
Proof.
  induction hay as [|a hay IH]; rewrite str_in_unfold; intros H.
  - rewrite orb_false_r in H. apply startswith_inv in H as [s' ->].
    by exists EmptyString, s'.
  - apply orb_true_iff in H as [H|H].
    + apply startswith_inv in H as [s' ->]. by exists EmptyString, s'.
    + destruct (IH H) as (pre & post & ->). by exists (String a pre), post.
Qed.

Lemma str_in_append_l (needle s t : string) :
  Py.str_in needle s = true -> Py.str_in needle (s +:+ t) = true.
Proof.
  intros (pre & post & ->)%str_in_inv. rewrite !append_assoc. apply str_in_intro.
Qed.

Lemma str_in_append_r (needle s t : string) :
  Py.str_in needle t = true -> Py.str_in needle (s +:+ t) = true.
Proof.
  intros (pre & post & ->)%str_in_inv. rewrite <- append_assoc. apply str_in_intro.
Qed.

Lemma match_lits_startswith (l : string) (p : list Re.item) (s : string) r :
  Re.match_items (Re.lits l ++ p) s = Some r -> Py.startswith s l = true.
Proof. intros (s' & -> & _)%match_lits_inv. apply startswith_append. Qed.

Section LazyStar.
Context {R : Type} (c : Re.cls) (k : string -> option R).

(** The lazy star stops at the first place where the rest of the pattern
    matches. *)
Lemma star_lazy_minimal (s g : string) (r : R) :
  Re.star_lazy c k s = Some (g, r) ->
  exists s', s = g +:+ s' /\ k s' = Some r /\
    forall g1 g2, g = g1 +:+ g2 -> g2 <> EmptyString -> k (g2 +:+ s') = None.
Proof.
  revert g r. induction s as [|a s IH]; intros g r; simpl.
  - destruct (k EmptyString) as [r'|] eqn:Hk; [|discriminate].
    intros [= <- <-]. exists EmptyString. split; [done|]. split; [done|].
    intros [|? ?] g2 Hg Hne; [|done]. rewrite append_empty_l in Hg. by subst.
  - destruct (k (String a s)) as [r'|] eqn:Hk.
    + intros [= <- <-]. exists (String a s). split; [done|]. split; [done|].
      intros [|? ?] g2 Hg Hne; [|done]. rewrite append_empty_l in Hg. by subst.
    + destruct (Re.accepts c a); [|discriminate].
      destruct (Re.star_lazy c k s) as [[g' r']|] eqn:Hrec; [|discriminate].
      intros [= <- <-].
      destruct (IH g' r' eq_refl) as (s' & -> & Hk' & Hmin).
      exists s'. split; [done|]. split; [done|].
      intros [|b g1] g2 Hg Hne.
      * rewrite append_empty_l in Hg. subst g2. by rewrite append_cons.
      * rewrite append_cons in Hg. injection Hg as <- Hg. by apply (Hmin g1).
Qed.

Lemma star_lazy_exact (g s : string) (r : R) :
  string_forall (Re.accepts c) g = true ->
  k s = Some r ->
  (forall g1 g2, g = g1 +:+ g2 -> g2 <> EmptyString -> k (g2 +:+ s) = None) ->
  Re.star_lazy c k (g +:+ s) = Some (g, r).
Proof.
  intros Hall Hk. induction g as [|a g IH]; intros Hmin.
  - rewrite append_empty_l. destruct s; simpl; by rewrite Hk.
  - rewrite string_forall_cons in Hall. apply andb_true_iff in Hall as [Ha Hall].
    rewrite append_cons. simpl.
    rewrite <- append_cons, (Hmin EmptyString (String a g)) by done.
    rewrite Ha, IH; [done|done|].
    intros g1 g2 -> Hne. by apply (Hmin (String a g1)).
Qed.
End LazyStar.

(** [re.search]: a result is a match somewhere in the text, and a match
    somewhere gives a result. *)
Lemma search_sound (p : list Re.item) (s : string) caps :
  Re.search p s = Some caps ->
  exists pre s' rest, s = pre +:+ s' /\ Re.match_items p s' = Some (caps, rest).
Proof.
  induction s as [|a s IH]; simpl.
  - destruct (Re.match_items p EmptyString) as [[caps' rest]|] eqn:Hm; [|done].
    intros [= <-]. by exists EmptyString, EmptyString, rest.
  - destruct (Re.match_items p (String a s)) as [[caps' rest]|] eqn:Hm.
    + intros [= <-]. by exists EmptyString, (String a s), rest.
    + intros H. destruct (IH H) as (pre & s' & rest & -> & Hm').
      by exists (String a pre), s', rest.
Qed.

Lemma search_complete (p : list Re.item) (pre s : string) :
  is_Some (Re.match_items p s) -> is_Some (Re.search p (pre +:+ s)).
Proof.
  intros [[caps rest] Hm]. induction pre as [|a pre IH].
  - rewrite append_empty_l. destruct s; simpl; by rewrite Hm.
  - rewrite append_cons. simpl.
    destruct (Re.match_items p (String a (pre +:+ s))) as [[caps' rest']|]; done.
Qed.

(** The scan goes over the characters of a match without matching. *)
Lemma scan_skip (p : list Re.item) (s1 s2 : string) :
  Re.scan p (String.length s1) (s1 +:+ s2) = Re.scan p 0 s2.
Proof. induction s1 as [|a s1 IH]; [done|]. rewrite append_cons. simpl. exact IH. Qed.

Lemma scan_match (p : list Re.item) (a : ascii) (s1 rest : string) caps :
  Re.match_items p (String a s1 +:+ rest) = Some (caps, rest) ->
  Re.scan p 0 (String a s1 +:+ rest) = caps :: Re.scan p 0 rest.
Proof.
  intros Hm. rewrite append_cons in *. simpl. rewrite Hm. f_equal.
  rewrite length_append.
  replace (S (String.length s1 + String.length rest) - String.length rest - 1)%nat
    with (String.length s1) by lia.
  apply scan_skip.
Qed.

(** ** The parser on well-formed replies *)

(** Inside a code without closing fence, the closing fence is not found
    before the end of the code. *)
Lemma startswith_append_inv (g t p : string) :
  Py.startswith (g +:+ t) p = true ->
  Py.startswith g p = true \/
  exists p2, p = g +:+ p2 /\ p2 <> EmptyString /\ Py.startswith t p2 = true.
Proof.
  revert g. induction p as [|b p IH]; intros g H; [left; by destruct g|].
  destruct g as [|a g].
  - right. exists (String b p). by rewrite append_empty_l in H.
  - rewrite append_cons in H. simpl in H |- *.
    destruct (Ascii.eqb a b) eqn:E; [|done]. apply Ascii.eqb_eq in E as ->.
    destruct (IH g H) as [Hs|(p2 & -> & Hp2 & Ht)]; [by left|].
    right. by exists p2.
Qed.

Lemma startswith_cons (a b : ascii) (s p : string) :
  Py.startswith (String a s) (String b p)
  = if Ascii.eqb a b then Py.startswith s p else false.
Proof. reflexivity. Qed.

Lemma fence_not_before_end (code rest g1 g2 : string) :
  Py.str_in fence_close code = false ->
  code = g1 +:+ g2 -> g2 <> EmptyString ->
  Re.match_items (Re.lits fence_close) (g2 +:+ fence_close +:+ rest) = None.
Proof.
  intros Hfree -> Hne.
  destruct (Re.match_items _ _) as [r|] eqn:Hm; [|done]. exfalso.
  rewrite <- (app_nil_r (Re.lits fence_close)) in Hm.
  apply match_lits_startswith in Hm.
  apply startswith_append_inv in Hm as [Hstart|(p2 & Hp & Hp2 & Ht)].
  - rewrite str_in_append_r in Hfree; [done|].
    rewrite str_in_unfold, Hstart. done.
  - (* a part of the fence at the end of the code, the rest of it at the
       start of the fence: the fence starts with a line feed, its rest
       does not *)
    destruct g2 as [|a g2]; [done|].
    change fence_close with (String Py.LF "```") in Hp, Ht.
    rewrite append_cons in Hp. injection Hp as _ Hp.
    rewrite append_cons in Ht.
    destruct p2 as [|b p2]; [done|]. rewrite startswith_cons in Ht.
    destruct (Ascii.eqb Py.LF b) eqn:E; [|done]. apply Ascii.eqb_eq in E as <-.
    destruct g2 as [|c1 [|c2 [|c3 g3]]]; try discriminate Hp.
    destruct g3; discriminate Hp.
Qed.

(** A match of the block pattern, part by part. *)
Lemma match_block_parts (s : string) caps rest :
  Re.match_items code_block_pattern s = Some (caps, rest) ->
  exists ws name code,
    caps = [name; code] /\ s = block_text ws name code +:+ rest /\
    Py.is_space ws = true /\ is_name name /\
    forall g1 g2, code = g1 +:+ g2 -> g2 <> EmptyString ->
      Py.startswith (g2 +:+ fence_close +:+ rest) fence_close = false.
Proof.
  unfold code_block_pattern. intros H.
  apply match_one_inv in H as (a & s1 & -> & Ha & H).
  simpl in Ha. apply Ascii.eqb_eq in Ha as ->.
  apply match_one_inv in H as (ws & s2 & -> & Hws & H).
  apply match_plus_inv in H as (name & caps1 & s3 & -> & -> & Hne & Hname & H).
  apply match_lits_inv in H as (s4 & -> & H).
  cbn [Re.match_items] in H.
  destruct (Re.star_lazy Re.AnyChar (Re.match_items (Re.lits fence_close)) s4)
    as [[code [caps2 rest2]]|] eqn:Hlazy; [|done].
  injection H as <- <-.
  apply star_lazy_minimal in Hlazy as (s5 & -> & Hk & Hmin).
  rewrite <- (app_nil_r (Re.lits fence_close)) in Hk.
  apply match_lits_inv in Hk as (s6 & -> & Hk). simpl in Hk. injection Hk as <- <-.
  exists ws, name, code. split; [done|]. split.
  { unfold block_text. rewrite !append_assoc. reflexivity. }
  split; [done|]. split; [done|].
  intros g1 g2 Hg Hg2. specialize (Hmin g1 g2 Hg Hg2).
  destruct (Py.startswith (g2 +:+ fence_close +:+ s6) fence_close) eqn:Hs; [|done].
  apply startswith_inv in Hs as [s' Hs]. rewrite Hs in Hmin.
  rewrite <- (app_nil_r (Re.lits fence_close)), match_lits_append in Hmin. done.
Qed.

Lemma match_block_exact (ws : ascii) (name code rest : string) :
  Py.is_space ws = true -> is_name name ->
  Py.str_in fence_close code = false ->
  Re.match_items code_block_pattern (block_text ws name code +:+ rest)
  = Some ([name; code], rest).
Proof.
  intros Hws [Hne Hname] Hfree.
  rewrite block_text_append. unfold code_block_pattern.
  set (p2 := Re.CapLazyStar Re.AnyChar :: Re.lits fence_close).
  set (p1 := Re.lits fence_open ++ p2).
  set (body := code +:+ fence_close +:+ rest).
  assert (Hk : Re.match_items p1 (fence_open +:+ body) = Some ([code], rest)).
  { unfold p1. rewrite match_lits_append. unfold p2, body. cbn [Re.match_items].
    rewrite (star_lazy_exact Re.AnyChar (Re.match_items (Re.lits fence_close))
               code (fence_close +:+ rest) ([], rest)); [done| | |].
    - apply string_forall_any.
    - rewrite <- (app_nil_r (Re.lits _)). by rewrite match_lits_append.
    - intros g1 g2 Hg Hg2. by eapply fence_not_before_end. }
  cbn [Re.match_items Re.accepts]. rewrite Ascii.eqb_refl, Hws.
  change (fence_open +:+ body)
    with (String Py.LF (("```python" +:+ Py.nl) +:+ body)) in Hk |- *.
  by rewrite (plus_greedy_complete Re.NonSpace _ name Py.LF _ ([code], rest)).
Qed.

Lemma scan_before_hash (pre s : string) :
  string_forall (fun a => negb (Ascii.eqb a "#")) pre = true ->
  Re.scan code_block_pattern 0 (pre +:+ s) = Re.scan code_block_pattern 0 s.
Proof.
  induction pre as [|a pre IH]; [done|].
  rewrite string_forall_cons. intros [Ha Hpre]%andb_true_iff.
  rewrite append_cons. unfold code_block_pattern at 1.
  cbn [Re.scan Re.match_items Re.accepts].
  apply negb_true_iff in Ha. rewrite Ha. by apply IH.
Qed.

Lemma fold_matches_get (k v : string) (ms : list (list string))
    (d : Dict.dict string) :
  Dict.get k (fold_left add_match ms d) = Some v ->
  Dict.get k d = Some v \/ exists code, In [k; code] ms /\ v = Py.strip code.
Proof.
  revert d. induction ms as [|m ms IH]; intros d H; [by left|].
  simpl in H. apply IH in H as [H|(code & Hin & ->)].
  - destruct m as [|f [|c [|? ?]]]; simpl in H; try (by left).
    destruct (decide (f = k)) as [->|Hne].
    + rewrite dict_get_set_eq in H. injection H as <-. right. exists c.
      split; [by left|done].
    + rewrite dict_get_set_ne in H by done. by left.
  - right. exists code. split; [by right|done].
Qed.

Lemma findall_block_entry (s name code : string) :
  In [name; code] (Re.findall code_block_pattern s) ->
  exists ws pre rest,
    s = pre +:+ block_text ws name code +:+ rest /\
    Py.is_space ws = true /\ is_name name.
Proof.
  intros Hin. apply scan_sound in Hin as (pre & s' & rest & -> & Hm).
  apply match_block_parts in Hm as (ws & name' & code' & Heq & -> & Hws & Hn & _).
  injection Heq as <- <-. by exists ws, pre, rest.
Qed.

(** X1. The parser never invents an entry: every file of the mapping is
    named by a block of the reply, its name is not empty and has no white
    space, and its content is the stripped code of that block, so it
    neither starts nor ends with white space. *)
Theorem parsed_entries_come_from_blocks (llm_response filename content : string) :
  Dict.get filename (_extract_code_from_llm_response llm_response) = Some content ->
  exists ws code pre rest,
    llm_response = pre +:+ block_text ws filename code +:+ rest /\
    Py.is_space ws = true /\
    is_name filename /\
    content = Py.strip code /\
    trimmed content.
Proof.
  unfold _extract_code_from_llm_response. rewrite dict_of_matches_fold.
  intros [H|(code & Hin & ->)]%fold_matches_get; [done|].
  apply findall_block_entry in Hin as (ws & pre & rest & -> & Hws & Hname).
  exists ws, code, pre, rest. repeat (split; [done|]). apply strip_trimmed.
Qed.

Lemma parsed_entries_come_from_blocks_witness :
  Dict.get "a.py" (_extract_code_from_llm_response Scenario.reply_twice)
  = Some "x = 2" /\
  exists ws code pre rest,
    Scenario.reply_twice = pre +:+ block_text ws "a.py" code +:+ rest /\
    Py.is_space ws = true /\ is_name "a.py" /\
    "x = 2" = Py.strip code /\ trimmed "x = 2".
Proof.
  assert (H : Dict.get "a.py" (_extract_code_from_llm_response Scenario.reply_twice)
              = Some "x = 2") by (vm_compute; reflexivity).
  split; [exact H|].
  exact (parsed_entries_come_from_blocks Scenario.reply_twice "a.py" "x = 2" H).
Defined.

(** X2. A reply made of text without [#], then one block whose code holds
    no closing fence, then more text, is parsed to the entry of that block
    followed by what the rest of the reply gives; when the rest has no
    block the mapping is exactly that entry. *)
Theorem parse_block_then_rest (pre name code rest : string) (ws : ascii) :
  string_forall (fun a => negb (Ascii.eqb a "#")) pre = true ->
  Py.is_space ws = true ->
  is_name name ->
  Py.str_in fence_close code = false ->
  Re.findall code_block_pattern (pre +:+ block_text ws name code +:+ rest)
  = [name; code] :: Re.findall code_block_pattern rest /\
  _extract_code_from_llm_response (pre +:+ block_text ws name code +:+ rest)
  = fold_left add_match (Re.findall code_block_pattern rest)
      [(name, Py.strip code)] /\
  (~ contains_block rest ->
   _extract_code_from_llm_response (pre +:+ block_text ws name code +:+ rest)
   = [(name, Py.strip code)]).
Proof.
  intros Hpre Hws Hname Hfree.
  assert (Hfind :
    Re.findall code_block_pattern (pre +:+ block_text ws name code +:+ rest)
    = [name; code] :: Re.findall code_block_pattern rest).
  { unfold Re.findall. rewrite scan_before_hash by done.
    pose proof (match_block_exact ws name code rest Hws Hname Hfree) as Hm.
    change (block_text ws name code)
      with (String "#" (String ws EmptyString +:+ name +:+ fence_open
                        +:+ code +:+ fence_close)) in *.
    exact (scan_match _ _ _ _ _ Hm). }
  split; [exact Hfind|].
  assert (Hmap :
    _extract_code_from_llm_response (pre +:+ block_text ws name code +:+ rest)
    = fold_left add_match (Re.findall code_block_pattern rest)
        [(name, Py.strip code)]).
  { unfold _extract_code_from_llm_response. by rewrite Hfind. }
  split; [exact Hmap|].
  intros Hno. rewrite Hmap.
  destruct (Re.findall code_block_pattern rest) as [|m ms] eqn:Hrest; [done|].
  exfalso. apply Hno, findall_block_iff. by rewrite Hrest.
Qed.

Lemma parse_block_then_rest_witness :
  _extract_code_from_llm_response
    ("Here is the fix:" +:+ Py.nl
     +:+ block_text " " "a.py" ("x = 1" +:+ Py.nl) +:+ Py.nl +:+ "Done.")
  = [("a.py", "x = 1")].
Proof.
  apply (parse_block_then_rest ("Here is the fix:" +:+ Py.nl) "a.py"
           ("x = 1" +:+ Py.nl) (Py.nl +:+ "Done.") " ").
  - vm_compute. reflexivity.
  - reflexivity.
  - split; [done|]. vm_compute. reflexivity.
  - vm_compute. reflexivity.
  - intros H%findall_block_iff. apply H. vm_compute. reflexivity.
Defined.

(** ** Parsing what was parsed *)

Lemma lstrip_suffix (s : string) : exists pre, s = pre +:+ Py.lstrip s.
Proof.
  induction s as [|a s [pre IH]]; [by exists EmptyString|]. simpl.
  destruct (Py.is_space a).
  - exists (String a pre). by rewrite append_cons, <- IH.
  - by exists EmptyString.
Qed.

Lemma rstrip_prefix (s : string) : exists post, s = Py.rstrip s +:+ post.
Proof.
  induction s as [|a s [post IH]]; [by exists EmptyString|]. simpl.
  destruct (Py.is_space a && Py.is_empty (Py.rstrip s)).
  - by exists (String a s).
  - exists post. by rewrite append_cons, <- IH.
Qed.

(** What the stripped text holds, the text holds. *)
Lemma str_in_strip_back (needle s : string) :
  Py.str_in needle (Py.strip s) = true -> Py.str_in needle s = true.
Proof.
  unfold Py.strip. intros H.
  destruct (lstrip_suffix s) as [pre Hpre].
  destruct (rstrip_prefix (Py.lstrip s)) as [post Hpost].
  rewrite Hpre. apply str_in_append_r. rewrite Hpost. by apply str_in_append_l.
Qed.

(** A code that the lazy capture has taken holds no closing fence. *)
Lemma captured_code_has_no_fence (code rest : string) :
  (forall g1 g2, code = g1 +:+ g2 -> g2 <> EmptyString ->
     Py.startswith (g2 +:+ fence_close +:+ rest) fence_close = false) ->
  Py.str_in fence_close code = false.
Proof.
  intros Hmin. destruct (Py.str_in fence_close code) eqn:Hin; [|done].
  apply str_in_inv in Hin as (pre & post & ->).
  specialize (Hmin pre (fence_close +:+ post) eq_refl ltac:(done)).
  by rewrite append_assoc, startswith_append in Hmin.
Qed.

(** An entry of the mapping has a name, and its code is stripped and
    holds no closing fence. *)
Lemma parsed_entry (llm_response k v : string) :
  In (k, v) (_extract_code_from_llm_response llm_response) ->
  is_name k /\ trimmed v /\ Py.str_in fence_close v = false.
Proof.
  intros Hin.
  apply (dict_get_In _ _ _ (extract_keys_NoDup llm_response)) in Hin.
  unfold _extract_code_from_llm_response in Hin.
  rewrite dict_of_matches_fold in Hin.
  apply fold_matches_get in Hin as [Hin|(code & Hin & ->)]; [done|].
  apply scan_sound in Hin as (pre & s' & rest & _ & Hm).
  apply match_block_parts in Hm
    as (ws & name & code' & Heq & _ & _ & Hname & Hmin).
  injection Heq as <- <-.
  split; [done|]. split; [apply strip_trimmed|].
  destruct (Py.str_in fence_close (Py.strip code)) eqn:Hs; [|done].
  apply str_in_strip_back in Hs.
  by rewrite (captured_code_has_no_fence code rest Hmin) in Hs.
Qed.

Lemma dict_set_new {V} (d : Dict.dict V) (k : string) (v : V) :
  ~ In k (Dict.keys d) -> Dict.set k v d = d ++ [(k, v)].
Proof.
  induction d as [|[k0 v0] d IH]; intros Hk; [done|]. simpl.
  destruct (String.eqb k0 k) eqn:E.
  - apply String.eqb_eq in E as ->. exfalso. apply Hk. by left.
  - rewrite IH; [done|]. intros H. apply Hk. by right.
Qed.

(** Entries with different names and stripped codes are added as they
    are, in their order. *)
Lemma fold_matches_entries (d acc : Dict.dict string) :
  NoDup (Dict.keys acc ++ Dict.keys d) ->
  (forall k v, In (k, v) d -> trimmed v) ->
  fold_left add_match (map (fun entry => [fst entry; snd entry]) d) acc
  = acc ++ d.
Proof.
  revert acc. induction d as [|[k v] d IH]; intros acc Hnd Htrim.
  - by rewrite app_nil_r.
  - simpl. rewrite (strip_fixed v) by (apply (Htrim k); by left).
    simpl in Hnd. apply NoDup_app in Hnd as (Hacc & Hdisj & Hd).
    rewrite dict_set_new.
    + rewrite IH.
      * by rewrite <- app_assoc.
      * unfold Dict.keys in *. rewrite map_app. simpl.
        rewrite <- app_assoc. simpl.
        apply NoDup_app. split; [done|]. split; [|done].
        intros x Hx. by apply Hdisj.
      * intros k' v' Hin. apply (Htrim k'). by right.
    + intros Hk. apply (Hdisj k); [by apply list_elem_of_In|]. by left.
Qed.

(** The blocks of a mapping are found one after the other. *)
Lemma findall_blocks_of (d : Dict.dict string) :
  (forall k v, In (k, v) d -> is_name k /\ Py.str_in fence_close v = false) ->
  Re.findall code_block_pattern (blocks_of d)
  = map (fun entry => [fst entry; snd entry]) d.
Proof.
  induction d as [|[k v] d IH]; intros Hd; [reflexivity|].
  destruct (Hd k v) as [Hname Hfree]; [by left|].
  change (blocks_of ((k, v) :: d)) with (block_text " " k v +:+ blocks_of d).
  unfold Re.findall in *.
  pose proof (match_block_exact " " k v (blocks_of d) eq_refl Hname Hfree)
    as Hm.
  change (block_text " " k v)
    with (String "#" (String " " EmptyString +:+ k +:+ fence_open
                      +:+ v +:+ fence_close)) in *.
  rewrite (scan_match _ _ _ _ _ Hm). simpl. f_equal.
  apply IH. intros k' v' Hin. apply Hd. by right.
Qed.

Lemma parse_blocks_of_parsed (llm_response : string) :
  _extract_code_from_llm_response
    (blocks_of (_extract_code_from_llm_response llm_response))
  = _extract_code_from_llm_response llm_response.
Proof.
  set (d := _extract_code_from_llm_response llm_response).
  unfold _extract_code_from_llm_response at 1.
  rewrite findall_blocks_of, dict_of_matches_fold.
  - rewrite fold_matches_entries; [done| |].
    + apply extract_keys_NoDup.
    + intros k v Hin. by apply (parsed_entry llm_response k v).
  - intros k v Hin. destruct (parsed_entry llm_response k v Hin) as (? & _ & ?).
    done.
Qed.

(** C6. A reply without any block of the expected grammar (a line that
    names a file, then a fenced python block) is parsed to the empty
    mapping.  For every reply, with or without a block, the parser is a
    function of the reply alone, which reads neither the debugger nor its
    environment: equal replies give equal mappings.  And parsing is
    idempotent: the mapping of a reply, said back as one block for each
    of its entries, is parsed to that mapping again. *)
Theorem parser_empty_without_block (llm_response : string) :
  (~ contains_block llm_response ->
   _extract_code_from_llm_response llm_response = []) /\
  (forall again, again = llm_response ->
     _extract_code_from_llm_response again
     = _extract_code_from_llm_response llm_response) /\
  _extract_code_from_llm_response
    (blocks_of (_extract_code_from_llm_response llm_response))
  = _extract_code_from_llm_response llm_response.
Proof.
  split; [|split; [by intros ? ->|apply parse_blocks_of_parsed]].
  intros Hno. unfold _extract_code_from_llm_response.
  destruct (Re.findall code_block_pattern llm_response) as [|m ms] eqn:Hf; [done|].
  exfalso. apply Hno. apply findall_block_iff. by rewrite Hf.
Qed.

(** A reply whose fence does not say [python] has no block. *)
Lemma reply_wrong_fence_no_block : ~ contains_block Scenario.reply_wrong_fence.
Proof. intros H%findall_block_iff. apply H. vm_compute. reflexivity. Qed.

Lemma parser_empty_without_block_witness :
  ~ contains_block Scenario.reply_wrong_fence /\
  _extract_code_from_llm_response Scenario.reply_wrong_fence = [].
Proof.
  split; [exact reply_wrong_fence_no_block|].
  exact (proj1 (parser_empty_without_block Scenario.reply_wrong_fence)
           reply_wrong_fence_no_block).
Defined.

(** A reply with two blocks for one file and text around them: its
    mapping has one entry, and the block of that entry is parsed to it. *)
Lemma reply_twice_parsed_again :
  _extract_code_from_llm_response Scenario.reply_twice = [("a.py", "x = 2")] /\
  blocks_of (_extract_code_from_llm_response Scenario.reply_twice)
  = block_text " " "a.py" "x = 2" /\
  _extract_code_from_llm_response (block_text " " "a.py" "x = 2")
  = [("a.py", "x = 2")].
Proof. vm_compute. done. Qed.

(** ** The search query *)

Lemma match_dquote (a : ascii) (s : string) :
  Re.match_items (Re.lits dquote) (String a s)
  = if Ascii.eqb a "034" then Some ([], s) else None.
Proof. reflexivity. Qed.

Lemma no_dquote_before_end (q s : string) :
  (forall g1 g2, q = g1 +:+ g2 -> g2 <> EmptyString ->
     Re.match_items (Re.lits dquote) (g2 +:+ s) = None) ->
  string_forall (fun a => negb (Ascii.eqb a "034")) q = true.
Proof.
  induction q as [|a q IH]; intros Hmin; [done|].
  rewrite string_forall_cons. apply andb_true_iff. split.
  - specialize (Hmin EmptyString (String a q) eq_refl ltac:(done)).
    rewrite append_cons, match_dquote in Hmin. by destruct (Ascii.eqb a "034").
  - apply IH. intros g1 g2 -> Hne. by apply (Hmin (String a g1)).
Qed.

Lemma string_forall_and (P Q : ascii -> bool) (s : string) :
  string_forall (fun a => P a && Q a) s = string_forall P s && string_forall Q s.
Proof.
  induction s as [|a s IH]; [done|]. rewrite !string_forall_cons, IH.
  destruct (P a), (Q a), (string_forall P s); done.
Qed.

Lemma query_text_append (q post : string) :
  query_text q +:+ post
  = ("search_query: " +:+ dquote) +:+ q +:+ dquote +:+ post.
Proof. unfold query_text. by rewrite !append_assoc. Qed.

Lemma match_query_parts (s : string) caps rest :
  Re.match_items search_query_pattern s = Some (caps, rest) ->
  exists q, caps = [q] /\ s = query_text q +:+ rest /\
            string_forall query_char q = true.
Proof.
  unfold search_query_pattern. intros H.
  apply match_lits_inv in H as (s1 & -> & H). cbn [Re.match_items] in H.
  destruct (Re.star_lazy Re.NotNewline (Re.match_items (Re.lits dquote)) s1)
    as [[q [caps2 rest2]]|] eqn:Hlazy; [|done].
  injection H as <- <-.
  pose proof (star_lazy_sound _ _ _ _ _ Hlazy) as (s2' & _ & _ & Hall).
  apply star_lazy_minimal in Hlazy as (s2 & -> & Hk & Hmin).
  apply no_dquote_before_end in Hmin.
  rewrite <- (app_nil_r (Re.lits dquote)) in Hk.
  apply match_lits_inv in Hk as (s3 & -> & Hk). simpl in Hk. injection Hk as <- <-.
  exists q. split; [done|]. split.
  - by rewrite query_text_append.
  - unfold query_char. rewrite string_forall_and. apply andb_true_iff.
    split; [exact Hall|exact Hmin].
Qed.

Lemma match_query_complete (q post : string) :
  string_forall (Re.accepts Re.NotNewline) q = true ->
  is_Some (Re.match_items search_query_pattern (query_text q +:+ post)).
Proof.
  intros Hq. unfold search_query_pattern. rewrite query_text_append.
  rewrite match_lits_append. cbn [Re.match_items].
  destruct (star_lazy_complete Re.NotNewline (Re.match_items (Re.lits dquote))
              q (dquote +:+ post) ([], post) Hq) as [[g [caps rest]] ->]; [|done].
  rewrite <- (app_nil_r (Re.lits dquote)). by rewrite match_lits_append.
Qed.

(** The pattern is found exactly in the replies that hold a query. *)
Lemma search_query_found (reply : string) :
  is_Some (Re.search search_query_pattern reply) <-> has_query reply.
Proof.
  split.
  - intros [caps H]. apply search_sound in H as (pre & s' & rest & -> & Hm).
    apply match_query_parts in Hm as (q & _ & -> & Hq).
    exists pre, q, rest. split; [done|].
    unfold query_char in Hq. rewrite string_forall_and in Hq.
    by apply andb_true_iff in Hq as [Hq _].
  - intros (pre & q & post & -> & Hq).
    apply search_complete. by apply match_query_complete.
Qed.

(** ** Which exceptions a computation raises *)

Section RaisesOnly.
Context (P : Exn -> Prop).








End RaisesOnly.



Section FileErrors.
Context (env : Env) (self : Config).



End FileErrors.

(** The match that [re.search] returns is the leftmost one. *)
Lemma search_leftmost (p : list Re.item) (s : string) caps :
  Re.search p s = Some caps ->
  exists pre s' rest,
    s = pre +:+ s' /\ Re.match_items p s' = Some (caps, rest) /\
    forall pre1 s1,
      s = pre1 +:+ s1 -> (String.length pre1 < String.length pre)%nat ->
      Re.match_items p s1 = None.
Proof.
  induction s as [|a s IH]; simpl.
  - destruct (Re.match_items p EmptyString) as [[caps' rest]|] eqn:Hm; [|done].
    intros [= <-]. exists EmptyString, EmptyString, rest.
    split; [done|]. split; [done|]. intros pre1 s1 _ Hlt. simpl in Hlt. lia.
  - destruct (Re.match_items p (String a s)) as [[caps' rest]|] eqn:Hm.
    + intros [= <-]. exists EmptyString, (String a s), rest.
      split; [done|]. split; [done|]. intros pre1 s1 _ Hlt. simpl in Hlt. lia.
    + intros H. destruct (IH H) as (pre & s' & rest & -> & Hm' & Hleft).
      exists (String a pre), s', rest. split; [done|]. split; [done|].
      intros [|b pre1] s1 Hs Hlt.
      * rewrite append_empty_l in Hs. by subst s1.
      * rewrite !append_cons in Hs. injection Hs as -> Hs.
        apply (Hleft pre1 s1 Hs). simpl in Hlt. lia.
Qed.

(** X3. The query generator builds the prompt, asks the model once with
    the prompt for the query, and reads the reply.  An exception of the
    prompt or of the model goes through.  On a reply that holds
    [search_query: "q"] it returns the [q] of the first such text, up to
    its first double quote; on a reply that holds no such text it raises
    [AttributeError]. *)
Theorem search_query_outcome (env : Env) (self : Config) (st : State) :
  let result := CodeDebugger._generate_search_query_for_google env self st in
  match CodeDebugger._construct_prompt_for_llm env self EmptyString st with
  | (Ok prompt, asked) =>
      match generate_response env (clock asked) prompt (QUERY_SYSTEM_PROMPT env)
      with
      | None => result = (Raised ModelError, advance_clock asked)
      | Some reply =>
          (has_query reply ->
           exists pre q post,
             reply = pre +:+ query_text q +:+ post /\
             string_forall query_char q = true /\
             (forall pre' q' post',
                reply = pre' +:+ query_text q' +:+ post' ->
                string_forall (Re.accepts Re.NotNewline) q' = true ->
                (String.length pre <= String.length pre')%nat) /\
             result = (Ok q, advance_clock asked)) /\
          (~ has_query reply ->
           result = (Raised AttributeError, advance_clock asked))
      end
  | (Raised e, ended) => result = (Raised e, ended)
  | (OutOfFuel, _) => False
  end.
Proof.
  cbv zeta. unfold CodeDebugger._generate_search_query_for_google.
  rewrite bind_run.
  pose proof (quiet_construct_prompt env self EmptyString st) as [_ Hfuel].
  destruct (CodeDebugger._construct_prompt_for_llm env self EmptyString st)
    as [[prompt|e|] asked]; [|done|done].
  clear Hfuel. unfold CodeDebugger.call_model. rewrite !bind_run.
  change (tick asked) with (Ok (clock asked), advance_clock asked).
  cbv beta iota.
  destruct (generate_response env (clock asked) prompt (QUERY_SYSTEM_PROMPT env))
    as [reply|]; [|done].
  change (ret reply (advance_clock asked)) with (Ok reply, advance_clock asked).
  cbv beta iota.
  destruct (Re.search search_query_pattern reply) as [[|q caps]|] eqn:Hs.
  - apply search_sound in Hs as (pre & s' & rest & -> & Hm).
    by apply match_query_parts in Hm as (q & ? & _).
  - split; [|intros Hno; exfalso; apply Hno, search_query_found; by rewrite Hs].
    intros _.
    apply search_leftmost in Hs as (pre & s' & rest & -> & Hm & Hleft).
    apply match_query_parts in Hm as (q' & [= -> ->] & -> & Hq).
    exists pre, q', rest. split; [done|]. split; [done|]. split; [|done].
    intros pre' q'' post' Hreply Hq''.
    destruct (Nat.le_gt_cases (String.length pre) (String.length pre'))
      as [Hle|Hgt]; [done|].
    pose proof (Hleft pre' _ Hreply Hgt) as Hnone.
    destruct (match_query_complete q'' post' Hq'') as [x Hx].
    by rewrite Hx in Hnone.
  - split; [|done]. intros H%search_query_found. rewrite Hs in H. by destruct H.
Qed.

(** ** The check for remaining failures *)

Section Check.
Context (env : Env) (self : Config).

Lemma after_run_fields (f : string) (st : State) :
  attempt_count (after_run env self f st) = attempt_count st /\
  constant_error_count (after_run env self f st) = constant_error_count st /\
  last_error_signature (after_run env self f st) = last_error_signature st /\
  log (after_run env self f st) = log st /\
  clock (after_run env self f st) = S (clock st).
Proof. done. Qed.



End Check.


(** ** The prompt *)

Section Prompt.
Context (env : Env) (self : Config).



End Prompt.

Lemma str_in_refl (s : string) : Py.str_in s s = true.
Proof.
  rewrite <- (append_empty_r s) at 2. apply (str_in_intro s EmptyString).
Qed.




(** ** The content from the internet *)

Section Fetch.
Context (env : Env) (self : Config).

Lemma slice_to_In {A} (n : Z) (l : list A) (x : A) :
  In x (Py.slice_to n l) -> In x l.
Proof.
  unfold Py.slice_to. intros H.
  assert (Htake : forall k, In x (take k l) -> In x l).
  { intros k Hk. rewrite <- (take_drop k l). apply in_or_app. by left. }
  destruct (0 <=? n); by eapply Htake.
Qed.

Lemma slice_to_length {A} (n : Z) (l : list A) :
  0 <= n -> (length (Py.slice_to n l) <= Z.to_nat n)%nat.
Proof.
  intros Hn. unfold Py.slice_to.
  destruct (Z.leb_spec 0 n); [|lia]. rewrite length_take. lia.
Qed.

Lemma pages_loop_run (urls : list string) (acc : string) (st : State) :
  exists content st',
    for_fold urls acc
      (fun combined_content url =>
         t <- tick ;;
         match page_text env t url with
         | Some content =>
             ret (combined_content +:+ "### CONTENT FROM: " +:+ url
                  +:+ Py.nl +:+ content +:+ Py.nl +:+ Py.nl)
         | None => emit (LogFetchError url) ;;; ret combined_content
         end) st
    = (Ok content, st') /\
    clock st' = (length urls + clock st)%nat /\
    (content = acc \/
     exists t url text,
       In url urls /\ page_text env t url = Some text /\
       Py.str_in ("### CONTENT FROM: " +:+ url +:+ Py.nl +:+ text +:+ Py.nl)
         content = true).
Proof.
  revert acc st. induction urls as [|url urls IH]; intros acc st.
  - exists acc, st. by split; [|split; [|left]].
  - simpl. rewrite bind_run, bind_run.
    change (tick st) with (Ok (clock st), advance_clock st). cbv beta iota.
    destruct (page_text env (clock st) url) as [text|] eqn:Hpage.
    + change (ret ?a (advance_clock st)) with (Ok a, advance_clock st).
      cbv beta iota.
      destruct (IH (acc +:+ "### CONTENT FROM: " +:+ url
                    +:+ Py.nl +:+ text +:+ Py.nl +:+ Py.nl)
                  (advance_clock st)) as (content & st' & -> & Hclock & Hc).
      exists content, st'. split; [done|]. split; [simpl in Hclock; lia|].
      right. destruct Hc as [->|(t & u & x & Hu & Hx & Hin)].
      * exists (clock st), url, text. split; [by left|]. split; [done|].
        apply str_in_append_r.
        pose proof (str_in_append_l _ _ Py.nl
          (str_in_refl ("### CONTENT FROM: " +:+ url +:+ Py.nl
                        +:+ text +:+ Py.nl))) as Hpiece.
        by rewrite !append_assoc in Hpiece.
      * exists t, u, x. split; [by right|done].
    + rewrite bind_run.
      change (emit (LogFetchError url) (advance_clock st))
        with (Ok tt, add_event (LogFetchError url) (advance_clock st)).
      cbv beta iota.
      change (ret acc (add_event (LogFetchError url) (advance_clock st)))
        with (Ok acc, add_event (LogFetchError url) (advance_clock st)).
      cbv beta iota.
      destruct (IH acc (add_event (LogFetchError url) (advance_clock st)))
        as (content & st' & -> & Hclock & Hc).
      exists content, st'. split; [done|]. split; [simpl in Hclock; lia|].
      destruct Hc as [->|(t & u & x & Hu & Hx & Hin)]; [by left|].
      right. exists t, u, x. split; [by right|done].
Qed.

End Fetch.

(** X6. [_fetch_internet_content] never raises: a failed search and a
    failed page are logged and skipped.  It changes nothing but the log
    and the clock, and nothing at all when the search is switched off.
    Content that is not empty holds the section of a page that was fetched
    from a link of the result page that starts with [https].  With a limit
    that is not negative, at most that many pages are requested after the
    search itself. *)
Theorem fetched_content_comes_from_https_links (env : Env) (self : Config)
    (search_query : string) (num_urls : Z) (st : State) :
  let result :=
    CodeDebugger._fetch_internet_content env self search_query num_urls st in
  exists content,
    fst result = Ok content /\
    steady st (snd result) /\
    (enable_internet_search self = false ->
     content = EmptyString /\ snd result = st) /\
    (content <> EmptyString ->
     exists links t url text,
       search_page_links env (clock st)
         ("https://www.google.com/search?q=" +:+ dquote +:+ search_query
          +:+ dquote) = Some links /\
       In url links /\ Py.startswith url "https" = true /\
       page_text env t url = Some text /\
       Py.str_in ("### CONTENT FROM: " +:+ url +:+ Py.nl +:+ text +:+ Py.nl)
         content = true) /\
    (0 <= num_urls ->
     (clock (snd result) <= 1 + Z.to_nat num_urls + clock st)%nat).
Proof.
  cbv zeta.
  pose proof (steady_fetch_internet_content env self search_query num_urls st)
    as [Hsteady _].
  revert Hsteady. unfold CodeDebugger._fetch_internet_content.
  destruct (enable_internet_search self); cbn [negb]; cbv iota.
  2: { intros _. exists EmptyString. simpl.
       repeat split; try done. by exists []; rewrite app_nil_r. lia. }
  rewrite bind_run. unfold CodeDebugger.internet_search. cbv zeta.
  rewrite bind_run.
  change (tick st) with (Ok (clock st), advance_clock st). cbv beta iota.
  destruct (search_page_links env (clock st) _) as [links|] eqn:Hsearch.
  - change (ret ?a (advance_clock st)) with (Ok a, advance_clock st).
    cbv beta iota.
    destruct (List.filter _ links) as [|u us] eqn:Hfilter.
    + intros Hsteady. exists EmptyString. simpl.
      repeat split; try done; try apply Hsteady. lia.
    + rewrite <- Hfilter.
      destruct (pages_loop_run env
                  (Py.slice_to num_urls
                     (List.filter (fun url => Py.startswith url "https") links))
                  EmptyString (advance_clock st))
        as (content & st' & -> & Hclock & Hc).
      intros Hsteady. exists content. simpl in *.
      split; [done|]. split; [done|]. split; [done|]. split.
      * intros Hne. destruct Hc as [->|(t & url & text & Hu & Hx & Hin)]; [done|].
        apply slice_to_In, filter_In in Hu as [Hu Hhttps].
        by exists links, t, url, text.
      * intros Hn. pose proof (slice_to_length num_urls
          (List.filter (fun url => Py.startswith url "https") links) Hn). lia.
  - rewrite bind_run.
    change (emit PrintSearchError (advance_clock st))
      with (Ok tt, add_event PrintSearchError (advance_clock st)).
    cbv beta iota.
    intros Hsteady. exists EmptyString. simpl in *.
    repeat split; try done; try apply Hsteady. lia.
Qed.

(** ** The distance between two searches *)

Lemma last_cons_default (l : list Z) (m d : Z) :
  List.last (m :: l) d = List.last l m.
Proof.
  revert m d. induction l as [|k l IH]; intros m d; [done|].
  change (List.last (m :: k :: l) d) with (List.last (k :: l) d).
  by rewrite (IH k d), (IH k m).
Qed.

Lemma apart_snoc (gap prev n : Z) (l : list Z) :
  apart gap prev (l ++ [n]) <-> apart gap prev l /\ List.last l prev + gap <= n.
Proof.
  revert prev. induction l as [|m l IH]; intros prev.
  - simpl. tauto.
  - change (apart gap prev ((m :: l) ++ [n]))
      with (prev + gap <= m /\ apart gap m (l ++ [n])).
    rewrite IH, last_cons_default. simpl. tauto.
Qed.

Lemma last_In_or_default (l : list Z) (d : Z) :
  List.last l d = d /\ l = [] \/ In (List.last l d) l.
Proof.
  induction l as [|m l IH]; [by left|]. right.
  destruct l as [|k l]; [by left|].
  change (List.last (m :: k :: l) d) with (List.last (k :: l) d).
  destruct IH as [[_ ?]|IH]; [done|]. by right.
Qed.

Section Spacing.
Context (env : Env) (self : Config).

Lemma tracked_count_bounds (st : State) (signature : string) :
  0 <= constant_error_count st ->
  0 <= tracked_count st signature <= constant_error_count st + 1 /\
  (last_error_signature st = EmptyString -> tracked_count st signature = 0).
Proof.
  intros H. unfold tracked_count.
  destruct (String.eqb signature (last_error_signature st)) eqn:E; simpl.
  - apply String.eqb_eq in E as ->.
    destruct (Py.is_empty (last_error_signature st)) eqn:Hempty; simpl.
    + split; [lia|done].
    + split; [lia|]. intros Hlast. by rewrite Hlast in Hempty.
  - split; [lia|done].
Qed.

(** The searches made so far are apart, none is later than the last
    attempt, and the counter is no more than the number of attempts since
    the last search.  An attempt keeps this; when it does not end well, it
    keeps the part about the log. *)
Lemma spacing_invariant_step (st st' : State) (o : Outcome bool) :
  1 <= internet_search_threshold self ->
  0 <= attempt_count st ->
  (attempt_count st = 0 -> last_error_signature st = EmptyString) ->
  0 <= constant_error_count st ->
  apart (internet_search_threshold self) 1 (escalation_attempts (log st)) ->
  (forall n, In n (escalation_attempts (log st)) -> n <= attempt_count st) ->
  constant_error_count st
  <= Z.max 0 (attempt_count st - List.last (escalation_attempts (log st)) 1) ->
  CodeDebugger.attempt env self st = (o, st') ->
  1 <= attempt_count st' /\
  apart (internet_search_threshold self) 1 (escalation_attempts (log st')) /\
  (forall n, In n (escalation_attempts (log st')) -> n <= attempt_count st') /\
  (forall error_exists, o = Ok error_exists ->
   0 <= constant_error_count st' /\
   constant_error_count st'
   <= Z.max 0 (attempt_count st' - List.last (escalation_attempts (log st')) 1)).
Proof.
  intros Hth Hpos Hfirst Hc Hapart Hrange Hbound Hrun.
  pose proof (attempt_escalation_attempts env self _ _ _ Hrun) as Hlist.
  pose proof (attempt_run env self _ _ _ Hrun) as (_ & Hcount & _).
  destruct (tracked_count_bounds st
    (Py.join (failure_texts env self (clock st) (disk st))) Hc) as [Htr Hzero].
  set (tracked := tracked_count st
    (Py.join (failure_texts env self (clock st) (disk st)))) in *.
  rewrite Hlist, Hcount. clear Hlist.
  assert (Hlast : List.last (escalation_attempts (log st)) 1 <= attempt_count st
                  \/ attempt_count st = 0 /\ escalation_attempts (log st) = []).
  { destruct (last_In_or_default (escalation_attempts (log st)) 1)
      as [[Hl Hnil]|Hin].
    - rewrite Hl. destruct (Z.eq_dec (attempt_count st) 0); [by right|left; lia].
    - left. by apply Hrange. }
  assert (Htracked : tracked
    <= attempt_count st + 1 - List.last (escalation_attempts (log st)) 1).
  { destruct Hlast as [Hlast|[Hzero' Hnil]].
    - lia.
    - rewrite Hnil. simpl. rewrite (Hzero (Hfirst Hzero')). lia. }
  destruct (escalated st st') eqn:Hasked.
  - pose proof (attempt_escalated_true env self _ _ _ Hrun Hasked) as Hesc.
    fold tracked in Hesc.
    pose proof Hesc as Hge. unfold escalating in Hge.
    apply andb_true_iff in Hge as [_ Hge%Z.leb_le].
    split; [lia|]. split; [|split].
    + apply apart_snoc. split; [done|]. lia.
    + intros n [Hin|[<-|[]]]%in_app_iff; [|lia]. apply Hrange in Hin. lia.
    + intros ee ->.
      destruct (attempt_ok_run env self _ _ _ Hrun) as (_ & _ & _ & Hc' & _).
      fold tracked in Hc'. rewrite Hesc in Hc'. rewrite Hc'. lia.
  - rewrite app_nil_r. split; [lia|]. split; [done|]. split.
    + intros n Hin. apply Hrange in Hin. lia.
    + intros ee ->.
      destruct (attempt_ok_run env self _ _ _ Hrun) as (_ & _ & _ & Hc' & _).
      pose proof (attempt_ok_escalated env self _ _ _ Hrun) as Hesc.
      rewrite Hasked in Hesc. fold tracked in Hc', Hesc.
      rewrite <- Hesc in Hc'. rewrite Hc'. lia.
Qed.

Lemma session_searches_apart (d : gmap string string) :
  1 <= internet_search_threshold self ->
  apart (internet_search_threshold self) 1
    (escalation_attempts
       (log (snd (CodeDebugger.debug env self (initial_state d))))).
Proof.
  intros Hth.
  assert (Hloop : forall fuel error_exists st,
    0 <= attempt_count st ->
    (attempt_count st = 0 -> last_error_signature st = EmptyString) ->
    0 <= constant_error_count st ->
    apart (internet_search_threshold self) 1 (escalation_attempts (log st)) ->
    (forall n, In n (escalation_attempts (log st)) -> n <= attempt_count st) ->
    constant_error_count st
    <= Z.max 0 (attempt_count st - List.last (escalation_attempts (log st)) 1) ->
    apart (internet_search_threshold self) 1
      (escalation_attempts
         (log (snd (CodeDebugger.while_loop env self fuel error_exists st))))).
  { induction fuel as [|fuel IH];
      intros ee st Hpos Hfirst Hc Hapart Hrange Hbound; simpl.
    - by destruct (ee && _).
    - destruct (ee && _); [|done]. rewrite bind_run.
      destruct (CodeDebugger.attempt env self st) as [o st1] eqn:Hrun.
      destruct (spacing_invariant_step st st1 o Hth Hpos Hfirst Hc Hapart
                  Hrange Hbound Hrun) as (Hpos1 & Hapart1 & Hrange1 & Hok).
      destruct o as [ee1|e|]; simpl; [|done|done].
      destruct (Hok ee1 eq_refl) as [Hc1 Hbound1].
      apply IH; try done; lia. }
  rewrite debug_run.
  specialize (Hloop (Z.to_nat (max_attempts self - attempt_count (initial_state d)))
                true (initial_state d)).
  destruct (CodeDebugger.while_loop _ _ _ _ _) as [[[]|e|] st1]; simpl in *.
  - assert (H1 : apart (internet_search_threshold self) 1
                   (escalation_attempts (log st1))).
    { apply Hloop; try done; try lia. }
    destruct (_ <=? _); simpl; [|done].
    unfold escalation_attempts. by rewrite escalation_attempts_from_max.
  - apply Hloop; try done; try lia.
  - apply Hloop; try done; try lia.
Qed.

End Spacing.

(** X7. In a session with a threshold of at least one, however it ends,
    the attempts that ask the internet are at least [threshold] attempts
    apart, and the first of them is no earlier than attempt
    [threshold + 1]: the counter starts a new count after each search and
    grows by at most one in an attempt. *)
Theorem searches_are_threshold_apart (env : Env) (self : Config)
    (d : gmap string string) :
  1 <= internet_search_threshold self ->
  apart (internet_search_threshold self) 1
    (escalation_attempts
       (log (snd (CodeDebugger.debug env self (initial_state d))))).
Proof. apply session_searches_apart. Qed.

(** A file that keeps failing, with threshold two and seven attempts: the
    searches are made in attempts 3, 5 and 7. *)
Lemma searches_are_threshold_apart_witness :
  escalation_attempts
    (log (snd (CodeDebugger.debug Scenario.env_stuck (Scenario.config 7 2)
                 (initial_state Scenario.directory))))
  = [3; 5; 7] /\
  apart 2 1
    (escalation_attempts
       (log (snd (CodeDebugger.debug Scenario.env_stuck (Scenario.config 7 2)
                    (initial_state Scenario.directory))))).
Proof.
  split; [vm_compute; reflexivity|].
  apply (searches_are_threshold_apart Scenario.env_stuck (Scenario.config 7 2)
           Scenario.directory).
  vm_compute. discriminate.
Defined.

(** ** The switch of the search *)

Lemma bind_ext {A B} (m m' : M A) (f f' : A -> M B) (st : State) :
  m st = m' st -> (forall a s, f a s = f' a s) -> bind m f st = bind m' f' st.
Proof.
  intros Hm Hf. rewrite !bind_run, Hm.
  destruct (m' st) as [[a|e|] s]; [apply Hf|done|done].
Qed.

Lemma build_prompt_disabled (env : Env) (self : Config) (st : State) :
  enable_internet_search self = false ->
  CodeDebugger.build_prompt env self st
  = CodeDebugger._construct_prompt_for_llm env self EmptyString st.
Proof.
  intros Hoff. unfold CodeDebugger.build_prompt. rewrite bind_run.
  change (get_state st) with (Ok st, st). cbv beta iota.
  unfold CodeDebugger.escalates. by rewrite Hoff.
Qed.

Section Switch.
Context (env : Env) (self : Config).

Lemma attempt_without_search links pages query_prompt (st : State) :
  enable_internet_search self = false ->
  CodeDebugger.attempt (with_search env links pages query_prompt) self st
  = CodeDebugger.attempt env self st.
Proof.
  intros Hoff. unfold CodeDebugger.attempt.
  apply bind_ext; [reflexivity|intros [] s1].
  apply bind_ext; [reflexivity|intros signature s2].
  apply bind_ext; [reflexivity|intros [] s3].
  apply bind_ext; [|reflexivity].
  rewrite !build_prompt_disabled by done. reflexivity.
Qed.

Lemma while_loop_without_search links pages query_prompt (fuel : nat)
    (error_exists : bool) (st : State) :
  enable_internet_search self = false ->
  CodeDebugger.while_loop (with_search env links pages query_prompt) self
    fuel error_exists st
  = CodeDebugger.while_loop env self fuel error_exists st.
Proof.
  intros Hoff. revert error_exists st.
  induction fuel as [|fuel IH]; intros error_exists st; [done|].
  simpl. destruct (error_exists && _); [|done].
  apply bind_ext; [by apply attempt_without_search|apply IH].
Qed.

Lemma attempts_logged_snoc_max (l : list Event) :
  attempts_logged (l ++ [LogMaxAttempts]) = attempts_logged l.
Proof. rewrite attempts_logged_app. simpl. by rewrite app_nil_r. Qed.

(** A property of the log that every attempt keeps, however it ends, and
    that the last line of [debug] keeps, holds when [debug] ends. *)
Lemma debug_log_invariant (I : State -> Prop) (J : list Event -> Prop)
    (st : State) :
  (forall st o st',
     I st -> J (log st) -> CodeDebugger.attempt env self st = (o, st') ->
     J (log st') /\ (forall error_exists, o = Ok error_exists -> I st')) ->
  (forall l, J l -> J (l ++ [LogMaxAttempts])) ->
  I st -> J (log st) ->
  J (log (snd (CodeDebugger.debug env self st))).
Proof.
  intros Hstep Hmax HI HJ.
  assert (Hloop : forall fuel error_exists st,
    I st -> J (log st) ->
    J (log (snd (CodeDebugger.while_loop env self fuel error_exists st)))).
  { clear st HI HJ.
    induction fuel as [|fuel IH]; intros ee st HI HJ; simpl.
    - by destruct (ee && _).
    - destruct (ee && _); [|done]. rewrite bind_run.
      destruct (CodeDebugger.attempt env self st) as [o st1] eqn:Hrun.
      destruct (Hstep st o st1 HI HJ Hrun) as [HJ1 HI1].
      destruct o as [ee1|e|]; simpl; [|done|done].
      apply IH; eauto. }
  rewrite debug_run.
  specialize (Hloop (Z.to_nat (max_attempts self - attempt_count st)) true st
                HI HJ).
  destruct (CodeDebugger.while_loop _ _ _ _ _) as [[[]|e|] st1]; simpl in *;
    [|done|done].
  destruct (_ <=? _); simpl; [|done]. by apply Hmax.
Qed.

(** The same with the way in which [debug] ends: an attempt that ends
    with an exception ends [debug] with it, in the state it has left. *)
Lemma debug_outcome_invariant (I : State -> Prop) (J : list Event -> Prop)
    (K : Exn -> State -> Prop) (st : State) :
  (forall st o st',
     I st -> J (log st) -> CodeDebugger.attempt env self st = (o, st') ->
     match o with
     | Ok _ => J (log st') /\ I st'
     | Raised e => K e st'
     | OutOfFuel => True
     end) ->
  (forall l, J l -> J (l ++ [LogMaxAttempts])) ->
  I st -> J (log st) ->
  match fst (CodeDebugger.debug env self st) with
  | Raised e => K e (snd (CodeDebugger.debug env self st))
  | _ => J (log (snd (CodeDebugger.debug env self st)))
  end.
Proof.
  intros Hstep Hmax HI HJ.
  assert (Hloop : forall fuel error_exists st,
    I st -> J (log st) ->
    match fst (CodeDebugger.while_loop env self fuel error_exists st) with
    | Raised e =>
        K e (snd (CodeDebugger.while_loop env self fuel error_exists st))
    | _ => J (log (snd (CodeDebugger.while_loop env self fuel error_exists st)))
    end).
  { clear st HI HJ.
    induction fuel as [|fuel IH]; intros ee st HI HJ; simpl.
    - by destruct (ee && _).
    - destruct (ee && _); [|done]. rewrite bind_run.
      destruct (CodeDebugger.attempt env self st) as [o st1] eqn:Hrun.
      pose proof (Hstep st o st1 HI HJ Hrun) as H1.
      destruct o as [ee1|e|]; simpl.
      + destruct H1 as [HJ1 HI1]. by apply IH.
      + exact H1.
      + by apply attempt_run in Hrun as (? & _). }
  rewrite debug_run.
  specialize (Hloop (Z.to_nat (max_attempts self - attempt_count st)) true st
                HI HJ).
  destruct (CodeDebugger.while_loop _ _ _ _ _) as [[[]|e|] st1]; simpl in *;
    [|done|done].
  destruct (_ <=? _); simpl; [|done]. by apply Hmax.
Qed.

Lemma run_error_is_run_error (t : nat) (d : gmap string string)
    (files : list string) (e : Exn) :
  run_error env self t d files = Some e -> is_run_error e.
Proof.
  revert t d. induction files as [|f files IH]; intros t d; simpl; [done|].
  destruct (run_raises env self t d f); [|apply IH].
  by intros [= <-].
Qed.

End Switch.

(** X8. With the search switched off, [debug] does not depend on the
    result page, on the pages or on the prompt for the query: with any
    others it ends in the same way in the same state.  No attempt of the
    session asks the internet, however often the same failure is seen. *)
Theorem search_switched_off_is_never_used (env : Env) (self : Config)
    (links : nat -> string -> option (list string))
    (pages : nat -> string -> option string) (query_prompt : string) :
  enable_internet_search self = false ->
  (forall st,
     CodeDebugger.debug (with_search env links pages query_prompt) self st
     = CodeDebugger.debug env self st) /\
  (forall d,
     escalation_attempts
       (log (snd (CodeDebugger.debug env self (initial_state d)))) = []).
Proof.
  intros Hoff. split.
  - intros st. rewrite !debug_run.
    by rewrite while_loop_without_search.
  - intros d.
    apply (debug_log_invariant env self (fun _ => True)
             (fun l => escalation_attempts l = [])); try done.
    + intros st o st' _ HJ Hrun. split; [|done].
      rewrite (attempt_escalation_attempts env self _ _ _ Hrun), HJ.
      rewrite (attempt_escalated env self _ _ _ Hrun).
      unfold escalating. rewrite Hoff. by rewrite andb_false_r.
    + intros l Hl. unfold escalation_attempts in *.
      by rewrite escalation_attempts_from_max.
Qed.

(** A file that keeps failing is debugged with the search switched off:
    links and pages that would have been found change nothing. *)
Lemma search_switched_off_is_never_used_witness :
  CodeDebugger.debug
    (with_search Scenario.env_stuck
       (fun _ _ => Some ["https://example.org"]) (fun _ _ => Some "text")
       "other")
    (config_offline 4 1) (initial_state Scenario.directory)
  = CodeDebugger.debug Scenario.env_stuck (config_offline 4 1)
      (initial_state Scenario.directory) /\
  escalation_attempts
    (log (snd (CodeDebugger.debug Scenario.env_stuck (config_offline 4 1)
                 (initial_state Scenario.directory)))) = [].
Proof.
  destruct (search_switched_off_is_never_used Scenario.env_stuck
              (config_offline 4 1)
              (fun _ _ => Some ["https://example.org"]) (fun _ _ => Some "text")
              "other" eq_refl) as [Hsame Hnone].
  split; [apply Hsame|apply Hnone].
Defined.

(** X9. With the search switched on and a threshold of zero or less,
    every attempt of a session whose first run over the files returns
    asks the internet, the first attempt included and whether or not a
    file fails: the counter is never negative.  So the attempts that ask
    the internet are the attempts of the session, unless the session is
    ended by a call of [subprocess.run] that raises; then they are the
    attempts of the session or all of them but the last. *)
Theorem threshold_zero_searches_in_every_attempt (env : Env) (self : Config)
    (d : gmap string string) :
  enable_internet_search self = true ->
  internet_search_threshold self <= 0 ->
  let result := CodeDebugger.debug env self (initial_state d) in
  escalation_attempts (log (snd result)) = attempts_logged (log (snd result)) \/
  exists path,
    fst result = Raised (RunError path) /\
    attempts_logged (log (snd result))
    = escalation_attempts (log (snd result)) ++ [attempt_count (snd result)].
Proof.
  intros Hon Hth. cbv zeta.
  pose proof (debug_terminates env self (initial_state d)) as Hfuel.
  pose proof (debug_outcome_invariant env self
           (fun st => 0 <= constant_error_count st)
           (fun l => escalation_attempts l = attempts_logged l)
           (fun e st' =>
              escalation_attempts (log st') = attempts_logged (log st') \/
              is_run_error e /\
              attempts_logged (log st')
              = escalation_attempts (log st') ++ [attempt_count st'])
           (initial_state d)) as H.
  cbv beta in H.
  assert (Hend :
    match fst (CodeDebugger.debug env self (initial_state d)) with
    | Raised e =>
        escalation_attempts
          (log (snd (CodeDebugger.debug env self (initial_state d))))
        = attempts_logged
            (log (snd (CodeDebugger.debug env self (initial_state d)))) \/
        is_run_error e /\
        attempts_logged
          (log (snd (CodeDebugger.debug env self (initial_state d))))
        = escalation_attempts
            (log (snd (CodeDebugger.debug env self (initial_state d))))
          ++ [attempt_count (snd (CodeDebugger.debug env self (initial_state d)))]
    | _ =>
        escalation_attempts
          (log (snd (CodeDebugger.debug env self (initial_state d))))
        = attempts_logged
            (log (snd (CodeDebugger.debug env self (initial_state d))))
    end).
  { apply H; try done.
    - intros st o st' Hc HJ Hrun.
      pose proof (attempt_escalated env self _ _ _ Hrun) as Hesc.
      pose proof (attempt_escalation_attempts env self _ _ _ Hrun) as Hlist.
      pose proof (attempt_logs_its_number env self _ _ _ Hrun) as Hnum.
      pose proof (attempt_run env self _ _ _ Hrun) as (Hfuel' & Hcount & Hcase).
      cbv zeta in Hcase.
      destruct (tracked_count_bounds st
        (Py.join (failure_texts env self (clock st) (disk st))) Hc) as [Htr _].
      assert (Hasks : escalating self
        (tracked_count st
           (Py.join (failure_texts env self (clock st) (disk st))))
        = true) by (unfold escalating; rewrite Hon; apply Z.leb_le; lia).
      unfold runs_return in Hesc.
      destruct (run_error env self (clock st) (disk st) (files_to_debug self))
        as [e'|] eqn:Herr.
      + destruct Hcase as (-> & _). right.
        split; [by eapply run_error_is_run_error|].
        rewrite Hlist, Hnum, Hesc, Hcount, app_nil_r. by rewrite HJ.
      + destruct Hcase as [_ Hok]. rewrite Hasks in Hesc. simpl in Hesc.
        assert (HJ' : escalation_attempts (log st') = attempts_logged (log st'))
          by (by rewrite Hlist, Hnum, Hesc, HJ).
        destruct o as [ee|e'|]; [|by left|done].
        split; [done|].
        destruct (Hok ee eq_refl) as (_ & Hc' & _).
        rewrite Hasks in Hc'. rewrite Hc'. lia.
    - intros l Hl. unfold escalation_attempts in *.
      by rewrite escalation_attempts_from_max, attempts_logged_snoc_max. }
  destruct (fst (CodeDebugger.debug env self (initial_state d))) as [u|e|];
    [by left| |done].
  destruct Hend as [Hend|[He Hend]]; [by left|].
  destruct e; try done. right. by eexists.
Qed.

(** A file that keeps failing, with threshold zero and three attempts. *)
Lemma threshold_zero_searches_in_every_attempt_witness :
  escalation_attempts
    (log (snd (CodeDebugger.debug Scenario.env_stuck (Scenario.config 3 0)
                 (initial_state Scenario.directory))))
  = [1; 2; 3] /\
  (escalation_attempts
     (log (snd (CodeDebugger.debug Scenario.env_stuck (Scenario.config 3 0)
                  (initial_state Scenario.directory))))
   = attempts_logged
       (log (snd (CodeDebugger.debug Scenario.env_stuck (Scenario.config 3 0)
                    (initial_state Scenario.directory)))) \/
   exists path,
     fst (CodeDebugger.debug Scenario.env_stuck (Scenario.config 3 0)
            (initial_state Scenario.directory))
     = Raised (RunError path) /\
     attempts_logged
       (log (snd (CodeDebugger.debug Scenario.env_stuck (Scenario.config 3 0)
                    (initial_state Scenario.directory))))
     = escalation_attempts
         (log (snd (CodeDebugger.debug Scenario.env_stuck (Scenario.config 3 0)
                      (initial_state Scenario.directory))))
       ++ [attempt_count
             (snd (CodeDebugger.debug Scenario.env_stuck (Scenario.config 3 0)
                     (initial_state Scenario.directory)))]).
Proof.
  split; [vm_compute; reflexivity|].
  apply (threshold_zero_searches_in_every_attempt Scenario.env_stuck
           (Scenario.config 3 0) Scenario.directory).
  - reflexivity.
  - vm_compute. discriminate.
Defined.

(** When the first call of [subprocess.run] raises, the session ends in
    its first attempt, which is logged and does not ask the internet. *)
Lemma raising_run_ends_session_before_search :
  let result :=
    CodeDebugger.debug (env_run_raises_from 0) (Scenario.config 3 0)
      (initial_state Scenario.directory) in
  fst result = Raised (RunError "proj/a.py") /\
  attempts_logged (log (snd result)) = [1] /\
  escalation_attempts (log (snd result)) = [].
Proof. vm_compute. done. Qed.

(** ** A call of [debug] and the budget *)

Section Budget.
Context (env : Env) (self : Config).

Lemma numbering_step (st0 st st' : State) (o : Outcome bool) :
  attempt_count st0 <= attempt_count st ->
  attempts_logged (log st)
  = attempts_logged (log st0)
    ++ seqZ (attempt_count st0 + 1) (attempt_count st - attempt_count st0) ->
  CodeDebugger.attempt env self st = (o, st') ->
  attempts_logged (log st')
  = attempts_logged (log st0)
    ++ seqZ (attempt_count st0 + 1) (attempt_count st' - attempt_count st0).
Proof.
  intros Hle Hl Hrun.
  rewrite (attempt_logs_its_number env self _ _ _ Hrun),
    (attempt_adds_one env self _ _ _ Hrun), Hl.
  replace (attempt_count st + 1 - attempt_count st0)
    with ((attempt_count st - attempt_count st0) + 1) by lia.
  rewrite seqZ_app by lia. rewrite <- app_assoc. do 2 f_equal.
  unfold seqZ. simpl. f_equal. lia.
Qed.

End Budget.

(** X10. A call of [debug] makes an attempt exactly when the counter is
    below the budget, whether or not a file fails.  At or above the
    budget, a first call with a budget of zero or a call on a debugger
    that has used its budget, it runs nothing and only logs that the
    maximum is reached.  Below the budget it makes at least one attempt
    and never goes beyond the budget, and it numbers its attempts from the
    counter on, however it ends. *)
Theorem debug_attempts_while_budget_remains (env : Env) (self : Config)
    (st : State) :
  let result := CodeDebugger.debug env self st in
  if max_attempts self <=? attempt_count st
  then result = (Ok tt, add_event LogMaxAttempts st)
  else
    attempt_count st + 1 <= attempt_count (snd result) <= max_attempts self /\
    attempts_logged (log (snd result))
    = attempts_logged (log st)
      ++ seqZ (attempt_count st + 1)
           (attempt_count (snd result) - attempt_count st).
Proof.
  cbv zeta. rewrite debug_run.
  destruct (Z.leb_spec (max_attempts self) (attempt_count st)) as [Hle|Hlt].
  - rewrite while_loop_exit.
    + by destruct (Z.leb_spec (max_attempts self) (attempt_count st)); [|lia].
    + apply andb_false_iff. right. apply Z.ltb_ge. lia.
  - destruct (Z.to_nat (max_attempts self - attempt_count st)) as [|fuel] eqn:Hfuel;
      [lia|].
    rewrite while_loop_step
      by (apply andb_true_iff; split; [done|apply Z.ltb_lt; lia]).
    rewrite bind_run.
    destruct (CodeDebugger.attempt env self st) as [o st1] eqn:Hrun.
    pose proof (attempt_adds_one env self _ _ _ Hrun) as Hone.
    assert (Hnum : attempts_logged (log st1)
      = attempts_logged (log st)
        ++ seqZ (attempt_count st + 1) (attempt_count st1 - attempt_count st)).
    { apply (numbering_step env self st st st1 o); [lia| |done].
      rewrite Z.sub_diag. unfold seqZ. simpl. by rewrite app_nil_r. }
    destruct o as [ee|e|]; [|simpl; split; [lia|done]|simpl; split; [lia|done]].
    assert (Hinv :
      (attempt_count st + 1
       <= attempt_count (snd (CodeDebugger.while_loop env self fuel ee st1))
       <= max_attempts self) /\
      attempts_logged (log (snd (CodeDebugger.while_loop env self fuel ee st1)))
      = attempts_logged (log st)
        ++ seqZ (attempt_count st + 1)
             (attempt_count (snd (CodeDebugger.while_loop env self fuel ee st1))
              - attempt_count st)).
    { apply (while_loop_invariant env self
        (fun s =>
           (attempt_count st + 1 <= attempt_count s <= max_attempts self) /\
           attempts_logged (log s)
           = attempts_logged (log st)
             ++ seqZ (attempt_count st + 1) (attempt_count s - attempt_count st))).
      - intros s o s' [Hb Hl] Hbelow Hstep.
        pose proof (attempt_adds_one env self _ _ _ Hstep).
        split; [lia|].
        apply (numbering_step env self st s s' o); [lia|done|done].
      - split; [lia|done]. }
    destruct (CodeDebugger.while_loop env self fuel ee st1) as [[[]|e|] st2];
      simpl in *; [|done|done].
    destruct (max_attempts self <=? attempt_count st2); simpl.
    + rewrite attempts_logged_snoc_max. done.
    + done.
Qed.

(** ** The files that a session writes *)

#[local] Instance untouched_preorder (P : string -> Prop) : PreOrder (untouched P).
Proof.
  split.
  - by intros st path _.
  - intros st1 st2 st3 H12 H23 path HP. by rewrite (H23 path HP), (H12 path HP).
Qed.





(** The files in [P] are files that the programs under repair leave
    alone, whenever they are run. *)
Section Untouched.
Context (env : Env) (self : Config) (P : string -> Prop).
Hypothesis programs_leave_alone :
  forall t d path file, P file -> python_writes env t d path !! file = d !! file.













End Untouched.


Section Session.
Context (env : Env) (self : Config).


End Session.





(** ** Applying a reply *)

Section Apply.
Context (env : Env) (self : Config).

Lemma read_loop_run (keys : list string) (acc : Dict.dict string) (st : State) :
  match
    List.find
      (fun filename =>
         negb (readable env (clock st) (disk st)
                 (Py.path_join (code_dir self) filename))) keys
  with
  | Some filename =>
      for_fold keys acc
        (fun code_before_change filename =>
           content <- CodeDebugger.read_text env
                        (Py.path_join (code_dir self) filename) ;;
           ret (Dict.set filename content code_before_change)) st
      = (Raised (read_error env (disk st)
                   (Py.path_join (code_dir self) filename)), st)
  | None =>
      exists code_before_change,
        for_fold keys acc
          (fun code_before_change filename =>
             content <- CodeDebugger.read_text env
                          (Py.path_join (code_dir self) filename) ;;
             ret (Dict.set filename content code_before_change)) st
        = (Ok code_before_change, st) /\
        (forall filename, In filename keys ->
           Dict.get filename code_before_change
           = Py.universal_newlines <$> disk st !! file_of env self filename) /\
        (forall filename, ~ In filename keys ->
           Dict.get filename code_before_change = Dict.get filename acc)
  end.
Proof.
  revert acc. induction keys as [|k ks IH]; intros acc.
  - simpl. exists acc. done.
  - simpl. rewrite bind_run, bind_run, read_text_run.
    unfold readable at 1. unfold read_error at 1.
    destruct (disk st !! realpath env (Py.path_join (code_dir self) k))
      as [content|] eqn:E; [|cbn [negb]; cbv iota; by rewrite E].
    destruct (can_read env (clock st) (disk st) _);
      [|cbn [negb]; cbv iota; by rewrite E].
    simpl. specialize (IH (Dict.set k (Py.universal_newlines content) acc)).
    destruct (List.find _ ks) as [missing|]; [exact IH|].
    destruct IH as (before & -> & Hin & Hout).
    exists before. split; [done|]. split.
    + intros f Hf. destruct (in_dec String.string_dec f ks) as [Hks|Hks].
      * by apply Hin.
      * destruct Hf as [<-|Hf]; [|done].
        rewrite (Hout k Hks), dict_get_set_eq. unfold file_of. by rewrite E.
    + intros f Hf. rewrite Hout by (intros H; apply Hf; by right).
      apply dict_get_set_ne. intros <-. apply Hf. by left.
Qed.

Lemma update_code_files_log (code_changes : Dict.dict string) (st : State) :
  log (snd (CodeDebugger._update_code_files env self code_changes st)) = log st.
Proof.
  revert st. induction code_changes as [|[k c] l IH]; intros st; [done|].
  rewrite update_code_files_cons. destruct (can_write _ _ _ _); [|done].
  by rewrite IH.
Qed.

Lemma written_lookup (l : Dict.dict string) (d : gmap string string)
    (k c : string) :
  NoDup (map (file_of env self) (Dict.keys l)) ->
  In (k, c) l ->
  written env self l d !! file_of env self k = Some c.
Proof.
  revert d. induction l as [|[k0 c0] l IH]; intros d Hnd Hin; [done|].
  simpl in Hnd. apply NoDup_cons in Hnd as [Hk0 Hnd].
  rewrite written_cons. destruct Hin as [[= -> ->]|Hin].
  - rewrite written_frame.
    + apply lookup_insert_eq.
    + intros f Hf Heq. apply Hk0. rewrite <- Heq.
      apply list_elem_of_In, in_map, Hf.
  - by apply IH.
Qed.

(** How applying a reply ends well: every file of the change set was
    there, the files are written, and one line is logged. *)
Lemma apply_response_ok (llm_response : string) (st st' : State) :
  CodeDebugger.apply_response env self llm_response st = (Ok tt, st') ->
  exists code_before_change,
    (forall filename,
       In filename (Dict.keys (_extract_code_from_llm_response llm_response)) ->
       exists old,
         disk st !! file_of env self filename = Some old /\
         Dict.get filename code_before_change
         = Some (Py.universal_newlines old)) /\
    disk st'
    = written env self (_extract_code_from_llm_response llm_response) (disk st) /\
    log st'
    = log st
      ++ [if negb (Py.is_empty
                     (CodeDebugger.make_change_summary env
                        (_extract_code_from_llm_response llm_response)
                        code_before_change))
          then LogChanges
                 (CodeDebugger.make_change_summary env
                    (_extract_code_from_llm_response llm_response)
                    code_before_change)
          else LogNoChanges].
Proof.
  unfold CodeDebugger.apply_response. cbv zeta.
  set (code_changes := _extract_code_from_llm_response llm_response).
  intros Hrun.
  apply bind_inv_ok in Hrun as (before & s1 & Hread & Hrun).
  apply bind_inv_ok in Hrun as ([] & s2 & Hupdate & Hrun).
  unfold CodeDebugger.read_before_change in Hread.
  pose proof (read_loop_run (Dict.keys code_changes) [] st) as Hloop.
  unfold Dict.dict in *.
  destruct (List.find _ (Dict.keys code_changes)) as [missing|] eqn:Hfind;
    [by rewrite Hloop in Hread|].
  destruct Hloop as (before' & Hloop & Hin & _).
  rewrite Hloop in Hread. injection Hread as <- <-.
  exists before'. split; [|split].
  - intros filename Hf. specialize (Hin filename Hf).
    pose proof (find_none _ _ Hfind filename Hf) as Hthere. simpl in Hthere.
    unfold readable in Hthere. fold (file_of env self filename) in Hthere.
    destruct (disk st !! file_of env self filename) as [old|];
      [by exists old|done].
  - pose proof (update_code_files_disk env self code_changes st) as Hdisk.
    rewrite Hupdate in Hdisk. simpl in Hdisk.
    destruct (negb _); injection Hrun as <-; simpl; by apply Hdisk.
  - pose proof (update_code_files_log code_changes st) as Hlog.
    rewrite Hupdate in Hlog. simpl in Hlog.
    destruct (negb _); injection Hrun as <-; simpl; by rewrite Hlog.
Qed.

End Apply.


(** A name that reaches a file of the directory by another path is read:
    [./a.py] gives what [a.py] holds. *)
Lemma other_path_of_a_file_is_read :
  fst (CodeDebugger.read_before_change Scenario.env_fix (Scenario.config 3 2)
         Scenario.changes_alias (initial_state Scenario.directory))
  = Ok [("./a.py", "boom()")].
Proof. vm_compute. reflexivity. Qed.

(** X14. When applying a reply ends well, every file that the reply names
    was in the directory before, the directory is the old one with the
    files of the change set written in their order, and exactly one line
    is logged, about the changes.  When no two names of the change set
    name the same file, every file of the change set then holds the code
    that the parser gave it, which has no white space at either end. *)
Theorem applied_reply_is_on_disk (env : Env) (self : Config)
    (llm_response : string) (st : State) :
  let code_changes := _extract_code_from_llm_response llm_response in
  let result := CodeDebugger.apply_response env self llm_response st in
  fst result = Ok tt ->
  (forall filename, In filename (Dict.keys code_changes) ->
     is_Some (disk st !! file_of env self filename)) /\
  disk (snd result) = written env self code_changes (disk st) /\
  (exists e, log (snd result) = log st ++ [e] /\ is_change_report e) /\
  (NoDup (map (file_of env self) (Dict.keys code_changes)) ->
   forall filename code,
     Dict.get filename code_changes = Some code ->
     disk (snd result) !! file_of env self filename = Some code /\
     trimmed code).
Proof.
  cbv zeta.
  destruct (CodeDebugger.apply_response env self llm_response st)
    as [[[]|e|] st'] eqn:Hrun; [|done|done].
  intros _. simpl.
  apply apply_response_ok in Hrun as (before & Hthere & Hdisk & Hlog).
  split; [|split; [done|split]].
  - intros filename Hf. destruct (Hthere filename Hf) as (old & -> & _). by eexists.
  - eexists. split; [exact Hlog|].
    destruct (negb _); [right; by eexists|by left].
  - intros Hnd filename code Hget. split.
    + rewrite Hdisk. apply written_lookup; [done|].
      by apply dict_get_Some_In.
    + unfold _extract_code_from_llm_response in Hget.
      rewrite dict_of_matches_fold in Hget.
      apply fold_matches_get in Hget as [Hget|(raw & _ & ->)]; [done|].
      apply strip_trimmed.
Qed.

(** The model repairs [a.py]: the file holds the code of the reply. *)
Lemma applied_reply_is_on_disk_witness :
  disk (snd (CodeDebugger.apply_response Scenario.env_fix (Scenario.config 3 2)
               (Scenario.reply_for "a.py" "print(1)")
               (initial_state Scenario.directory))) !! "proj/a.py"
  = Some "print(1)".
Proof.
  destruct (applied_reply_is_on_disk Scenario.env_fix (Scenario.config 3 2)
              (Scenario.reply_for "a.py" "print(1)")
              (initial_state Scenario.directory))
    as (_ & _ & _ & Hheld).
  - vm_compute. reflexivity.
  - apply (Hheld ltac:(vm_compute; apply NoDup_singleton) "a.py" "print(1)").
    vm_compute. reflexivity.
Defined.

(** X15. A reply without a block changes nothing and is logged as no
    change.  A reply whose code equals, once both are stripped, what each
    of its files holds is logged as no change as well when applying it
    ends well, although its files are written with the code of the
    reply. *)
Theorem unchanged_content_is_written_but_not_reported (env : Env)
    (self : Config) (llm_response : string) (st : State) :
  let code_changes := _extract_code_from_llm_response llm_response in
  let result := CodeDebugger.apply_response env self llm_response st in
  (~ contains_block llm_response ->
   result = (Ok tt, add_event LogNoChanges st)) /\
  (fst result = Ok tt ->
   (forall filename code old,
      In (filename, code) code_changes ->
      disk st !! file_of env self filename = Some old ->
      Py.strip (Py.universal_newlines old) = Py.strip code) ->
   log (snd result) = log st ++ [LogNoChanges] /\
   disk (snd result) = written env self code_changes (disk st)).
Proof.
  cbv zeta. split.
  - intros Hno.
    assert (Hempty : _extract_code_from_llm_response llm_response = []).
    { unfold _extract_code_from_llm_response.
      destruct (Re.findall code_block_pattern llm_response) as [|m ms] eqn:Hf;
        [done|].
      exfalso. apply Hno. apply findall_block_iff. by rewrite Hf. }
    unfold CodeDebugger.apply_response. by rewrite Hempty.
  - destruct (CodeDebugger.apply_response env self llm_response st)
      as [[[]|e|] st'] eqn:Hrun; [|done|done].
    intros _ Hsame. simpl.
    apply apply_response_ok in Hrun as (before & Hthere & Hdisk & Hlog).
    split; [|done]. rewrite Hlog.
    rewrite summary_all_noop; [done|].
    intros k c Hin.
    destruct (Hthere k) as (old & Hold & Hbefore).
    { apply (in_map fst) in Hin. exact Hin. }
    eapply summary_entry_noop; [exact Hbefore|]. by eapply Hsame.
Qed.

(** The reply gives [a.py] the content it has, but for white space. *)
Lemma unchanged_content_is_written_but_not_reported_witness :
  log (snd (CodeDebugger.apply_response Scenario.env_fix (Scenario.config 3 2)
              (Scenario.reply_for "a.py" (" boom()" +:+ Py.nl))
              (initial_state Scenario.directory)))
  = [LogNoChanges].
Proof.
  destruct (unchanged_content_is_written_but_not_reported Scenario.env_fix
              (Scenario.config 3 2)
              (Scenario.reply_for "a.py" (" boom()" +:+ Py.nl))
              (initial_state Scenario.directory))
    as [_ Hsame].
  destruct Hsame as [Hlog _]; [vm_compute; reflexivity| |exact Hlog].
  intros filename code old Hin Hold.
  vm_compute in Hin. destruct Hin as [[= <- <-]|[]].
  vm_compute in Hold. injection Hold as <-. vm_compute. reflexivity.
Defined.

(** ** The lines of a difference *)

Lemma marked_not_unchanged (line : string) :
  is_marked line = true -> Py.startswith line "  " = false.
Proof.
  unfold is_marked. destruct line as [|a line]; [done|].
  rewrite !startswith_cons.
  destruct (Ascii.eqb_spec a "-") as [->|]; [done|].
  destruct (Ascii.eqb_spec a "+") as [->|]; done.
Qed.

Lemma get_diff_line (line : string) :
  (if Py.startswith line "  " then []
   else if Py.startswith line "- " then
     ["  - " +:+ Py.strip (Py.drop_chars 2 line) +:+ Py.nl]
   else if Py.startswith line "+ " then
     ["  + " +:+ Py.strip (Py.drop_chars 2 line) +:+ Py.nl]
   else [])
  = if is_marked line then [diff_entry line] else [].
Proof.
  destruct (is_marked line) eqn:Hm.
  - rewrite (marked_not_unchanged line Hm). unfold diff_entry.
    unfold is_marked in Hm.
    destruct (Py.startswith line "- "); [done|]. simpl in Hm. by rewrite Hm.
  - unfold is_marked in Hm. apply orb_false_iff in Hm as [-> ->].
    by destruct (Py.startswith line "  ").
Qed.

(** X16. [get_diff] keeps, in their order, the lines of the comparison
    that are marked as removed or as added, and no other: the lines marked
    as unchanged or as hints are dropped.  Each line it returns is two
    spaces, the mark, a space, a text without white space at either end,
    and a line feed; so the indentation of a changed line is not shown,
    and a comparison without marked lines gives no line. *)
Theorem get_diff_keeps_marked_lines
    (differ_compare : list string -> list string -> list string)
    (old_lines new_lines : list string) :
  get_diff differ_compare old_lines new_lines
  = map diff_entry (List.filter is_marked (differ_compare old_lines new_lines)) /\
  Forall
    (fun shown =>
       exists mark text,
         (mark = "-" \/ mark = "+") /\ trimmed text /\
         shown = "  " +:+ mark +:+ " " +:+ text +:+ Py.nl)
    (get_diff differ_compare old_lines new_lines).
Proof.
  assert (Hmap : get_diff differ_compare old_lines new_lines
    = map diff_entry
        (List.filter is_marked (differ_compare old_lines new_lines))).
  { unfold get_diff. cbv zeta.
    induction (differ_compare old_lines new_lines) as [|line lines IH]; [done|].
    cbn [flat_map List.filter]. rewrite get_diff_line, IH.
    by destruct (is_marked line). }
  split; [exact Hmap|]. rewrite Hmap.
  apply Forall_forall. intros shown Hin. apply list_elem_of_In in Hin.
  apply in_map_iff in Hin as (line & <- & _).
  unfold diff_entry.
  destruct (Py.startswith line "- ").
  - exists "-", (Py.strip (Py.drop_chars 2 line)).
    split; [by left|]. split; [apply strip_trimmed|done].
  - exists "+", (Py.strip (Py.drop_chars 2 line)).
    split; [by right|]. split; [apply strip_trimmed|done].
Qed.

(** ** The files to debug *)

Lemma drop_chars_append (pre s : string) :
  Py.drop_chars (String.length pre) (pre +:+ s) = s.
Proof. induction pre as [|a pre IH]; [by destruct s|]. exact IH. Qed.

Lemma drop_chars_split (n : nat) (s : string) :
  (n <= String.length s)%nat ->
  exists pre, s = pre +:+ Py.drop_chars n s /\ String.length pre = n.
Proof.
  revert s. induction n as [|n IH]; intros s Hn.
  - exists EmptyString. by destruct s.
  - destruct s as [|a s]; [simpl in Hn; lia|].
    destruct (IH s) as (pre & Hs & Hlen); [simpl in Hn; lia|].
    exists (String a pre). rewrite append_cons. simpl.
    split; [by f_equal|by rewrite Hlen].
Qed.

Lemma endswith_iff (s p : string) :
  Py.endswith s p = true <-> exists pre, s = pre +:+ p.
Proof.
  unfold Py.endswith. split.
  - intros [Hlen Heq]%andb_true_iff.
    apply Nat.leb_le in Hlen. apply String.eqb_eq in Heq.
    destruct (drop_chars_split (String.length s - String.length p) s)
      as (pre & Hs & _); [lia|].
    exists pre. by rewrite <- Heq.
  - intros [pre ->]. rewrite length_append. apply andb_true_iff. split.
    + apply Nat.leb_le. lia.
    + replace (String.length pre + String.length p - String.length p)%nat
        with (String.length pre) by lia.
      rewrite drop_chars_append. apply String.eqb_refl.
Qed.

Lemma filter_sublist {A} (f : A -> bool) (l : list A) :
  sublist (List.filter f l) l.
Proof.
  induction l as [|x l IH]; simpl; [constructor|].
  destruct (f x); by constructor.
Qed.

(** X17. The files that [__init__] gives the debugger.  A list of files
    that is not empty is taken as it is, and the listing of the directory
    plays no part.  Without a list, or with an empty one, the files are
    the entries of the listing whose name ends in [.py], in the order of
    the listing, and no other name. *)
Theorem init_selects_python_files (code_dir : string) (max_attempts : Z)
    (files : option (list string)) (enable_internet_search : bool)
    (num_search_urls internet_search_threshold : Z) (listing : list string) :
  let self :=
    CodeDebugger_init code_dir max_attempts files enable_internet_search
      num_search_urls internet_search_threshold listing in
  (forall given, files = Some given -> given <> [] ->
     files_to_debug self = given) /\
  (files = None \/ files = Some [] ->
   sublist (files_to_debug self) listing /\
   (forall f, In f (files_to_debug self) <->
      In f listing /\ exists stem, f = stem +:+ ".py")).
Proof.
  cbv zeta. split.
  - intros given -> Hne. simpl. by destruct given.
  - intros Hnone.
    assert (Hfiles : files_to_debug
      (CodeDebugger_init code_dir max_attempts files enable_internet_search
         num_search_urls internet_search_threshold listing)
      = _get_all_python_files listing).
    { by destruct Hnone as [-> | ->]. }
    rewrite Hfiles. unfold _get_all_python_files. split.
    + apply filter_sublist.
    + intros f. rewrite filter_In, endswith_iff. done.
Qed.

(** ** What an attempt does to the directory *)

Section AttemptEffect.
Context (env : Env) (self : Config).


(** Programs that write nothing leave the directory as it is. *)
Lemma after_runs_disk (files : list string) (st : State) :
  (forall t d path, python_writes env t d path = d) ->
  disk (after_runs env self files st) = disk st.
Proof.
  intros Hnone. revert st. induction files as [|f files IH]; intros st; [done|].
  simpl. destruct (run_raises env self (clock st) (disk st) f).
  - simpl. apply Hnone.
  - rewrite IH. simpl. apply Hnone.
Qed.




End AttemptEffect.



(** A program that writes a file of its own: the file is in the directory
    after the attempt, although no reply names it. *)
Lemma file_of_the_program_is_in_the_directory :
  let result :=
    CodeDebugger.attempt env_program_writes (Scenario.config 3 2)
      (initial_state Scenario.directory) in
  fst result = Ok true /\
  disk (initial_state Scenario.directory) !! "proj/out.txt" = None /\
  disk (snd result) !! "proj/out.txt" = Some "done".
Proof. vm_compute. done. Qed.



(** ** A failure that stays *)

Lemma mod_succ (a T : Z) :
  1 <= T -> 0 <= a ->
  (a + 1) mod T = if a mod T =? T - 1 then 0 else a mod T + 1.
Proof.
  intros HT Ha.
  pose proof (Z.div_mod a T ltac:(lia)) as Hdiv.
  pose proof (Z.mod_pos_bound a T ltac:(lia)) as Hr.
  destruct (Z.eqb_spec (a mod T) (T - 1)) as [E|E].
  - symmetry. apply (Z.mod_unique_pos _ _ (a / T + 1)); lia.
  - symmetry. apply (Z.mod_unique_pos _ _ (a / T)); lia.
Qed.

Lemma filter_snoc {A} (f : A -> bool) (l : list A) (x : A) :
  List.filter f (l ++ [x]) = List.filter f l ++ (if f x then [x] else []).
Proof.
  induction l as [|y l IH]; simpl; [by destruct (f x)|].
  rewrite IH. by destruct (f y).
Qed.

Section SameFailure.
Context (env : Env) (self : Config) (failure : string).
Hypothesis Hon : enable_internet_search self = true.
Hypothesis Hth : 1 <= internet_search_threshold self.
Hypothesis Hsame :
  forall t d, Py.join (failure_texts env self t d) = failure.
Hypothesis Hfailure : failure <> EmptyString.

Lemma same_failure_step (st st' : State) (o : Outcome bool) :
  0 <= attempt_count st ->
  (attempt_count st = 0 -> last_error_signature st = EmptyString) ->
  (1 <= attempt_count st ->
   last_error_signature st = failure /\
   constant_error_count st
   = (attempt_count st - 1) mod internet_search_threshold self) ->
  escalation_attempts (log st)
  = List.filter (search_is_due (internet_search_threshold self))
      (attempts_logged (log st)) ->
  run_error env self (clock st) (disk st) (files_to_debug self) = None ->
  CodeDebugger.attempt env self st = (o, st') ->
  escalation_attempts (log st')
  = List.filter (search_is_due (internet_search_threshold self))
      (attempts_logged (log st')) /\
  (forall error_exists, o = Ok error_exists ->
   1 <= attempt_count st' /\
   last_error_signature st' = failure /\
   constant_error_count st'
   = (attempt_count st' - 1) mod internet_search_threshold self).
Proof.
  intros Hpos Hfirst Hlater HJ Hret Hrun.
  pose proof (attempt_escalation_attempts env self _ _ _ Hrun) as Hlist.
  pose proof (attempt_escalated env self _ _ _ Hrun) as Hesc.
  pose proof (attempt_logs_its_number env self _ _ _ Hrun) as Hnum.
  pose proof (attempt_run env self _ _ _ Hrun) as (_ & Hcount & Hcase).
  cbv zeta in Hcase. unfold runs_return in Hesc. rewrite Hret in Hesc, Hcase.
  destruct Hcase as [_ Hok]. rewrite andb_true_l in Hesc.
  rewrite Hsame in Hesc, Hok.
  assert (Hne : Py.is_empty failure = false).
  { by destruct failure. }
  assert (Htracked :
    tracked_count st failure
    = (if attempt_count st =? 0 then 0
       else (attempt_count st - 1) mod internet_search_threshold self + 1) /\
    tracked_last st failure = failure).
  { unfold tracked_count, tracked_last.
    destruct (Z.eqb_spec (attempt_count st) 0) as [E|E].
    - rewrite (Hfirst E).
      assert (String.eqb failure EmptyString = false) as ->; [|done].
      by apply String.eqb_neq.
    - destruct Hlater as [-> ->]; [lia|].
      by rewrite String.eqb_refl, Hne. }
  destruct Htracked as [Htc Htl]. rewrite Htc in Hesc, Hok. rewrite Htl in Hok.
  pose proof (Z.mod_pos_bound (attempt_count st - 1)
                (internet_search_threshold self) ltac:(lia)) as Hr.
  assert (Hdue :
    escalated st st'
    = search_is_due (internet_search_threshold self) (attempt_count st + 1)).
  { rewrite Hesc. unfold escalating, search_is_due. rewrite Hon. simpl.
    replace (attempt_count st + 1 - 1) with (attempt_count st - 1 + 1) by lia.
    destruct (Z.eqb_spec (attempt_count st) 0) as [E|E].
    - rewrite E. simpl. apply Z.leb_gt. lia.
    - rewrite mod_succ by lia.
      assert ((1 <? attempt_count st + 1) = true) as -> by (apply Z.ltb_lt; lia).
      simpl.
      destruct (Z.eqb_spec ((attempt_count st - 1)
                              mod internet_search_threshold self)
                  (internet_search_threshold self - 1)) as [E'|E'].
      + rewrite E'. simpl. apply Z.leb_le. lia.
      + transitivity false; [apply Z.leb_gt; lia|].
        symmetry. apply Z.eqb_neq. lia. }
  split.
  - by rewrite Hlist, Hnum, filter_snoc, HJ, Hdue.
  - intros ee ->. destruct (Hok ee eq_refl) as (Hl & Hc & _).
    split; [lia|]. split; [done|]. rewrite Hc, Hcount. rewrite <- Hesc, Hdue.
    unfold search_is_due.
    replace (attempt_count st + 1 - 1) with (attempt_count st - 1 + 1) by lia.
    destruct (Z.eqb_spec (attempt_count st) 0) as [E|E].
    + rewrite E. simpl. by rewrite Z.mod_0_l by lia.
    + assert ((1 <? attempt_count st + 1) = true) as -> by (apply Z.ltb_lt; lia).
      simpl. rewrite mod_succ by lia.
      destruct (Z.eqb_spec ((attempt_count st - 1)
                              mod internet_search_threshold self)
                  (internet_search_threshold self - 1)) as [E'|E']; [done|].
      assert (((attempt_count st - 1) mod internet_search_threshold self + 1
               =? 0) = false) as -> by (apply Z.eqb_neq; lia).
      done.
Qed.

End SameFailure.

(** X20. When the failures read the same, and not empty, at every
    attempt, with the search switched on and a threshold of at least one,
    the attempts of a session that ask the internet are exactly the
    attempts [threshold + 1], [2 * threshold + 1], and so on: those, after
    the first, that are one more than a multiple of the threshold.  This
    holds however the session ends, but for a session that is ended by a
    call of [subprocess.run] that raises: its last attempt may have ended
    before it could ask, and then the attempts that ask are those among
    the attempts before the last. *)
Theorem same_failure_searches_every_threshold_attempts (env : Env)
    (self : Config) (failure : string) (d : gmap string string) :
  enable_internet_search self = true ->
  1 <= internet_search_threshold self ->
  (forall t d', Py.join (failure_texts env self t d') = failure) ->
  failure <> EmptyString ->
  let result := CodeDebugger.debug env self (initial_state d) in
  let final := snd result in
  escalation_attempts (log final)
  = List.filter (search_is_due (internet_search_threshold self))
      (attempts_logged (log final)) \/
  exists path,
    fst result = Raised (RunError path) /\
    escalation_attempts (log final)
    = List.filter (search_is_due (internet_search_threshold self))
        (removelast (attempts_logged (log final))).
Proof.
  intros Hon Hth Hsame Hfailure. cbv zeta.
  pose proof (debug_terminates env self (initial_state d)) as Hfuel.
  pose proof (debug_outcome_invariant env self
    (fun st =>
       0 <= attempt_count st /\
       (attempt_count st = 0 -> last_error_signature st = EmptyString) /\
       (1 <= attempt_count st ->
        last_error_signature st = failure /\
        constant_error_count st
        = (attempt_count st - 1) mod internet_search_threshold self))
    (fun l =>
       escalation_attempts l
       = List.filter (search_is_due (internet_search_threshold self))
           (attempts_logged l))
    (fun e st' =>
       escalation_attempts (log st')
       = List.filter (search_is_due (internet_search_threshold self))
           (attempts_logged (log st')) \/
       is_run_error e /\
       escalation_attempts (log st')
       = List.filter (search_is_due (internet_search_threshold self))
           (removelast (attempts_logged (log st'))))
    (initial_state d)) as H.
  cbv beta in H.
  assert (Hend :
    match fst (CodeDebugger.debug env self (initial_state d)) with
    | Raised e =>
        escalation_attempts
          (log (snd (CodeDebugger.debug env self (initial_state d))))
        = List.filter (search_is_due (internet_search_threshold self))
            (attempts_logged
               (log (snd (CodeDebugger.debug env self (initial_state d))))) \/
        is_run_error e /\
        escalation_attempts
          (log (snd (CodeDebugger.debug env self (initial_state d))))
        = List.filter (search_is_due (internet_search_threshold self))
            (removelast
               (attempts_logged
                  (log (snd (CodeDebugger.debug env self (initial_state d))))))
    | _ =>
        escalation_attempts
          (log (snd (CodeDebugger.debug env self (initial_state d))))
        = List.filter (search_is_due (internet_search_threshold self))
            (attempts_logged
               (log (snd (CodeDebugger.debug env self (initial_state d)))))
    end).
  { apply H.
    - intros st o st' (Hpos & Hfirst & Hlater) HJ Hrun.
      destruct (run_error env self (clock st) (disk st) (files_to_debug self))
        as [e'|] eqn:Hret.
      + pose proof (attempt_escalation_attempts env self _ _ _ Hrun) as Hlist.
        pose proof (attempt_escalated env self _ _ _ Hrun) as Hesc.
        pose proof (attempt_logs_its_number env self _ _ _ Hrun) as Hnum.
        pose proof (attempt_run env self _ _ _ Hrun) as (_ & _ & Hcase).
        cbv zeta in Hcase. unfold runs_return in Hesc.
        rewrite Hret in Hesc, Hcase. destruct Hcase as (-> & _).
        right. split; [by eapply run_error_is_run_error|].
        rewrite Hlist, Hnum, Hesc, app_nil_r, removelast_last. exact HJ.
      + destruct (same_failure_step env self failure Hon Hth Hsame Hfailure
                    st st' o Hpos Hfirst Hlater HJ Hret Hrun) as [HJ' HI'].
        destruct o as [ee|e'|].
        * split; [exact HJ'|].
          destruct (HI' ee eq_refl) as (H1 & H2 & H3).
          split; [lia|]. split; [lia|done].
        * by left.
        * done.
    - intros l Hl. unfold escalation_attempts in *.
      by rewrite escalation_attempts_from_max, attempts_logged_snoc_max.
    - simpl. split; [lia|]. split; [done|lia].
    - done. }
  destruct (fst (CodeDebugger.debug env self (initial_state d))) as [u|e|];
    [by left| |done].
  destruct Hend as [Hend|[He Hend]]; [by left|].
  destruct e; try done. right. by eexists.
Qed.

(** A file that keeps failing, with threshold three and eight attempts:
    the searches are made in attempts 4 and 7. *)
Lemma same_failure_searches_every_threshold_attempts_witness :
  escalation_attempts
    (log (snd (CodeDebugger.debug Scenario.env_stuck (Scenario.config 8 3)
                 (initial_state Scenario.directory))))
  = [4; 7].
Proof.
  destruct (same_failure_searches_every_threshold_attempts Scenario.env_stuck
              (Scenario.config 8 3) "Traceback (most recent call last): boom"
              Scenario.directory) as [Hdue|(path & Hraised & _)].
  - reflexivity.
  - vm_compute. discriminate.
  - intros t d'. vm_compute. reflexivity.
  - discriminate.
  - rewrite Hdue. vm_compute. reflexivity.
  - vm_compute in Hraised. discriminate Hraised.
Defined.

(** With threshold one the second attempt is one that asks.  When the
    first call of its run over the files raises, the session ends there:
    the attempt is logged and has not asked. *)
Lemma raising_run_ends_session_before_due_search :
  let result :=
    CodeDebugger.debug (env_run_raises_from 5) (Scenario.config 3 1)
      (initial_state Scenario.directory) in
  fst result = Raised (RunError "proj/a.py") /\
  attempts_logged (log (snd result)) = [1; 2] /\
  List.filter (search_is_due 1) (attempts_logged (log (snd result))) = [2] /\
  escalation_attempts (log (snd result)) = [].
Proof. vm_compute. done. Qed.

(** ** What counts as a failure *)

Section WordInStrippedText.
Context (needle : string).
Hypothesis Hhead : starts_with_space needle = false.
Hypothesis Hlast : ends_with_space needle = false.
Hypothesis Hneedle : needle <> EmptyString.

Lemma startswith_space_head (a : ascii) (s : string) :
  Py.is_space a = true -> Py.startswith (String a s) needle = false.
Proof.
  intros Ha. destruct needle as [|b n]; [done|]. rewrite startswith_cons.
  destruct (Ascii.eqb_spec a b) as [->|]; [|done].
  simpl in Hhead. by rewrite Hhead in Ha.
Qed.

Lemma str_in_lstrip (s : string) : Py.str_in needle (Py.lstrip s) = Py.str_in needle s.
Proof.
  induction s as [|a s IH]; [done|]. simpl Py.lstrip.
  destruct (Py.is_space a) eqn:Ha; [|done].
  rewrite IH, (str_in_unfold needle (String a s)).
  by rewrite startswith_space_head.
Qed.

End WordInStrippedText.

Lemma startswith_rstrip (needle s : string) :
  ends_with_space needle = false ->
  Py.startswith (Py.rstrip s) needle = Py.startswith s needle.
Proof.
  revert s. induction needle as [|b n IH]; intros s Hlast.
  - by destruct (Py.rstrip s), s.
  - destruct s as [|a s]; [done|].
    assert (Hn : n = EmptyString /\ Py.is_space b = false \/
                 n <> EmptyString /\ ends_with_space n = false).
    { destruct n as [|c n]; [by left|right]. done. }
    simpl Py.rstrip.
    destruct (Py.is_space a && Py.is_empty (Py.rstrip s)) eqn:Hc.
    + apply andb_true_iff in Hc as [Ha Hr].
      apply is_empty_true in Hr.
      rewrite startswith_cons.
      destruct (Ascii.eqb_spec a b) as [->|]; [|reflexivity].
      destruct Hn as [[_ Hb]|[Hne Hn]]; [by rewrite Hb in Ha|].
      rewrite <- (IH s Hn), Hr. by destruct n.
    + rewrite !startswith_cons. destruct (Ascii.eqb a b); [|done].
      destruct Hn as [[-> _]|[_ Hn]]; [by destruct (Py.rstrip s), s|].
      by apply IH.
Qed.

Lemma str_in_rstrip (needle s : string) :
  starts_with_space needle = false -> ends_with_space needle = false ->
  needle <> EmptyString ->
  Py.str_in needle (Py.rstrip s) = Py.str_in needle s.
Proof.
  intros Hhead Hlast Hne. induction s as [|a s IH]; [done|].
  rewrite (str_in_unfold needle (String a s)), <- IH.
  rewrite <- (startswith_rstrip needle (String a s) Hlast).
  simpl Py.rstrip.
  destruct (Py.is_space a && Py.is_empty (Py.rstrip s)) eqn:Hc.
  - apply andb_true_iff in Hc as [Ha Hr]. apply is_empty_true in Hr.
    rewrite Hr. by destruct needle.
  - by rewrite (str_in_unfold needle (String a (Py.rstrip s))).
Qed.

Lemma str_in_strip (needle s : string) :
  starts_with_space needle = false -> ends_with_space needle = false ->
  needle <> EmptyString ->
  Py.str_in needle (Py.strip s) = Py.str_in needle s.
Proof.
  intros Hhead Hlast Hne. unfold Py.strip.
  by rewrite str_in_rstrip, str_in_lstrip.
Qed.

(** X21. What counts as a failure of a file is the word [Traceback]
    alone.  Running a file takes one call of the interpreter, after which
    the directory is what the program has left.  When [subprocess.run]
    raises something other than the error of the exit code, which is the
    only one that is caught, the exception goes through.  Otherwise the
    run returns text without white space at either end: the standard
    output when the exit code is 0, the standard error otherwise.  The
    text shows a failure exactly when that stream holds the word
    anywhere; so a run that exits with an error but without the word is
    not a failure, and a run that exits with 0 and prints the word is
    one. *)
Theorem failure_is_the_word_traceback (env : Env) (self : Config)
    (code_filename : string) (st : State) :
  let path := Py.path_join (code_dir self) code_filename in
  let completed := python env (clock st) (disk st) path in
  let result :=
    CodeDebugger._run_subprocess_and_capture_output env self code_filename st in
  snd result
  = set_disk (python_writes env (clock st) (disk st) path) (advance_clock st) /\
  if python_raises env (clock st) (disk st) path
  then fst result = Raised (RunError path)
  else
    exists text,
      fst result = Ok text /\
      trimmed text /\
      shows_failure text
      = if returncode completed =? 0
        then Py.str_in "Traceback" (stdout completed)
        else Py.str_in "Traceback" (stderr completed).
Proof.
  cbv zeta. rewrite run_subprocess_run. split; [reflexivity|].
  unfold run_raises. simpl.
  destruct (python_raises env (clock st) (disk st) _); [done|].
  eexists. split; [reflexivity|].
  unfold run_output, shows_failure.
  destruct (returncode _ =? 0).
  - split; [apply strip_trimmed|]. by apply str_in_strip.
  - split; [apply strip_trimmed|]. by apply str_in_strip.
Qed.

(** ** A reply that cannot be applied *)

Lemma iter_advance_clock (n : nat) (st : State) :
  Nat.iter n advance_clock st
  = {| attempt_count := attempt_count st;
       constant_error_count := constant_error_count st;
       last_error_signature := last_error_signature st;
       disk := disk st; log := log st; clock := (n + clock st)%nat |}.
Proof.
  induction n as [|n IH]; [by destruct st|]. simpl. by rewrite IH.
Qed.



(** A reply that names a file of the directory by another path is
    applied: [./a.py] is read and written as [a.py]. *)
Lemma reply_with_other_path_is_applied :
  let result :=
    CodeDebugger.apply_response Scenario.env_fix (Scenario.config 3 2)
      (Scenario.reply_for "./a.py" "print(1)")
      (initial_state Scenario.directory) in
  fst result = Ok tt /\
  disk (snd result) !! "proj/a.py" = Some "print(1)" /\
  disk (snd result) !! "proj/./a.py" = None.
Proof. vm_compute. done. Qed.

(** X23. Writing a change set is not undone when it fails: when the
    system refuses to open a file for writing, [_update_code_files]
    raises at that file; the files before it in the change set are
    written, one after the other, and neither the file itself nor those
    after it are written, unless a name before it names the same file. *)
Theorem refused_write_leaves_earlier_files_written (env : Env)
    (self : Config) (before_it after_it : Dict.dict string)
    (filename code : string) (st : State) :
  (forall t d name, In name (Dict.keys before_it) ->
     can_write env t d (Py.path_join (code_dir self) name) = true) ->
  (forall t d, can_write env t d (Py.path_join (code_dir self) filename) = false) ->
  let result :=
    CodeDebugger._update_code_files env self
      (before_it ++ (filename, code) :: after_it) st in
  result
  = (Raised (OSError (Py.path_join (code_dir self) filename)),
     set_disk (written env self before_it (disk st))
       (Nat.iter (S (length before_it)) advance_clock st)) /\
  forall file,
    (forall name, In name (Dict.keys before_it) -> file_of env self name <> file) ->
    disk (snd result) !! file = disk st !! file.
Proof.
  intros Hbefore Hrefused. cbv zeta.
  assert (Hrun :
    CodeDebugger._update_code_files env self
      (before_it ++ (filename, code) :: after_it) st
    = (Raised (OSError (Py.path_join (code_dir self) filename)),
       set_disk (written env self before_it (disk st))
         (Nat.iter (S (length before_it)) advance_clock st))).
  { revert st.
    induction before_it as [|[k c] l IH]; intros st.
    - simpl app. rewrite update_code_files_cons, Hrefused. by destruct st.
    - simpl app. rewrite update_code_files_cons, Hbefore by (by left).
      rewrite IH by (intros t d name Hname; apply Hbefore; by right).
      rewrite written_cons. f_equal.
      rewrite !iter_advance_clock. unfold set_disk. simpl. f_equal. lia. }
  split; [exact Hrun|].
  intros file Hfile. rewrite Hrun. simpl. by apply written_frame.
Qed.

(** [proj/b.py] cannot be opened for writing: [a.py] is written, [b.py]
    and [c.py] are not. *)
Lemma refused_write_leaves_earlier_files_written_witness :
  let result :=
    CodeDebugger._update_code_files env_refuses_b (Scenario.config 3 2)
      changes_three (initial_state Scenario.directory) in
  fst result = Raised (OSError "proj/b.py") /\
  disk (snd result) !! "proj/a.py" = Some "print(1)" /\
  disk (snd result) !! "proj/c.py" = None.
Proof.
  cbv zeta.
  change changes_three
    with ([("a.py", "print(1)")] ++ ("b.py", "print(2)") :: [("c.py", "print(3)")]).
  destruct (refused_write_leaves_earlier_files_written env_refuses_b
              (Scenario.config 3 2) [("a.py", "print(1)")] [("c.py", "print(3)")]
              "b.py" "print(2)" (initial_state Scenario.directory))
    as [Hrun _].
  - intros t d name [<-|[]]. vm_compute. reflexivity.
  - intros t d. vm_compute. reflexivity.
  - rewrite Hrun. repeat split; vm_compute; reflexivity.
Defined.
